(** * Loan calculator, repayment allocation and vault ledger

    A shallow embedding of the loan-product calculator of the loan
    management API ([LoanProductsService.calculateLoanDetails] with its
    validation middleware and controller), of the vault-balance trigger of
    the database schema, and of the repayment allocator and ledger posting
    that the specification describes; then of the code around them: the
    authentication and authorization middleware, the UPDATE statements
    and the borrower codes of the services, the creation and deletion of
    borrowers, and the paginated listings.

    JavaScript numbers are IEEE-754 binary64 values; they are modelled with
    the [spec_float] type of the Standard Library and its operations at
    precision 53 and maximal exponent 1024, so that every arithmetic step
    rounds as the engine does. *)

From Stdlib Require Import ZArith QArith Qround Qabs Bool List String Lia.
From Stdlib Require Import Floats.SpecFloat Ascii.
From stdpp Require Import gmap strings pretty.

Local Open Scope Z_scope.

(** ** JavaScript numbers *)

Module JS.

Abbreviation number := spec_float.

Definition prec : Z := 53.
Definition emax : Z := 1024.

Definition NaN : number := S754_nan.

(** The operators [*], [/] and [+] on numbers. *)
Definition mul (x y : number) : number := SFmul prec emax x y.
Definition div (x y : number) : number := SFdiv prec emax x y.
Definition add (x y : number) : number := SFadd prec emax x y.

(** [x > y]; false as soon as one side is NaN. *)
Definition gt (x y : number) : bool := SFltb y x.
(** [x >= y] and [x <= y]. *)
Definition ge (x y : number) : bool := SFleb y x.
Definition le (x y : number) : bool := SFleb x y.

(** The number nearest to the ratio [a / b] of two positive integers
    (round to nearest, ties to even): the value of a decimal literal. *)
Definition of_ratio (s : bool) (a b : positive) : number :=
  let '(mz, ez, lz) := SFdiv_core_binary prec emax (Zpos a) 0 (Zpos b) 0 in
  binary_round_aux prec emax s mz ez lz.

(** The number value of an integer. *)
Definition of_Z (n : Z) : number := binary_normalize prec emax n 0 false.

(** A decimal literal [units / 10^scale], as PostgreSQL returns a NUMERIC
    column and as a request body carries an amount. *)
Record decimal := Decimal { units : Z; scale : nat }.

(** [Number(text)] of a decimal literal. *)
Definition to_number (d : decimal) : number :=
  match units d with
  | Z0 => S754_zero false
  | Zpos a => of_ratio false a (Z.to_pos (10 ^ Z.of_nat (scale d)))
  | Zneg a => of_ratio true a (Z.to_pos (10 ^ Z.of_nat (scale d)))
  end.

(** Truthiness of a number: [0], [-0] and [NaN] are falsy. *)
Definition truthy (x : number) : bool :=
  match x with
  | S754_zero _ | S754_nan => false
  | _ => true
  end.

(** The text [Number.prototype.toFixed(2)] produces. *)
Inductive fixed_text :=
| TextNaN
| TextInfinity (negative : bool)
| TextExponent (x : number)
| TextCents (negative : bool) (cents : Z).

(** For a finite [m * 2^e]: the integer [n] for which [n / 100] is
    closest to it, the larger one when two are equally close. *)
Definition nearest_cents (m : positive) (e : Z) : Z :=
  let num := 100 * Zpos m * 2 ^ Z.max e 0 in
  let den := 2 ^ Z.max (- e) 0 in
  (2 * num + den) / (2 * den).

(** [10^21 <= m * 2^e]. *)
Definition at_least_1e21 (m : positive) (e : Z) : bool :=
  10 ^ 21 * 2 ^ Z.max (- e) 0 <=? Zpos m * 2 ^ Z.max e 0.

Definition toFixed2 (x : number) : fixed_text :=
  match x with
  | S754_nan => TextNaN
  | S754_infinity s => TextInfinity s
  | S754_zero _ => TextCents false 0
  | S754_finite s m e =>
      if at_least_1e21 m e then TextExponent x
      else TextCents s (nearest_cents m e)
  end.

(** [parseFloat] of such a text. *)
Definition parseFloat (t : fixed_text) : number :=
  match t with
  | TextNaN => S754_nan
  | TextInfinity s => S754_infinity s
  | TextExponent x => x
  | TextCents s n =>
      match n with
      | Zpos a => of_ratio s a 100
      | _ => S754_zero s
      end
  end.

(** [parseFloat(x)] of a number: [String(x)] read back. *)
Definition parseFloat_number (x : number) : number :=
  match x with
  | S754_zero _ => S754_zero false
  | _ => x
  end.

(** The exact rational magnitude [m * 2^e] of a finite number and its
    exact value. *)
Definition magnitude (m : positive) (e : Z) : Q :=
  Qmake (Zpos m * 2 ^ Z.max e 0) (Z.to_pos (2 ^ Z.max (- e) 0)).

Definition value (x : number) : option Q :=
  match x with
  | S754_zero _ => Some 0%Q
  | S754_finite s m e =>
      Some (if s then (- magnitude m e)%Q else magnitude m e)
  | _ => None
  end.

End JS.

Import JS.

(** ** Loan products and the loan calculator
    ([LoanProductsService] in [services], its controller and the
    [validateLoanCalculation] middleware) *)

(** What a call either returns or throws. *)
Inductive outcome (A E : Type) :=
| Returns (a : A)
| Throws (e : E).
Arguments Returns {A E} a.
Arguments Throws {A E} e.

(** A row of [loan_products], as [getProductById] selects it. NUMERIC
    columns arrive as decimal text, nullable columns may be [None]. *)
Record product := Product {
  name : string;
  interest_type : option string;
  interest_rate : decimal;
  max_amount : decimal;
  default_term_days : Z;
  grace_days : option Z;
  penalty_type : option string;
  penalty_value : decimal;
  is_active : option bool
}.

(** The object [calculateLoanDetails] returns. *)
Record loan_details := LoanDetails {
  product_id : string;
  product_name : string;
  principal_amount : number;
  details_interest_rate : decimal;
  details_interest_type : option string;
  term_days : number;
  interest_amount : number;
  total_due_amount : number;
  details_grace_days : option Z;
  details_penalty_type : option string;
  details_penalty_value : decimal
}.

(** The errors the service throws, by message. *)
Inductive service_error :=
| ProductNotFound
| ProductNotActive
| AmountExceedsMaximum (limit : decimal).

(** The optional [termDays] argument. *)
Inductive term_argument :=
| TermUndefined
| TermNull
| TermNumber (n : number).

(** [WHERE lp.id = $1], then [result.rows[0] || null]. *)
Definition getProductById (db : gmap string product) (productId : string)
  : option product :=
  db !! productId.

(** [!product.is_active] *)
Definition not_active (p : product) : bool :=
  match is_active p with
  | Some true => false
  | _ => true
  end.

(** [product.interest_type === tag] *)
Definition interest_type_is (p : product) (tag : string) : bool :=
  match interest_type p with
  | Some t => String.eqb t tag
  | None => false
  end.

(** [termDays || product.default_term_days], after the parameter default
    [termDays = null] has replaced [undefined]. *)
Definition loanTermDays (termDays : term_argument) (p : product) : number :=
  match termDays with
  | TermNumber n => if truthy n then n else of_Z (default_term_days p)
  | TermNull | TermUndefined => of_Z (default_term_days p)
  end.

(** The value of the local [interestAmount] after the two branches. *)
Definition interestAmount (p : product) (principalAmount term : number)
  : number :=
  if interest_type_is p "flat_monthly" then
    let monthlyPeriods := div term (of_Z 30) in
    mul (mul principalAmount (to_number (interest_rate p))) monthlyPeriods
  else if interest_type_is p "reducing_balance" then
    let dailyRate := div (to_number (interest_rate p)) (of_Z 365) in
    mul (mul principalAmount dailyRate) term
  else of_Z 0.

Definition calculateLoanDetails (db : gmap string product)
    (productId : string) (principalAmount : number)
    (termDays : term_argument)
  : outcome loan_details service_error :=
  match getProductById db productId with
  | None => Throws ProductNotFound
  | Some p =>
      if not_active p then Throws ProductNotActive
      else if gt principalAmount (to_number (max_amount p)) then
        Throws (AmountExceedsMaximum (max_amount p))
      else
        let term := loanTermDays termDays p in
        let interest := interestAmount p principalAmount term in
        let totalDueAmount := add principalAmount interest in
        Returns {|
          product_id := productId;
          product_name := name p;
          principal_amount := parseFloat_number principalAmount;
          details_interest_rate := interest_rate p;
          details_interest_type := interest_type p;
          term_days := term;
          interest_amount := parseFloat (toFixed2 interest);
          total_due_amount := parseFloat (toFixed2 totalDueAmount);
          details_grace_days := grace_days p;
          details_penalty_type := penalty_type p;
          details_penalty_value := penalty_value p
        |}
  end.

(** ** The texts of a request body

    The validators of the routes, [parseFloat] and [parseInt] read a field
    of the body as a text. Texts are taken as ASCII: a character outside
    it is no digit, sign, point or exponent mark, and fails every regular
    expression below. *)

(** The value of a decimal digit. *)
Definition digit_value (c : ascii) : option Z :=
  let n := Z.of_nat (nat_of_ascii c) in
  if (48 <=? n) && (n <=? 57) then Some (n - 48) else None.

(** The longest run of decimal digits at the head of a text, and the text
    that follows it. *)
Fixpoint span_digits (s : string) : list Z * string :=
  match s with
  | String c r =>
      match digit_value c with
      | Some d => let '(ds, rest) := span_digits r in (d :: ds, rest)
      | None => ([], s)
      end
  | EmptyString => ([], s)
  end.

(** The integer a run of digits writes. *)
Definition digits_value (ds : list Z) : Z :=
  fold_left (fun n d => 10 * n + d) ds 0.

(** An optional sign [[-+]]: whether it is a minus, and what follows. *)
Definition read_sign (s : string) : bool * string :=
  match s with
  | String "-" r => (true, r)
  | String "+" r => (false, r)
  | _ => (false, s)
  end.

(** An exponent part [[eE][+-]?[0-9]+] at the head of a text: its value
    and what follows; [None] when the text does not start with one. *)
Definition read_exponent (s : string) : option (Z * string) :=
  match s with
  | String c r =>
      if (c =? "e")%char || (c =? "E")%char then
        let '(negative, r1) := read_sign r in
        match span_digits r1 with
        | ([], _) => None
        | (ds, rest) =>
            Some (if negative then - digits_value ds else digits_value ds,
                  rest)
        end
      else None
  | EmptyString => None
  end.

(** The number nearest to [m * 10^e], with the sign given. *)
Definition decimal_value (negative : bool) (m e : Z) : number :=
  match m with
  | Zpos a =>
      if 0 <=? e then of_ratio negative (Z.to_pos (Zpos a * 10 ^ e)) 1
      else of_ratio negative a (Z.to_pos (10 ^ (- e)))
  | _ => S754_zero negative
  end.

(** White space at the head of a text is skipped by [parseFloat] and
    [parseInt]; in ASCII that is tab, line feed, vertical tab, form feed,
    carriage return and space. *)
Definition is_white_space (c : ascii) : bool :=
  let n := Z.of_nat (nat_of_ascii c) in
  ((9 <=? n) && (n <=? 13)) || (n =? 32).

Fixpoint skip_white_space (s : string) : string :=
  match s with
  | String c r => if is_white_space c then skip_white_space r else s
  | EmptyString => s
  end.

(** [parseFloat(text)]: the longest decimal literal at the head of the
    trimmed text, [NaN] when there is none. *)
Definition parseFloat_text (str : string) : number :=
  let '(negative, s1) := read_sign (skip_white_space str) in
  if String.prefix "Infinity" s1 then S754_infinity negative
  else
    let '(int, s2) := span_digits s1 in
    let '(frac, s3) :=
      match s2 with
      | String "." r => span_digits r
      | _ => ([], s2)
      end in
    match int ++ frac with
    | [] => NaN
    | mantissa =>
        let exponent :=
          match read_exponent s3 with
          | Some (e, _) => e
          | None => 0
          end in
        decimal_value negative (digits_value mantissa)
          (exponent - Z.of_nat (length frac))
    end.

(** The value of a hexadecimal digit. *)
Definition hex_digit_value (c : ascii) : option Z :=
  let n := Z.of_nat (nat_of_ascii c) in
  if (48 <=? n) && (n <=? 57) then Some (n - 48)
  else if (65 <=? n) && (n <=? 70) then Some (n - 55)
  else if (97 <=? n) && (n <=? 102) then Some (n - 87)
  else None.

Fixpoint span_hex_digits (s : string) : list Z :=
  match s with
  | String c r =>
      match hex_digit_value c with
      | Some d => d :: span_hex_digits r
      | None => []
      end
  | EmptyString => []
  end.

(** [parseInt(text)] without a radix: the integer at the head of the
    trimmed text, hexadecimal after [0x] or [0X], [NaN] when there is no
    digit. *)
Definition parseInt_text (str : string) : number :=
  let '(negative, s1) := read_sign (skip_white_space str) in
  let digits :=
    match s1 with
    | String c0 (String c1 r) =>
        if (c0 =? "0")%char && ((c1 =? "x")%char || (c1 =? "X")%char)
        then (16, span_hex_digits r)
        else (10, fst (span_digits s1))
    | _ => (10, fst (span_digits s1))
    end in
  match snd digits with
  | [] => NaN
  | ds =>
      match fold_left (fun n d => fst digits * n + d) ds 0 with
      | Z0 => S754_zero negative
      | n => of_Z (if negative then - n else n)
      end
  end.

(** A field of the body of a request, as [express.json] or
    [express.urlencoded] leave it: absent, [null], a boolean, a number or a
    string. A number is given by the text [String(value)] that the
    validators, [parseFloat] and [parseInt] read; arrays and objects are
    left out. *)
Inductive body_field :=
| Absent
| JsonNull
| JsonBoolean (b : bool)
| JsonNumber (text : string)
| JsonString (text : string).

(** [String(value)] *)
Definition String_of (value : body_field) : string :=
  match value with
  | Absent => "undefined"
  | JsonNull => "null"
  | JsonBoolean true => "true"
  | JsonBoolean false => "false"
  | JsonNumber text | JsonString text => text
  end.

(** The text a standard validator of express-validator is given:
    [undefined] and [null] count as the empty text. *)
Definition validator_text (value : body_field) : string :=
  match value with
  | Absent | JsonNull => ""
  | _ => String_of value
  end.

(** [!value] *)
Definition falsy (value : body_field) : bool :=
  match value with
  | Absent | JsonNull => true
  | JsonBoolean b => negb b
  | JsonNumber text => negb (truthy (parseFloat_text text))
  | JsonString text => String.eqb text ""
  end.

(** The regular expression [float] of [isFloat]: an optional sign
    [[-+]], optional digits [[0-9]+], an optional point followed by any
    number of digits, an optional exponent [[eE][+-]?[0-9]+], and then the
    end of the text. *)
Definition float_test (str : string) : bool :=
  let '(_, s1) := read_sign str in
  let '(_, s2) := span_digits s1 in
  let s3 :=
    match s2 with
    | String "." r => snd (span_digits r)
    | _ => s2
    end in
  let s4 :=
    match read_exponent s3 with
    | Some (_, rest) => rest
    | None => s3
    end in
  String.eqb s4 "".

(** [str.replace(',', '.')]: the first comma becomes a point. *)
Fixpoint replace_comma (str : string) : string :=
  match str with
  | String c r =>
      if (c =? ",")%char then String "." r else String c (replace_comma r)
  | EmptyString => EmptyString
  end.

(** [isFloat(str, { min, max })] of validator.js. *)
Definition isFloat (str : string) (min max : number) : bool :=
  if String.eqb str "" || String.eqb str "." || String.eqb str ","
     || String.eqb str "-" || String.eqb str "+"
  then false
  else
    let value := parseFloat_text (replace_comma str) in
    float_test str && ge value min && le value max.

(** The regular expression [/^[-+]?[0-9]+$/] of [isInt]: the integer a
    matching text writes. *)
Definition int_test (str : string) : option Z :=
  let '(negative, s1) := read_sign str in
  match span_digits s1 with
  | (d :: ds, EmptyString) =>
      Some (if negative then - digits_value (d :: ds)
            else digits_value (d :: ds))
  | _ => None
  end.

(** [isInt(str, { min, max })] of validator.js: the regular expression,
    then [str >= min] and [str <= max] on the number the text converts
    to. *)
Definition isInt (str : string) (min max : Z) : bool :=
  match int_test str with
  | Some n => ge (of_Z n) (of_Z min) && le (of_Z n) (of_Z max)
  | None => false
  end.

(** [text.split('.')[1] || '']: what stands between the first point and
    the second. *)
Fixpoint before_point (s : string) : string :=
  match s with
  | String c r => if (c =? ".")%char then "" else String c (before_point r)
  | EmptyString => ""
  end.

Fixpoint after_first_point (s : string) : string :=
  match s with
  | String c r =>
      if (c =? ".")%char then before_point r else after_first_point r
  | EmptyString => ""
  end.

(** The body of [POST /api/loan-products/:id/calculate]. Authentication
    and the UUID check of [:id] precede the validation and are left
    out. *)
Record calculation_body := CalculationBody {
  body_principal_amount : body_field;
  body_term_days : body_field
}.

(** The custom check of the amount: [value.toString()] throws on
    [undefined] and [null]; otherwise at most two characters may follow
    the first point of the text. *)
Definition principal_custom (value : body_field) : bool :=
  match value with
  | Absent | JsonNull => false
  | _ => (String.length (after_first_point (String_of value)) <=? 2)%nat
  end.

(** [isFloat({ min: 1.00, max: 999999999.99 })] followed by the custom
    check. *)
Definition valid_principal_amount (field : body_field) : bool :=
  isFloat (validator_text field) (of_Z 1) (to_number (Decimal 99999999999 2))
  && principal_custom field.

(** [optional({ checkFalsy: true }).isInt({ min: 1, max: 3650 })] *)
Definition valid_term_days (field : body_field) : bool :=
  if falsy field then true else isInt (validator_text field) 1 3650.

Definition validateLoanCalculation (body : calculation_body) : bool :=
  valid_principal_amount (body_principal_amount body)
  && valid_term_days (body_term_days body).

(** The responses of the route. *)
Inductive response :=
| Success (calculation : loan_details)
| ValidationFailed
| NotFound
| BadRequest
| InternalError.

(** [parseFloat(principal_amount)] in the controller. *)
Definition controller_principal (field : body_field) : number :=
  parseFloat_text (String_of field).

(** [term_days ? parseInt(term_days) : null] *)
Definition controller_term (field : body_field) : term_argument :=
  if falsy field then TermNull
  else TermNumber (parseInt_text (String_of field)).

(** The controller's [calculateLoanDetails]: the service call and the
    mapping of its errors onto responses. *)
Definition controller_calculateLoanDetails (db : gmap string product)
    (id : string) (body : calculation_body) : response :=
  match calculateLoanDetails db id
          (controller_principal (body_principal_amount body))
          (controller_term (body_term_days body)) with
  | Returns r => Success r
  | Throws ProductNotFound => NotFound
  | Throws ProductNotActive => BadRequest
  | Throws (AmountExceedsMaximum _) => BadRequest
  end.

(** The route: the validation middleware, then the controller. *)
Definition calculate_route (db : gmap string product) (id : string)
    (body : calculation_body) : response :=
  if validateLoanCalculation body
  then controller_calculateLoanDetails db id body
  else ValidationFailed.

(** The products the schema script inserts; [interest_type] and
    [is_active] take their column defaults. *)
Definition student_quick_loan : product :=
  {| name := "Student Quick Loan";
     interest_type := Some "flat_monthly";
     interest_rate := Decimal 3000 4;
     max_amount := Decimal 50000 2;
     default_term_days := 30;
     grace_days := Some 3;
     penalty_type := Some "fixed";
     penalty_value := Decimal 5000 2;
     is_active := Some true |}.

Definition employee_standard : product :=
  {| name := "Employee Standard";
     interest_type := Some "flat_monthly";
     interest_rate := Decimal 2500 4;
     max_amount := Decimal 200000 2;
     default_term_days := 60;
     grace_days := Some 3;
     penalty_type := Some "percentage";
     penalty_value := Decimal 5 2;
     is_active := Some true |}.

Definition trader_business_loan : product :=
  {| name := "Trader Business Loan";
     interest_type := Some "flat_monthly";
     interest_rate := Decimal 3500 4;
     max_amount := Decimal 500000 2;
     default_term_days := 90;
     grace_days := Some 5;
     penalty_type := Some "fixed";
     penalty_value := Decimal 10000 2;
     is_active := Some true |}.

Definition seeded_products : gmap string product :=
  <["student" := student_quick_loan]>
    (<["employee" := employee_standard]>
       (<["trader" := trader_business_loan]> ∅)).

(** A row whose [interest_type] is NULL, which the CHECK constraint of the
    column admits, and a reducing-balance variant of a seeded product. *)
Definition untyped_product : product :=
  {| name := "Untyped";
     interest_type := None;
     interest_rate := Decimal 3000 4;
     max_amount := Decimal 50000 2;
     default_term_days := 30;
     grace_days := Some 3;
     penalty_type := Some "fixed";
     penalty_value := Decimal 5000 2;
     is_active := Some true |}.

Definition reducing_product : product :=
  {| name := "Salary Advance";
     interest_type := Some "reducing_balance";
     interest_rate := Decimal 2500 4;
     max_amount := Decimal 200000 2;
     default_term_days := 60;
     grace_days := Some 3;
     penalty_type := Some "percentage";
     penalty_value := Decimal 5 2;
     is_active := Some true |}.

Definition other_products : gmap string product :=
  <["untyped" := untyped_product]> (<["reducing" := reducing_product]> ∅).

(** Rounding an exact rational amount to cents, half a cent going away
    from zero: the rounding the specification asks of result amounts. *)
Definition spec_round_half_up_cents (q : Q) : Z :=
  if Qle_bool 0 q
  then Qfloor (q * 100 + (1 # 2))
  else - Qfloor (- q * 100 + (1 # 2)).

(** [n] is the amount of cents nearest to the magnitude of [v], the
    larger one when [v] lies half-way between two. *)
Definition is_half_up_cents (v : Q) (n : Z) : Prop :=
  (inject_Z n - (1 # 2) <= 100 * Qabs v
   /\ 100 * Qabs v < inject_Z n + (1 # 2))%Q.

(** [parseFloat(x.toFixed(2))] *)
Definition round2 (x : number) : number := parseFloat (toFixed2 x).

(** [y] is what [parseFloat] reads from a text with two decimals. *)
Definition two_decimals (y : number) : Prop :=
  exists s n, 0 <= n /\ y = parseFloat (TextCents s n).

(** ** Repayment allocation *)

(** Amounts of the ledger tables are fixed-point decimals with two
    fraction digits (DECIMAL(12,2), DECIMAL(15,2)): integers of cents. *)
Abbreviation cents := Z (only parsing).

Record outstanding := Outstanding {
  outstanding_penalty : cents;
  outstanding_interest : cents;
  outstanding_principal : cents
}.

(** The split of a payment; the first three fields are the columns
    [allocation_penalty], [allocation_interest] and [allocation_principal]
    of [repayments]. *)
Record allocation := Allocation {
  allocation_penalty : cents;
  allocation_interest : cents;
  allocation_principal : cents;
  overpayment : cents
}.

Inductive allocator_error := ValidationError.

(** What a bucket absorbs: the smaller of the remaining payment and the
    bucket's outstanding amount, a negative outstanding counting as zero. *)
Definition absorb (remaining owed : cents) : cents :=
  Z.min remaining (Z.max owed 0).

(** Modelled from the spec: the repayment allocator [allocate] of section
    4.2 is absent from the repository (only the [repayments] table with its
    allocation columns is declared). Penalty first, then interest, then
    principal; the excess is the overpayment; a payment that is not
    strictly positive is rejected. *)
Definition allocate (o : outstanding) (amountPaid : cents)
  : outcome allocation allocator_error :=
  if amountPaid <=? 0 then Throws ValidationError
  else
    let allocPenalty := absorb amountPaid (outstanding_penalty o) in
    let afterPenalty := amountPaid - allocPenalty in
    let allocInterest := absorb afterPenalty (outstanding_interest o) in
    let afterInterest := afterPenalty - allocInterest in
    let allocPrincipal := absorb afterInterest (outstanding_principal o) in
    Returns {|
      allocation_penalty := allocPenalty;
      allocation_interest := allocInterest;
      allocation_principal := allocPrincipal;
      overpayment := afterInterest - allocPrincipal
    |}.

(** ** The vault ledger *)

Inductive entry_type := debit | credit.

#[global] Instance entry_type_eq_dec : EqDecision entry_type.
Proof. solve_decision. Defined.

Inductive account_type :=
| cash | bank | mobile_money | operating_expense | loan_fund.

(** The transaction type ['operating_expense'] shares its name with an
    account type; it is [operating_expense_payment] here. *)
Inductive transaction_type :=
| loan_disbursement | loan_repayment | penalty_collection
| operating_expense_payment | capital_injection | bank_deposit
| bank_withdrawal | momo_transfer | cash_deposit | cash_withdrawal.

Inductive transaction_status := pending | completed | failed | cancelled.

(** Rows of [vault_accounts], [vault_transactions] and
    [vault_transaction_entries], with the columns the ledger reads and
    writes ([account_type], [transaction_type] and [entry_type] are the
    fields [account_kind], [transaction_kind] and [entry_kind]). A string
    stands for the id of an account, the position of a transaction for its
    id. *)
Record vault_account := VaultAccount {
  account_kind : account_type;
  current_balance : cents
}.

Record vault_transaction := VaultTransaction {
  transaction_code : nat;
  transaction_kind : transaction_type;
  total_amount : cents;
  status : transaction_status
}.

Record vault_transaction_entry := VaultTransactionEntry {
  transaction_id : nat;
  vault_account_id : string;
  entry_kind : entry_type;
  amount : cents;
  balance_after : cents
}.

(** The three tables; entries are kept in creation order, oldest first. *)
Record database := Database {
  vault_accounts : gmap string vault_account;
  vault_transactions : list vault_transaction;
  vault_transaction_entries : list vault_transaction_entry
}.

Definition empty_database : database := Database ∅ [] [].

Inductive ledger_error :=
| ConstraintViolation
| NotFoundError (account : string)
| ForeignKeyViolation
| UniqueViolation.

(** Statements run against the database: the outcome and the database
    they leave behind. *)
Definition statement (A : Type) : Type :=
  database -> outcome A ledger_error * database.

Definition ret {A} (a : A) : statement A := fun db => (Returns a, db).

Definition raise {A} (e : ledger_error) : statement A :=
  fun db => (Throws e, db).

Definition bind {A B} (m : statement A) (k : A -> statement B)
  : statement B :=
  fun db =>
    match m db with
    | (Returns a, db') => k a db'
    | (Throws e, db') => (Throws e, db')
    end.

Notation "'do' x <- m ; k" := (bind m (fun x => k))
  (at level 10, x name, m at level 100, k at level 200).

(** A unit of work: on an error the database is left as it was found. *)
Definition atomically {A} (m : statement A) : statement A :=
  fun db =>
    match m db with
    | (Returns a, db') => (Returns a, db')
    | (Throws e, _) => (Throws e, db)
    end.

(** The trigger function [update_vault_balance()]:
    [UPDATE vault_accounts SET current_balance = NEW.balance_after
     WHERE id = NEW.vault_account_id]. *)
Definition update_vault_balance (NEW : vault_transaction_entry)
    (db : database) : database :=
  {| vault_accounts :=
       alter (fun a => {| account_kind := account_kind a;
                          current_balance := balance_after NEW |})
             (vault_account_id NEW) (vault_accounts db);
     vault_transactions := vault_transactions db;
     vault_transaction_entries := vault_transaction_entries db |}.

(** [INSERT INTO vault_transaction_entries]: both references must exist;
    the row is appended and [update_vault_balance_trigger] fires
    AFTER INSERT, FOR EACH ROW. *)
Definition insert_entry (row : vault_transaction_entry) : statement unit :=
  fun db =>
    match vault_accounts db !! vault_account_id row,
          vault_transactions db !! transaction_id row with
    | Some _, Some _ =>
        (Returns tt,
         update_vault_balance row
           {| vault_accounts := vault_accounts db;
              vault_transactions := vault_transactions db;
              vault_transaction_entries :=
                vault_transaction_entries db ++ [row] |})
    | _, _ => (Throws ForeignKeyViolation, db)
    end.

(** [INSERT INTO vault_accounts (account_name, account_type, description)]:
    [current_balance] takes its DEFAULT 0; an account that exists already
    is a unique violation. *)
Definition insert_account (id : string) (kind : account_type)
  : statement unit :=
  fun db =>
    match vault_accounts db !! id with
    | Some _ => (Throws UniqueViolation, db)
    | None =>
        (Returns tt,
         {| vault_accounts :=
              <[id := VaultAccount kind 0]> (vault_accounts db);
            vault_transactions := vault_transactions db;
            vault_transaction_entries := vault_transaction_entries db |})
    end.

(** [INSERT INTO vault_transactions], the code drawn from the sequence of
    transactions; returns the id of the new row. *)
Definition insert_transaction (kind : transaction_type) (total : cents)
  : statement nat :=
  fun db =>
    let id := length (vault_transactions db) in
    (Returns id,
     {| vault_accounts := vault_accounts db;
        vault_transactions :=
          vault_transactions db ++ [VaultTransaction (S id) kind total completed];
        vault_transaction_entries := vault_transaction_entries db |}).

(** An entry of a posting request: [{account, type, amount}]. *)
Record posting := Posting {
  posting_account : string;
  posting_type : entry_type;
  posting_amount : cents
}.

(** The sum of the amounts of the postings of one type. *)
Definition posting_total (t : entry_type) (entries : list posting) : cents :=
  fold_right Z.add 0
    (map posting_amount
       (filter (fun p => posting_type p = t) entries)).

(** Debit is money leaving the named account, credit money entering it. *)
Definition signed (t : entry_type) (a : cents) : cents :=
  match t with
  | debit => - a
  | credit => a
  end.

(** The precondition of a posting: not empty, strictly positive amounts,
    debits equal to credits. *)
Definition balanced_postings (entries : list posting) : bool :=
  negb (Nat.eqb (length entries) 0)
  && forallb (fun p => 0 <? posting_amount p) entries
  && (posting_total debit entries =? posting_total credit entries).

(** Modelled from the spec: the row [VaultLedger.post] (section 4.3, code
    absent from the repository) creates for one entry. [balance_after] is
    the account's prior balance adjusted by the entry. *)
Definition posted_row (tx : nat) (p : posting) (prior : cents)
  : vault_transaction_entry :=
  {| transaction_id := tx;
     vault_account_id := posting_account p;
     entry_kind := posting_type p;
     amount := posting_amount p;
     balance_after := prior + signed (posting_type p) (posting_amount p) |}.

(** Modelled from the spec: one entry of [VaultLedger.post]; an unknown
    account is a NotFoundError. *)
Definition post_entry (tx : nat) (p : posting) : statement unit :=
  fun db =>
    match vault_accounts db !! posting_account p with
    | None => (Throws (NotFoundError (posting_account p)), db)
    | Some a => insert_entry (posted_row tx p (current_balance a)) db
    end.

Fixpoint post_entries (tx : nat) (entries : list posting) : statement unit :=
  match entries with
  | [] => ret tt
  | p :: rest => do _done <- post_entry tx p; post_entries tx rest
  end.

(** Modelled from the spec: [VaultLedger.post] of section 4.3, absent from
    the repository, over the tables and the trigger of the schema. An
    unbalanced request is a ConstraintViolation before any mutation; the
    whole posting is one unit of work. *)
Definition post (kind : transaction_type) (entries : list posting)
  : statement nat :=
  atomically
    (if balanced_postings entries then
       do tx <- insert_transaction kind (posting_total debit entries);
       do _done <- post_entries tx entries;
       ret tx
     else raise ConstraintViolation).

(** [getBalance(account)] *)
Definition getBalance (db : database) (account : string) : option cents :=
  current_balance <$> vault_accounts db !! account.

(** The operations that reach the ledger. *)
Inductive command :=
| OpenAccount (id : string) (kind : account_type)
| Post (kind : transaction_type) (entries : list posting).

Definition run (c : command) (db : database) : database :=
  match c with
  | OpenAccount id kind => snd (insert_account id kind db)
  | Post kind entries => snd (post kind entries db)
  end.

Definition run_all (cs : list command) (db : database) : database :=
  fold_left (fun db c => run c db) cs db.

(** The sum of the amounts of the entries of one type of a transaction. *)
Definition entries_total (t : entry_type) (tx : nat)
    (entries : list vault_transaction_entry) : cents :=
  fold_right Z.add 0
    (map amount
       (filter (fun e => transaction_id e = tx /\ entry_kind e = t)
               entries)).

(** Replaying the entries of an account in creation order from a zero
    balance, summing their signed amounts. *)
Definition replay (account : string)
    (entries : list vault_transaction_entry) : cents :=
  fold_left
    (fun balance e =>
       if bool_decide (vault_account_id e = account)
       then balance + signed (entry_kind e) (amount e)
       else balance)
    entries 0.

(** The disbursement scenario of the specification: two accounts are
    opened, then 1000.00 leaves the loan fund and enters the cash account. *)
Definition disbursement_scenario : list command :=
  [ OpenAccount "Loan Fund" loan_fund;
    OpenAccount "Main Cash Vault" cash;
    Post loan_disbursement
      [ Posting "Loan Fund" debit 100000;
        Posting "Main Cash Vault" credit 100000 ] ].

(** The entries of transaction [tx] balance. *)
Definition balanced_transaction (db : database) (tx : nat) : Prop :=
  entries_total debit tx (vault_transaction_entries db)
  = entries_total credit tx (vault_transaction_entries db).

(** The balance of an account is the replay of its entries. *)
Definition balance_replayed (db : database) : Prop :=
  forall account a,
    vault_accounts db !! account = Some a ->
    current_balance a = replay account (vault_transaction_entries db).

(** What every reachable ledger satisfies: the references of the entries
    exist, every transaction balances, every balance is the replay of the
    account's entries. *)
Record ledger_invariant (db : database) : Prop := LedgerInvariant {
  entries_reference_transactions :
    Forall (fun e => (transaction_id e < length (vault_transactions db))%nat)
           (vault_transaction_entries db);
  entries_reference_accounts :
    Forall (fun e => is_Some (vault_accounts db !! vault_account_id e))
           (vault_transaction_entries db);
  transactions_balanced : forall tx, balanced_transaction db tx;
  balances_replayed : balance_replayed db
}.

(** How the statements of a posting for transaction [tx] take the
    database from [db] to [db'], creating [rows]. *)
Record posted (tx : nat) (db db' : database)
    (rows : list vault_transaction_entry) : Prop := Posted {
  posted_transactions : vault_transactions db' = vault_transactions db;
  posted_entries :
    vault_transaction_entries db' = vault_transaction_entries db ++ rows;
  posted_references :
    Forall (fun r => transaction_id r = tx
                     /\ is_Some (vault_accounts db !! vault_account_id r))
           rows;
  posted_accounts :
    forall account,
      is_Some (vault_accounts db' !! account)
      <-> is_Some (vault_accounts db !! account);
  posted_frame :
    forall account,
      Forall (fun r => vault_account_id r <> account) rows ->
      vault_accounts db' !! account = vault_accounts db !! account;
  posted_balances : balance_replayed db -> balance_replayed db'
}.

(** ** JavaScript values and the UPDATE statements of the services
    ([LoanProductsService.updateProduct], [BorrowersService.updateBorrower]
    and [updateKycStatus]) *)

(** The values a property of a request body or of an [updateData] object
    holds: [undefined], [null] and the JSON scalars. *)
Inductive js_value :=
| Undefined
| Null
| Boolean (b : bool)
| Number (x : number)
| Text (s : string).

(** Truthiness: [undefined], [null], [false], [0], [-0], [NaN] and the
    empty string are falsy. *)
Definition js_truthy (v : js_value) : bool :=
  match v with
  | Undefined | Null => false
  | Boolean b => b
  | Number x => truthy x
  | Text s => negb (String.eqb s "")
  end.

(** [a || b] *)
Definition js_or (a b : js_value) : js_value :=
  if js_truthy a then a else b.

(** [value?.trim() || null], [trim] standing for
    [String.prototype.trim]; a value that is neither nullish nor a string
    has no [trim] and the call throws a TypeError ([None]). *)
Definition optional_trim (trim : string -> string) (value : js_value)
  : option js_value :=
  match value with
  | Undefined | Null => Some Null
  | Text s => Some (js_or (Text (trim s)) Null)
  | _ => None
  end.

(** [value !== undefined] *)
Definition defined (v : js_value) : bool :=
  match v with
  | Undefined => false
  | _ => true
  end.

(** The line feed of a template literal that spans lines. *)
Definition LF : string := String (Ascii.ascii_of_nat 10) "".

(** The arguments of [this.db.query(query, values)]. *)
Record query_call := QueryCall {
  query : string;
  query_values : list js_value
}.

Inductive update_error := NoValidFieldsToUpdate.

(** The variables of the loop that builds an UPDATE statement;
    [paramIndex] counts up from 1 and stays an exact integer. *)
Record update_builder := UpdateBuilder {
  updates : list string;
  values : list js_value;
  paramIndex : N
}.

(** [updates.push(assignment); values.push(value); paramIndex++] *)
Definition push_update (b : update_builder) (assignment : string)
    (value : js_value) : update_builder :=
  {| updates := updates b ++ [assignment];
     values := values b ++ [value];
     paramIndex := paramIndex b + 1 |}.

(** [value === text] for a string literal [text]. *)
Definition is_text (value : js_value) (text : string) : bool :=
  match value with
  | Text s => String.eqb s text
  | _ => false
  end.

(** The template literal [query] of [updateProduct], with its two
    interpolations [updates.join(', ')] and [paramIndex]. *)
Definition updateProduct_query (updates : list string) (paramIndex : N)
  : string :=
  LF +:+ "            UPDATE loan_products " +:+
  LF +:+ "            SET " +:+ String.concat ", " updates +:+
  LF +:+ "            WHERE id = $" +:+ pretty paramIndex +:+
  LF +:+ "            RETURNING id, name, description, interest_type, interest_rate, " +:+
  LF +:+ "                     max_amount, default_term_days, grace_days, penalty_type, " +:+
  LF +:+ "                     penalty_value, min_credit_score, is_active, created_at, " +:+
  LF +:+ "                     updated_at, created_by" +:+
  LF +:+ "        ".

(** The template literal [query] of [updateBorrower]. *)
Definition updateBorrower_query (updates : list string) (paramIndex : N)
  : string :=
  LF +:+ "            UPDATE borrowers " +:+
  LF +:+ "            SET " +:+ String.concat ", " updates +:+
  LF +:+ "            WHERE id = " +:+ pretty paramIndex +:+
  LF +:+ "            RETURNING " +:+
  LF +:+ "                id, borrower_code, full_name, phone_primary, phone_whatsapp, email," +:+
  LF +:+ "                id_number, date_of_birth, address, category_id, employer_or_school," +:+
  LF +:+ "                referrer, status, credit_score, risk_tier, kyc_status, notes," +:+
  LF +:+ "                created_at, updated_at" +:+
  LF +:+ "        ".

(** [allowedFields] of [updateProduct] and of [updateBorrower]. *)
Definition product_fields : list string :=
  ["name"; "description"; "interest_type"; "interest_rate";
   "max_amount"; "default_term_days"; "grace_days"; "penalty_type";
   "penalty_value"; "min_credit_score"; "is_active"].

Definition borrower_fields : list string :=
  ["full_name"; "phone_primary"; "phone_whatsapp"; "email"; "id_number";
   "date_of_birth"; "address"; "category_id"; "employer_or_school";
   "referrer"; "status"; "credit_score"; "risk_tier"; "kyc_status";
   "notes"].

(** [LoanProductsService.updateProduct] up to its call of
    [this.db.query]. [updateData] is given by [Object.entries(updateData)]:
    the own properties in their order, every key once. *)
Definition updateProduct (productId : string)
    (updateData : list (string * js_value))
  : outcome query_call update_error :=
  let allowedFields := product_fields in
  let built :=
    fold_left
      (fun b '(field, value) =>
         if bool_decide (field ∈ allowedFields) && defined value
         then push_update b (field +:+ " = $" +:+ pretty (paramIndex b))
                value
         else b)
      updateData (UpdateBuilder [] [] 1) in
  if Nat.eqb (length (updates built)) 0 then Throws NoValidFieldsToUpdate
  else
    Returns {|
      query := updateProduct_query (updates built) (paramIndex built);
      query_values := values built ++ [Text productId]
    |}.

(** [BorrowersService.updateBorrower] up to its call of [this.db.query]. *)
Definition updateBorrower (borrowerId : string)
    (updateData : list (string * js_value))
  : outcome query_call update_error :=
  let allowedFields := borrower_fields in
  let built :=
    fold_left
      (fun b '(field, value) =>
         if bool_decide (field ∈ allowedFields) && defined value
         then push_update b (field +:+ " = " +:+ pretty (paramIndex b))
                value
         else b)
      updateData (UpdateBuilder [] [] 1) in
  if Nat.eqb (length (updates built)) 0 then Throws NoValidFieldsToUpdate
  else
    Returns {|
      query := updateBorrower_query (updates built) (paramIndex built);
      query_values := values built ++ [Text borrowerId]
    |}.

(** [BorrowersService.updateKycStatus]; [now] is the text of
    [new Date().toISOString()], and the parameter default has replaced an
    [undefined] [notes] by [null]. *)
Definition updateKycStatus (now : string) (borrowerId : string)
    (kycStatus approvedBy notes : js_value)
  : outcome query_call update_error :=
  let notes := match notes with Undefined => Null | _ => notes end in
  let updateData := [("kyc_status", kycStatus)] in
  let updateData :=
    if is_text kycStatus "approved"
    then updateData ++ [("kyc_approved_at", Text now);
                        ("kyc_approved_by", approvedBy)]
    else updateData in
  let updateData :=
    if js_truthy notes then updateData ++ [("notes", notes)]
    else updateData in
  updateBorrower borrowerId updateData.

(** The entries of [updateData] that the loop of an update keeps: those
    of an allowed field with a value other than [undefined]. *)
Definition kept_entries (allowedFields : list string)
    (updateData : list (string * js_value)) : list (string * js_value) :=
  List.filter
    (fun entry => bool_decide (entry.1 ∈ allowedFields) && defined entry.2)
    updateData.

(** ** Authentication and authorization
    ([auth_middleware.js], [authorization_middleware.js] and
    [SessionService.validateSessionAndGetUser]) *)

Module Auth.

(** The values of [users.role] that the CHECK constraint of the column
    admits; the column is nullable, a NULL role is [None]. *)
Inductive role :=
| customer | collection_officer | loan_officer | auditor | admin | superuser.

#[global] Instance role_eq_dec : EqDecision role.
Proof. solve_decision. Defined.

(** [ROLE_HIERARCHY] *)
Definition ROLE_HIERARCHY (r : role) : Z :=
  match r with
  | customer => 1
  | collection_officer => 2
  | loan_officer => 3
  | auditor => 4
  | admin => 5
  | superuser => 6
  end.

(** [ROLE_HIERARCHY[role] || 0] *)
Definition role_level (r : option role) : Z :=
  match r with
  | Some r => ROLE_HIERARCHY r
  | None => 0
  end.

(** [roles.includes(role)] *)
Definition includes (roles : list role) (r : option role) : bool :=
  match r with
  | Some r => bool_decide (r ∈ roles)
  | None => false
  end.

(** Rows of [users] and [sessions] with the columns the session query
    reads; users are keyed by [id], sessions by the UNIQUE
    [session_token]. Nullable BOOLEAN columns may be [None], timestamps
    are points on a time line. *)
Record user := User {
  user_username : string;
  user_email : string;
  user_role : option role;
  user_is_active : option bool;
  user_is_email_verified : option bool
}.

Record session := Session {
  session_id : string;
  session_user_id : string;
  session_expires_at : Z;
  session_is_active : option bool
}.

(** The row [validateSessionAndGetUser] selects. *)
Record session_data := SessionData {
  data_session_id : string;
  data_user_id : string;
  data_username : string;
  data_email : string;
  data_role : option role;
  data_user_active : option bool;
  data_is_email_verified : option bool
}.

(** [column = true] in a WHERE clause: NULL does not qualify. *)
Definition is_true (column : option bool) : bool :=
  match column with
  | Some true => true
  | _ => false
  end.

(** [SELECT ... FROM sessions s JOIN users u ON s.user_id = u.id
     WHERE s.session_token = $1 AND s.is_active = true
       AND s.expires_at > CURRENT_TIMESTAMP AND u.is_active = true],
    then [result.rows[0] || null]. *)
Definition validateSessionAndGetUser (users : gmap string user)
    (sessions : gmap string session) (CURRENT_TIMESTAMP : Z)
    (sessionToken : string) : option session_data :=
  match sessions !! sessionToken with
  | None => None
  | Some s =>
      match users !! session_user_id s with
      | None => None
      | Some u =>
          if is_true (session_is_active s)
             && (CURRENT_TIMESTAMP <? session_expires_at s)
             && is_true (user_is_active u)
          then Some {| data_session_id := session_id s;
                       data_user_id := session_user_id s;
                       data_username := user_username u;
                       data_email := user_email u;
                       data_role := user_role u;
                       data_user_active := user_is_active u;
                       data_is_email_verified := user_is_email_verified u |}
          else None
      end
  end.

(** The object [req.user]. [permissions] is the property
    [authorizePermissions] reads: when present, the keys whose value is
    [true]. *)
Record request_user := RequestUser {
  userId : string;
  username : string;
  email : string;
  role_of : option role;
  isEmailVerified : option bool;
  sessionId : string;
  permissions : option (gset string)
}.

(** What [jwt.verify] does with a token: it returns, or throws an error
    with the given [name]. *)
Inductive jwt_verification :=
| Verified
| TokenExpiredError
| JsonWebTokenError
| OtherError.

(** What a middleware does: it calls [next()] or answers 401, 403 or
    500. *)
Inductive verdict := Next | Unauthorized | Forbidden | ServerError.

(** [authenticateToken]: the value of [req.user] afterwards and the
    verdict. [verify] stands for [jwt.verify] with the server's secret. *)
Definition authenticateToken (verify : string -> jwt_verification)
    (users : gmap string user) (sessions : gmap string session)
    (CURRENT_TIMESTAMP : Z) (authorization : option string)
  : option request_user * verdict :=
  match authorization with
  | None => (None, Unauthorized)
  | Some authHeader =>
      if negb (String.prefix "Bearer " authHeader) then (None, Unauthorized)
      else
        let token :=
          String.substring 7 (String.length authHeader - 7) authHeader in
        match verify token with
        | TokenExpiredError => (None, Unauthorized)
        | JsonWebTokenError => (None, Unauthorized)
        | OtherError => (None, ServerError)
        | Verified =>
            match validateSessionAndGetUser users sessions
                    CURRENT_TIMESTAMP token with
            | None => (None, Unauthorized)
            | Some sessionData =>
                if negb (is_true (data_user_active sessionData))
                then (None, Forbidden)
                else
                  (Some {| userId := data_user_id sessionData;
                           username := data_username sessionData;
                           email := data_email sessionData;
                           role_of := data_role sessionData;
                           isEmailVerified :=
                             data_is_email_verified sessionData;
                           sessionId := data_session_id sessionData;
                           permissions := None |},
                   Next)
            end
        end
  end.

(** [authorizeRoles(allowedRoles)] *)
Definition authorizeRoles (allowedRoles : list role)
    (user : option request_user) : verdict :=
  match user with
  | None => Unauthorized
  | Some u =>
      let userRole := role_of u in
      if includes allowedRoles userRole then Next
      else
        let userRoleLevel := role_level userRole in
        let hasHierarchyAccess :=
          existsb (fun allowedRole =>
                     let allowedRoleLevel := ROLE_HIERARCHY allowedRole in
                     allowedRoleLevel <=? userRoleLevel)
                  allowedRoles in
        if hasHierarchyAccess then Next else Forbidden
  end.

Definition authorizeSuperuser (user : option request_user) : verdict :=
  match user with
  | None => Unauthorized
  | Some u =>
      if negb (bool_decide (role_of u = Some superuser)) then Forbidden
      else Next
  end.

Definition authorizeAdminOrSuperuser (user : option request_user)
  : verdict :=
  match user with
  | None => Unauthorized
  | Some u =>
      let allowedRoles := [admin; superuser] in
      if negb (includes allowedRoles (role_of u)) then Forbidden else Next
  end.

Definition authorizeLoanOfficerOrAbove (user : option request_user)
  : verdict :=
  match user with
  | None => Unauthorized
  | Some u =>
      let userRoleLevel := role_level (role_of u) in
      let minRequiredLevel := ROLE_HIERARCHY loan_officer in
      if userRoleLevel <? minRequiredLevel then Forbidden else Next
  end.

(** [authorizeOwnResourceOrElevated(userIdParam)], applied to the route
    parameter [req.params[userIdParam]]. *)
Definition authorizeOwnResourceOrElevated (targetUserId : option string)
    (user : option request_user) : verdict :=
  match user with
  | None => Unauthorized
  | Some u =>
      let currentUserId := userId u in
      if bool_decide (targetUserId = Some currentUserId) then Next
      else
        let elevatedRoles := [loan_officer; admin; superuser] in
        if includes elevatedRoles (role_of u) then Next else Forbidden
  end.

(** [authorizePermissions(requiredPermissions)] *)
Definition authorizePermissions (requiredPermissions : list string)
    (user : option request_user) : verdict :=
  match user with
  | None => Unauthorized
  | Some u =>
      if Nat.eqb (length requiredPermissions) 0 then Next
      else if bool_decide (role_of u = Some superuser) then Next
      else
        let userPermissions := default ∅ (permissions u) in
        let hasRequiredPermissions :=
          forallb (fun permission =>
                     bool_decide (permission ∈ userPermissions))
                  requiredPermissions in
        if negb hasRequiredPermissions then Forbidden else Next
  end.

(** [authorizeBorrowerAccess(borrowerIdParam)] *)
Definition authorizeBorrowerAccess (user : option request_user) : verdict :=
  match user with
  | None => Unauthorized
  | Some u =>
      let staffRoles :=
        [loan_officer; collection_officer; auditor; admin; superuser] in
      if includes staffRoles (role_of u) then Next
      else if bool_decide (role_of u = Some customer) then Forbidden
      else Forbidden
  end.

Definition authorizeBorrowerUpdate (user : option request_user) : verdict :=
  match user with
  | None => Unauthorized
  | Some u =>
      let userRoleLevel := role_level (role_of u) in
      let minRequiredLevel := ROLE_HIERARCHY loan_officer in
      if userRoleLevel <? minRequiredLevel then Forbidden else Next
  end.

Definition authorizeKycStatusUpdate (user : option request_user)
  : verdict :=
  match user with
  | None => Unauthorized
  | Some u =>
      let userRoleLevel := role_level (role_of u) in
      let minRequiredLevel := ROLE_HIERARCHY loan_officer in
      if userRoleLevel <? minRequiredLevel then Forbidden else Next
  end.

Definition authorizeBorrowerBlacklist (user : option request_user)
  : verdict :=
  match user with
  | None => Unauthorized
  | Some u =>
      let authorizedRoles := [admin; superuser] in
      if negb (includes authorizedRoles (role_of u)) then Forbidden
      else Next
  end.

Definition authorizeBorrowerDeletion (user : option request_user)
  : verdict :=
  match user with
  | None => Unauthorized
  | Some u =>
      let authorizedRoles := [admin; superuser] in
      if negb (includes authorizedRoles (role_of u)) then Forbidden
      else Next
  end.

Definition authorizeBorrowerCreation (user : option request_user)
  : verdict :=
  match user with
  | None => Unauthorized
  | Some u =>
      let userRoleLevel := role_level (role_of u) in
      let minRequiredLevel := ROLE_HIERARCHY loan_officer in
      if userRoleLevel <? minRequiredLevel then Forbidden else Next
  end.

(** [SessionService.deactivateSessionByToken]:
    [UPDATE sessions SET is_active = false WHERE session_token = $1],
    then [result.rowCount > 0]. *)
Definition deactivateSessionByToken (sessionToken : string)
    (sessions : gmap string session) : bool * gmap string session :=
  (bool_decide (is_Some (sessions !! sessionToken)),
   alter (fun s => {| session_id := session_id s;
                      session_user_id := session_user_id s;
                      session_expires_at := session_expires_at s;
                      session_is_active := Some false |})
         sessionToken sessions).

(** [UserService.deactivateUser]:
    [UPDATE users SET is_active = false WHERE id = $1], then
    [result.rowCount > 0]. *)
Definition deactivateUser (userId : string) (users : gmap string user)
  : bool * gmap string user :=
  (bool_decide (is_Some (users !! userId)),
   alter (fun u => {| user_username := user_username u;
                      user_email := user_email u;
                      user_role := user_role u;
                      user_is_active := Some false;
                      user_is_email_verified := user_is_email_verified u |})
         userId users).

(** The answers of [AuthController.logoutUser]. *)
Inductive logout_response := LogoutSuccessful | NoTokenProvided.

(** [AuthController.logoutUser] *)
Definition logoutUser (authorization : option string)
    (sessions : gmap string session)
  : logout_response * gmap string session :=
  match authorization with
  | None => (NoTokenProvided, sessions)
  | Some authHeader =>
      if negb (String.prefix "Bearer " authHeader)
      then (NoTokenProvided, sessions)
      else
        let token :=
          String.substring 7 (String.length authHeader - 7) authHeader in
        (LogoutSuccessful, snd (deactivateSessionByToken token sessions))
  end.

(** Two middlewares in a row, as a route lists them: the second runs when
    the first has called [next()], on the [req.user] it has left. *)
Definition authenticated_then
    (authentication : option request_user * verdict)
    (authorization : option request_user -> verdict) : verdict :=
  match authentication with
  | (user, Next) => authorization user
  | (_, refusal) => refusal
  end.

(** A member of staff with the given id and role, for the examples. *)
Definition staff_member (id : string) (r : option role) : request_user :=
  {| userId := id;
     username := id;
     email := id +:+ "@example.org";
     role_of := r;
     isEmailVerified := Some true;
     sessionId := "session of " +:+ id;
     permissions := None |}.

(** An administrator with a session that expires at time 1000, for the
    examples; every token verifies. *)
Definition sample_users : gmap string user :=
  {["u-1" := User "amina" "amina@example.org" (Some admin) (Some true)
               (Some true)]}.

Definition sample_sessions : gmap string session :=
  {["token-1" := Session "s-1" "u-1" 1000 (Some true)]}.

(** The same with a loan officer beside the administrator, each with a
    running session. *)
Definition staffed_users : gmap string user :=
  <["u-2" := User "brian" "brian@example.org" (Some loan_officer)
               (Some true) (Some true)]> sample_users.

Definition staffed_sessions : gmap string session :=
  <["token-2" := Session "s-2" "u-2" 1000 (Some true)]> sample_sessions.

End Auth.

(** ** Borrowers: creation, codes and deletion
    ([BorrowersService] and [BorrowersController]) *)

Module Borrowers.

(** The object [borrowerData] that the controller builds: the code and the
    trimmed texts are strings, the other properties hold what the request
    gave or [null]. *)
Record borrower_data := BorrowerData {
  borrower_code : string;
  full_name : string;
  phone_primary : string;
  phone_whatsapp : js_value;
  email : js_value;
  id_number : string;
  date_of_birth : js_value;
  address : string;
  category_id : js_value;
  employer_or_school : js_value;
  referrer : js_value;
  status : js_value;
  credit_score : js_value;
  risk_tier : js_value;
  kyc_status : js_value;
  notes : js_value
}.

(** A row of [borrowers]: the generated [id], the columns as the
    parameters of the INSERT give them, and [created_by]. A row holds the
    JavaScript values that were sent: what PostgreSQL makes of a parameter
    in a typed column (the text [0] sent for the INTEGER column
    [credit_score] is read as the integer 0) is not part of it. *)
Record borrower := Borrower {
  id : string;
  columns : borrower_data;
  created_by : string
}.

(** The tables: [borrowers], the ids of [borrower_categories], and the ids
    of the borrowers that rows of other tables refer to without
    ON DELETE CASCADE. *)
Record tables := Tables {
  borrowers : list borrower;
  categories : gset string;
  referenced : gset string
}.

(** The errors of the service, by message. *)
Inductive service_error :=
| IdNumberAlreadyExists
| PhoneNumberAlreadyExists
| BorrowerAlreadyExists
| InvalidCategoryId
| FailedToCreateBorrower
| CannotDeleteBorrower.

(** [message.includes('already exists')] *)
Definition already_exists (e : service_error) : bool :=
  match e with
  | IdNumberAlreadyExists | PhoneNumberAlreadyExists
  | BorrowerAlreadyExists => true
  | _ => false
  end.

(** [text.padStart(3, '0')] *)
Definition padStart3 (text : string) : string :=
  String.concat "" (replicate (3 - String.length text) "0") +:+ text.

(** [generateBorrowerCode]: [COUNT( * )] of [borrowers], plus one, in the
    text [NZM-BOR-nnn]. *)
Definition generateBorrowerCode (db : tables) : string :=
  let count := (N.of_nat (length (borrowers db)) + 1)%N in
  "NZM-BOR-" +:+ padStart3 (pretty count).

(** [borrowerIdNumberExists(idNumber)] and [borrowerPhoneExists(phone)],
    without [excludeId]: [COUNT( * ) > 0]. *)
Definition borrowerIdNumberExists (db : tables) (idNumber : string) : bool :=
  (0 <? length (List.filter
                  (fun b => String.eqb (id_number (columns b)) idNumber)
                  (borrowers db)))%nat.

Definition borrowerPhoneExists (db : tables) (phone : string) : bool :=
  (0 <? length (List.filter
                  (fun b => String.eqb (phone_primary (columns b)) phone)
                  (borrowers db)))%nat.

(** [getBorrowerById]: [result.rows[0] || null]. *)
Definition getBorrowerById (db : tables) (borrowerId : string)
  : option borrower :=
  head (List.filter (fun b => String.eqb (id b) borrowerId) (borrowers db)).

(** The body of [POST /api/borrowers] after [validateCreateBorrower],
    whose [trim()] has turned the four mandatory texts into strings. *)
Record create_body := CreateBody {
  body_full_name : string;
  body_phone_primary : string;
  body_phone_whatsapp : js_value;
  body_email : js_value;
  body_id_number : string;
  body_date_of_birth : js_value;
  body_address : string;
  body_category_id : js_value;
  body_employer_or_school : js_value;
  body_referrer : js_value;
  body_credit_score : js_value;
  body_risk_tier : js_value;
  body_notes : js_value
}.

(** The responses of the borrower routes. *)
Inductive response :=
| Created (b : borrower)
| Deleted (b : borrower)
| Unauthorized
| NotFound
| Conflict
| BadRequest
| InternalError.

Section Service.

(** [String.prototype.trim]. *)
Variable trim : string -> string.

(** The constraints of [borrowers] other than its keys: NOT NULL, CHECK,
    and the types and lengths of the columns. *)
Variable admissible : borrower_data -> bool.

(** The parameters of the INSERT of [createBorrower]: the defaults of
    the service applied to [borrowerData] with [||], which replaces every
    falsy value and no truthy one. *)
Definition inserted (borrowerData : borrower_data) : borrower_data :=
  {| borrower_code := borrower_code borrowerData;
     full_name := full_name borrowerData;
     phone_primary := phone_primary borrowerData;
     phone_whatsapp := phone_whatsapp borrowerData;
     email := email borrowerData;
     id_number := id_number borrowerData;
     date_of_birth := date_of_birth borrowerData;
     address := address borrowerData;
     category_id := category_id borrowerData;
     employer_or_school := employer_or_school borrowerData;
     referrer := referrer borrowerData;
     status := js_or (status borrowerData) (Text "active");
     credit_score := js_or (credit_score borrowerData) (Number (of_Z 50));
     risk_tier := js_or (risk_tier borrowerData) (Text "standard");
     kyc_status := js_or (kyc_status borrowerData) (Text "incomplete");
     notes := notes borrowerData |}.

(** [BorrowersService.createBorrower]: the INSERT and the translation of
    its errors. [uuid] is the value [uuid_generate_v4()] gives the new
    row. PostgreSQL checks the row constraints first, then the unique
    indexes in the order of their creation (primary key, [borrower_code],
    [id_number]), then the foreign key. *)
Definition createBorrower (uuid : string) (borrowerData : borrower_data)
    (createdBy : string) (db : tables)
  : outcome borrower service_error * tables :=
  let row := inserted borrowerData in
  if negb (admissible row) then (Throws FailedToCreateBorrower, db)
  else if existsb (fun b => String.eqb (id b) uuid) (borrowers db)
  then (Throws BorrowerAlreadyExists, db)
  else if existsb (fun b => String.eqb (borrower_code (columns b))
                              (borrower_code row))
                  (borrowers db)
  then (Throws BorrowerAlreadyExists, db)
  else if existsb (fun b => String.eqb (id_number (columns b))
                              (id_number row))
                  (borrowers db)
  then (Throws IdNumberAlreadyExists, db)
  else if negb match category_id row with
               | Text c => bool_decide (c ∈ categories db)
               | _ => false
               end
  then (Throws InvalidCategoryId, db)
  else
    let created := Borrower uuid row createdBy in
    (Returns created,
     {| borrowers := borrowers db ++ [created];
        categories := categories db;
        referenced := referenced db |}).

(** [BorrowersService.hardDeleteBorrower]: [DELETE ... WHERE id = $1
    RETURNING ...], then [result.rows[0] || null]. *)
Definition hardDeleteBorrower (borrowerId : string) (db : tables)
  : outcome (option borrower) service_error * tables :=
  match getBorrowerById db borrowerId with
  | None => (Returns None, db)
  | Some b =>
      if bool_decide (borrowerId ∈ referenced db)
      then (Throws CannotDeleteBorrower, db)
      else
        (Returns (Some b),
         {| borrowers :=
              List.filter (fun b => negb (String.eqb (id b) borrowerId))
                          (borrowers db);
            categories := categories db;
            referenced := referenced db |})
  end.

(** [BorrowersController.createBorrower] *)
Definition controller_createBorrower (uuid : string)
    (user : option Auth.request_user) (body : create_body) (db : tables)
  : response * tables :=
  match user with
  | None => (Unauthorized, db)
  | Some u =>
      let createdBy := Auth.userId u in
      if String.eqb createdBy "" then (Unauthorized, db)
      else if borrowerIdNumberExists db (body_id_number body)
      then (Conflict, db)
      else if borrowerPhoneExists db (body_phone_primary body)
      then (Conflict, db)
      else
        let borrowerCode := generateBorrowerCode db in
        match optional_trim trim (body_phone_whatsapp body),
              optional_trim trim (body_email body),
              optional_trim trim (body_employer_or_school body),
              optional_trim trim (body_referrer body),
              optional_trim trim (body_notes body) with
        | Some whatsapp, Some mail, Some employer, Some referee,
          Some remarks =>
            let borrowerData :=
              {| borrower_code := borrowerCode;
                 full_name := trim (body_full_name body);
                 phone_primary := trim (body_phone_primary body);
                 phone_whatsapp := whatsapp;
                 email := mail;
                 id_number := trim (body_id_number body);
                 date_of_birth := body_date_of_birth body;
                 address := trim (body_address body);
                 category_id := body_category_id body;
                 employer_or_school := employer;
                 referrer := referee;
                 credit_score :=
                   if defined (body_credit_score body)
                   then body_credit_score body
                   else Number (of_Z 50);
                 risk_tier := js_or (body_risk_tier body) (Text "standard");
                 status := Text "active";
                 kyc_status := Text "incomplete";
                 notes := remarks |} in
            match createBorrower uuid borrowerData createdBy db with
            | (Returns newBorrower, db') => (Created newBorrower, db')
            | (Throws e, db') =>
                if already_exists e then (Conflict, db')
                else match e with
                     | InvalidCategoryId => (BadRequest, db')
                     | _ => (InternalError, db')
                     end
            end
        | _, _, _, _, _ => (InternalError, db)
        end
  end.

(** [BorrowersController.deleteBorrower] *)
Definition controller_deleteBorrower (borrowerId : string) (db : tables)
  : response * tables :=
  match getBorrowerById db borrowerId with
  | None => (NotFound, db)
  | Some _ =>
      match hardDeleteBorrower borrowerId db with
      | (Returns (Some deletedBorrower), db') =>
          (Deleted deletedBorrower, db')
      | (Returns None, db') => (NotFound, db')
      | (Throws CannotDeleteBorrower, db') => (Conflict, db')
      | (Throws _, db') => (InternalError, db')
      end
  end.

End Service.

(** A table that has only grown: every row carries the code that
    [generateBorrowerCode] gave on the rows before it. *)
Definition append_only (db : tables) : Prop :=
  forall i b,
    borrowers db !! i = Some b ->
    borrower_code (columns b)
    = generateBorrowerCode
        {| borrowers := take i (borrowers db);
           categories := categories db;
           referenced := referenced db |}.

(** Two borrowers, created one after the other, for the examples. *)
Definition sample_columns (code idNumber phone : string) : borrower_data :=
  {| borrower_code := code;
     full_name := "Tariro Moyo";
     phone_primary := phone;
     phone_whatsapp := Null;
     email := Null;
     id_number := idNumber;
     date_of_birth := Text "1990-04-12";
     address := "12 Samora Machel Avenue";
     category_id := Text "student";
     employer_or_school := Null;
     referrer := Null;
     status := Text "active";
     credit_score := Number (of_Z 50);
     risk_tier := Text "standard";
     kyc_status := Text "incomplete";
     notes := Null |}.

Definition sample_tables : tables :=
  {| borrowers :=
       [Borrower "b-1" (sample_columns "NZM-BOR-001" "63-100001" "0771000001")
          "amina";
        Borrower "b-2" (sample_columns "NZM-BOR-002" "63-100002" "0771000002")
          "amina"];
     categories := {["student"]};
     referenced := ∅ |}.

Definition sample_body (score : js_value) : create_body :=
  {| body_full_name := "Rudo Ncube";
     body_phone_primary := "0771000003";
     body_phone_whatsapp := Undefined;
     body_email := Undefined;
     body_id_number := "63-100003";
     body_date_of_birth := Text "1988-11-02";
     body_address := "4 Fife Street, Bulawayo";
     body_category_id := Text "student";
     body_employer_or_school := Undefined;
     body_referrer := Undefined;
     body_credit_score := score;
     body_risk_tier := Undefined;
     body_notes := Undefined |}.

End Borrowers.

(** ** The creation of loan products
    ([LoanProductsService.createProduct] and its controller) *)

Module Products.

(** The object [productData]. *)
Record product_data := ProductData {
  name : js_value;
  description : js_value;
  interest_type : js_value;
  interest_rate : js_value;
  max_amount : js_value;
  default_term_days : js_value;
  grace_days : js_value;
  penalty_type : js_value;
  penalty_value : js_value;
  min_credit_score : js_value;
  is_active : js_value
}.

(** [LoanProductsService.createProduct] up to its call of
    [this.db.query]: the array [values] of the INSERT. *)
Definition createProduct (productData : product_data) (createdBy : string)
  : list js_value :=
  [name productData;
   description productData;
   js_or (interest_type productData) (Text "flat_monthly");
   interest_rate productData;
   max_amount productData;
   default_term_days productData;
   js_or (grace_days productData) (Number (of_Z 3));
   js_or (penalty_type productData) (Text "fixed");
   penalty_value productData;
   js_or (min_credit_score productData) (Number (of_Z 0));
   if defined (is_active productData) then is_active productData
   else Boolean true;
   Text createdBy].

(** The body of [POST /api/loan-products]. *)
Record create_body := CreateBody {
  body_name : js_value;
  body_description : js_value;
  body_interest_type : js_value;
  body_interest_rate : js_value;
  body_max_amount : js_value;
  body_default_term_days : js_value;
  body_grace_days : js_value;
  body_penalty_type : js_value;
  body_penalty_value : js_value;
  body_min_credit_score : js_value;
  body_is_active : js_value
}.

(** How far a creation request gets: to the INSERT with its values, or
    to an answer of the controller before it. *)
Inductive progress :=
| Inserts (values : list js_value)
| Unauthorized
| Conflict
| InternalError.

Section Controller.

(** [String.prototype.trim], [parseFloat] and [parseInt] on the value of
    a property, and the answer of the database to [productNameExists]. *)
Variable trim : string -> string.
Variable parseFloat_value : js_value -> number.
Variable parseInt_value : js_value -> number.
Variable productNameExists : js_value -> bool.

(** [LoanProductsController.createProduct] up to the INSERT of the
    service; [name.trim()] throws a TypeError unless [name] is a
    string. *)
Definition controller_createProduct (user : option Auth.request_user)
    (body : create_body) : progress :=
  match user with
  | None => Unauthorized
  | Some u =>
      let createdBy := Auth.userId u in
      if String.eqb createdBy "" then Unauthorized
      else if productNameExists (body_name body) then Conflict
      else
        match body_name body, optional_trim trim (body_description body) with
        | Text text, Some trimmed =>
            let productData :=
              {| name := Text (trim text);
                 description := trimmed;
                 interest_type :=
                   js_or (body_interest_type body) (Text "flat_monthly");
                 interest_rate :=
                   Number (parseFloat_value (body_interest_rate body));
                 max_amount :=
                   Number (parseFloat_value (body_max_amount body));
                 default_term_days :=
                   Number (parseInt_value (body_default_term_days body));
                 grace_days :=
                   if defined (body_grace_days body)
                   then Number (parseInt_value (body_grace_days body))
                   else Number (of_Z 3);
                 penalty_type :=
                   js_or (body_penalty_type body) (Text "fixed");
                 penalty_value :=
                   Number (parseFloat_value (body_penalty_value body));
                 min_credit_score :=
                   if defined (body_min_credit_score body)
                   then Number (parseInt_value (body_min_credit_score body))
                   else Number (of_Z 0);
                 is_active :=
                   if defined (body_is_active body) then body_is_active body
                   else Boolean true |} in
            Inserts (createProduct productData createdBy)
        | _, _ => InternalError
        end
  end.

End Controller.

(** A creation request with the given grace days and activity, for the
    examples. *)
Definition sample_body (graceDays isActive : js_value) : create_body :=
  {| body_name := Text "Salary Advance";
     body_description := Undefined;
     body_interest_type := Undefined;
     body_interest_rate := Number (to_number (Decimal 2500 4));
     body_max_amount := Number (of_Z 2000);
     body_default_term_days := Number (of_Z 60);
     body_grace_days := graceDays;
     body_penalty_type := Undefined;
     body_penalty_value := Number (of_Z 50);
     body_min_credit_score := Undefined;
     body_is_active := isActive |}.

(** [parseFloat] and [parseInt] where the value is a number already. *)
Definition number_of (value : js_value) : number :=
  match value with
  | Number x => x
  | _ => NaN
  end.

End Products.

(** ** The balance trigger and the entries of an account *)

(** The entries of an account, oldest first. *)
Definition entries_of (account : string)
    (entries : list vault_transaction_entry) : list vault_transaction_entry :=
  filter (fun e => vault_account_id e = account) entries.

(** Every account that has entries shows the [balance_after] of its
    latest entry. *)
Definition balance_follows_entries (db : database) : Prop :=
  forall account a latest,
    vault_accounts db !! account = Some a ->
    last (entries_of account (vault_transaction_entries db)) = Some latest ->
    current_balance a = balance_after latest.

(** ** Paginated listings
    ([getAllProducts], [getAllBorrowers] and [getAllCategories] of the
    services, their controllers and [ResponseHelper.paginated]) *)

(** [x - y] and [x < y] on numbers. *)
Definition sub (x y : number) : number := SFsub prec emax x y.
Definition lt (x y : number) : bool := SFltb x y.

Module Math.

(** The integer part of a finite [m * 2^e] with [e < 0], rounded down
    ([up = false]) or up, on the signed value. *)
Definition integer_part (up s : bool) (m : positive) (e : Z) : Z :=
  let v := if s then Zneg m else Zpos m in
  if up then - ((- v) / 2 ^ (- e)) else v / 2 ^ (- e).

(** [Math.floor] and [Math.ceil]: infinities, NaN, zeros and integers are
    returned as they are; a result of zero keeps the sign of the
    argument. *)
Definition round_to_integer (up : bool) (x : number) : number :=
  match x with
  | S754_finite s m e =>
      if 0 <=? e then x
      else
        match integer_part up s m e with
        | Z0 => S754_zero s
        | n => of_Z n
        end
  | _ => x
  end.

Definition floor (x : number) : number := round_to_integer false x.
Definition ceil (x : number) : number := round_to_integer true x.

End Math.

(** [object[key]] of an object literal: [undefined] for a missing key. *)
Definition property (object : gmap string js_value) (key : string)
  : js_value :=
  default Undefined (object !! key).

(** The [pagination] object that [getAllProducts], [getAllBorrowers] and
    [getAllCategories] return. [count] is the COUNT of the matching rows,
    which arrives as decimal text and is read by [parseInt]. *)
Definition listing_pagination (count : N) (limit offset : number)
  : gmap string js_value :=
  let total := of_Z (Z.of_N count) in
  let totalPages := Math.ceil (div total limit) in
  let currentPage := add (Math.floor (div offset limit)) (of_Z 1) in
  list_to_map
    [("page", Number currentPage);
     ("limit", Number limit);
     ("total_items", Number total);
     ("total_pages", Number totalPages);
     ("has_next", Boolean (lt currentPage totalPages));
     ("has_previous", Boolean (gt currentPage (of_Z 1)))].

Module ResponseHelper.

(** The [pagination] block of the response of [paginated]. *)
Record pagination_block := PaginationBlock {
  page : js_value;
  limit : js_value;
  total_items : js_value;
  total_pages : js_value;
  has_next : js_value;
  has_previous : js_value
}.

(** [ResponseHelper.paginated(res, data, pagination, message)]: the
    [pagination] block it sends. *)
Definition paginated (pagination : gmap string js_value)
  : pagination_block :=
  {| page := js_or (property pagination "page") (Number (of_Z 1));
     limit := js_or (property pagination "limit") (Number (of_Z 10));
     total_items :=
       js_or (property pagination "totalItems") (Number (of_Z 0));
     total_pages :=
       js_or (property pagination "totalPages") (Number (of_Z 0));
     has_next := js_or (property pagination "hasNext") (Boolean false);
     has_previous :=
       js_or (property pagination "hasPrevious") (Boolean false) |}.

End ResponseHelper.

(** The controllers' [parseInt(req.query.page) || 1] and
    [parseInt(req.query.limit) || 20], on the numbers [parseInt]
    returns, and [(page - 1) * limit]. *)
Definition requested_page (parsed : number) : number :=
  if truthy parsed then parsed else of_Z 1.

Definition requested_limit (parsed : number) : number :=
  if truthy parsed then parsed else of_Z 20.

Definition requested_offset (page limit : number) : number :=
  mul (sub page (of_Z 1)) limit.

(** The [pagination] block of the response of a listing route: the
    controller, the service and [ResponseHelper.paginated]. *)
Definition listing_response (count : N) (parsedPage parsedLimit : number)
  : ResponseHelper.pagination_block :=
  let page := requested_page parsedPage in
  let limit := requested_limit parsedLimit in
  let offset := requested_offset page limit in
  ResponseHelper.paginated (listing_pagination count limit offset).

(** * Properties *)

(** ** Numbers *)

Lemma SFcompare_antisym (x y : number) :
  SFcompare y x = option_map CompOpp (SFcompare x y).
Proof.
  destruct x as [sx|sx| |sx mx ex], y as [sy|sy| |sy my ey]; simpl;
    try reflexivity; try (destruct sx; reflexivity);
    try (destruct sy; reflexivity);
    try (destruct sx, sy; reflexivity).
  destruct sx, sy; simpl; try reflexivity;
    rewrite (Z.compare_antisym ex ey); destruct (ex ?= ey)%Z; simpl;
    try reflexivity; f_equal;
    rewrite (Pos.compare_cont_antisym mx my Eq); simpl;
    try rewrite CompOpp_involutive; reflexivity.
Qed.

(** [x <= y] excludes [x > y]. *)
Lemma le_not_gt (x y : number) : le x y = true -> gt x y = false.
Proof.
  unfold le, gt, SFleb, SFltb. rewrite (SFcompare_antisym x y).
  destruct (SFcompare x y) as [[| |]|]; simpl; congruence.
Qed.

(** [nearest_cents] is the integer within half a cent of the exact
    magnitude, the upper one at a tie. *)
Lemma nearest_cents_spec (m : positive) (e : Z) :
  (inject_Z (nearest_cents m e) - (1 # 2) <= 100 * magnitude m e
   /\ 100 * magnitude m e < inject_Z (nearest_cents m e) + (1 # 2))%Q.
Proof.
  unfold nearest_cents, magnitude.
  set (num := Zpos m * 2 ^ Z.max e 0).
  set (den := 2 ^ Z.max (- e) 0).
  assert (Hden : 0 < den) by (apply Z.pow_pos_nonneg; lia).
  replace (100 * Zpos m * 2 ^ Z.max e 0) with (100 * num) by (unfold num; ring).
  pose proof (Z.div_mod (2 * (100 * num) + den) (2 * den) ltac:(lia)) as Hdm.
  pose proof (Z.mod_pos_bound (2 * (100 * num) + den) (2 * den) ltac:(lia)) as Hb.
  set (n := (2 * (100 * num) + den) / (2 * den)) in *.
  unfold Qle, Qlt, Qminus, Qplus, Qmult, Qopp, inject_Z; simpl.
  rewrite !Pos.mul_1_l, !Z2Pos.id by lia.
  clearbody n num den. nia.
Qed.

Lemma magnitude_pos (m : positive) (e : Z) : (0 < magnitude m e)%Q.
Proof.
  unfold magnitude, Qlt; simpl.
  assert (0 < 2 ^ Z.max e 0) by (apply Z.pow_pos_nonneg; lia). lia.
Qed.

Lemma below_1e21 (m : positive) (e : Z) :
  (magnitude m e < inject_Z (10 ^ 21))%Q -> at_least_1e21 m e = false.
Proof.
  unfold magnitude, at_least_1e21, Qlt; simpl. intros H.
  assert (Hden : 0 < 2 ^ Z.max (- e) 0) by (apply Z.pow_pos_nonneg; lia).
  rewrite Z2Pos.id in H by lia.
  apply Z.leb_gt.
  change (10 ^ 21) with 1000000000000000000000. lia.
Qed.

(** [toFixed(2)] of a finite number below [10^21] in magnitude writes the
    cents nearest to its exact value, half a cent going away from zero,
    with a minus sign exactly for negative values. *)
Lemma toFixed2_half_up (x : number) (v : Q) :
  value x = Some v -> (Qabs v < inject_Z (10 ^ 21))%Q ->
  exists s n, toFixed2 x = TextCents s n
              /\ is_half_up_cents v n
              /\ (s = true <-> (v < 0)%Q).
Proof.
  destruct x as [s|s| |s m e]; simpl; intros Hv Hlt; try discriminate.
  - injection Hv as <-. exists false, 0.
    split; [reflexivity|]. split; [split|split].
    + unfold Qle; simpl; lia.
    + unfold Qlt; simpl; lia.
    + discriminate.
    + unfold Qlt; simpl; lia.
  - injection Hv as <-.
    pose proof (magnitude_pos m e) as Hpos.
    assert (Habs : (Qabs (if s then - magnitude m e else magnitude m e)
                    == magnitude m e)%Q).
    { destruct s.
      - rewrite Qabs_opp. apply Qabs_pos. apply Qlt_le_weak, Hpos.
      - apply Qabs_pos. apply Qlt_le_weak, Hpos. }
    rewrite Habs in Hlt. rewrite (below_1e21 m e Hlt).
    exists s, (nearest_cents m e). split; [reflexivity|]. split.
    + unfold is_half_up_cents. rewrite Habs. apply nearest_cents_spec.
    + destruct s; split; intros H; try discriminate; try reflexivity.
      * apply (Qopp_lt_compat 0). exact Hpos.
      * exfalso. apply (Qlt_irrefl 0). eapply Qlt_trans; eauto.
Qed.

(** *** The double of a decimal amount and its two-decimal text *)

Lemma digits2_pos_bounds (p : positive) :
  2 ^ (Z.pos (digits2_pos p) - 1) <= Z.pos p < 2 ^ Z.pos (digits2_pos p).
Proof.
  induction p as [p IH|p IH|]; simpl digits2_pos.
  - rewrite Pos2Z.inj_succ.
    replace (Z.succ (Z.pos (digits2_pos p)) - 1) with (Z.succ (Z.pos (digits2_pos p) - 1)) by lia.
    rewrite !Z.pow_succ_r by lia. lia.
  - rewrite Pos2Z.inj_succ.
    replace (Z.succ (Z.pos (digits2_pos p)) - 1) with (Z.succ (Z.pos (digits2_pos p) - 1)) by lia.
    rewrite !Z.pow_succ_r by lia. lia.
  - simpl. lia.
Qed.

Lemma digits2_pos_unique (p : positive) (c : Z) :
  2 ^ (c - 1) <= Z.pos p < 2 ^ c -> Z.pos (digits2_pos p) = c.
Proof.
  intros [Hlo Hhi]. pose proof (digits2_pos_bounds p) as [Dlo Dhi].
  assert (0 < c).
  { destruct (Z_lt_le_dec 0 c); [assumption|].
    assert (2 ^ c <= 2 ^ 0) by (apply Z.pow_le_mono_r; lia).
    simpl in *. lia. }
  destruct (Z.lt_trichotomy (Z.pos (digits2_pos p)) c) as [Hlt|[Heq|Hgt]].
  - assert (2 ^ Z.pos (digits2_pos p) <= 2 ^ (c - 1))
      by (apply Z.pow_le_mono_r; lia). lia.
  - exact Heq.
  - assert (2 ^ c <= 2 ^ (Z.pos (digits2_pos p) - 1))
      by (apply Z.pow_le_mono_r; lia). lia.
Qed.

Lemma shr_record_of_loc_m (m : Z) (l : location) :
  shr_m (shr_record_of_loc m l) = m.
Proof. destruct l as [|[| |]]; reflexivity. Qed.

Lemma loc_of_shr_record_of_loc (m : Z) (l : location) :
  loc_of_shr_record (shr_record_of_loc m l) = l.
Proof. destruct l as [|[| |]]; reflexivity. Qed.

(** No shift for a mantissa of 53 bits. *)
Lemma shr_fexp_53 (m e : Z) (l : location) :
  2 ^ 52 <= m < 2 ^ 53 -> -1074 <= e ->
  shr_fexp prec emax m e l = (shr_record_of_loc m l, e).
Proof.
  intros Hm He. unfold shr_fexp.
  destruct m as [|p|p]; try (simpl in Hm; lia).
  simpl Zdigits2. rewrite (digits2_pos_unique p 53) by (simpl; lia).
  unfold fexp, emin, prec, emax.
  replace (Z.max (53 + e - 53) (3 - 1024 - 53) - e) with 0 by lia.
  reflexivity.
Qed.

(** One shift for a mantissa of 54 bits. *)
Lemma shr_fexp_54 (m e : Z) (l : location) :
  2 ^ 53 <= m < 2 ^ 54 -> -1075 <= e ->
  shr_fexp prec emax m e l = (shr_1 (shr_record_of_loc m l), e + 1).
Proof.
  intros Hm He. unfold shr_fexp.
  destruct m as [|p|p]; try (simpl in Hm; lia).
  simpl Zdigits2. rewrite (digits2_pos_unique p 54) by (simpl; lia).
  unfold fexp, emin, prec, emax.
  replace (Z.max (54 + e - 53) (3 - 1024 - 53) - e) with 1 by lia.
  reflexivity.
Qed.

(** The second rounding step, after which the mantissa has 53 bits. *)
Lemma binary_round_renormalise (s : bool) (m1 e : Z) :
  2 ^ 52 <= m1 <= 2 ^ 53 -> -1074 <= e <= 970 ->
  (let '(mrs, e2) := shr_fexp prec emax m1 e loc_Exact in
   match shr_m mrs with
   | Z0 => S754_zero s
   | Zpos m => if e2 <=? emax - prec then S754_finite s m e2
               else S754_infinity s
   | Zneg _ => S754_nan
   end)
  = if m1 <? 2 ^ 53 then S754_finite s (Z.to_pos m1) e
    else S754_finite s (Z.to_pos (2 ^ 52)) (e + 1).
Proof.
  intros Hm He. destruct (m1 <? 2 ^ 53) eqn:Hlt.
  - apply Z.ltb_lt in Hlt.
    rewrite shr_fexp_53 by lia. simpl shr_m.
    destruct m1 as [|p|p]; try (simpl in Hm; lia).
    unfold emax, prec.
    replace (e <=? 1024 - 53) with true by (symmetry; apply Z.leb_le; lia).
    reflexivity.
  - apply Z.ltb_ge in Hlt. assert (m1 = 2 ^ 53) as -> by lia.
    rewrite shr_fexp_54 by (simpl; lia). simpl shr_m.
    unfold emax, prec.
    replace (e + 1 <=? 1024 - 53) with true by (symmetry; apply Z.leb_le; lia).
    reflexivity.
Qed.

(** Rounding a quotient [q] of 53 or 54 bits, [M = 100 * q + r]: the
    result is a finite number whose mantissa is within half a unit of
    [M / 100] at its exponent. *)
Lemma binary_round_aux_quotient (s : bool) (M q r e : Z) :
  M = 100 * q + r -> 0 <= r < 100 ->
  2 ^ 52 <= q < 2 ^ 54 -> -1074 <= e <= 960 ->
  exists (m : positive) (j : Z),
    binary_round_aux prec emax s q e (new_location 100 r)
    = S754_finite s m (e + j)
    /\ 0 <= j <= 2
    /\ -50 * 2 ^ j <= 100 * Z.pos m * 2 ^ j - M <= 50 * 2 ^ j.
Proof.
  intros HM Hr Hq He.
  assert (Hloc : new_location 100 r
                 = if r =? 0 then loc_Exact
                   else loc_Inexact (2 * r ?= 100)) by reflexivity.
  unfold binary_round_aux.
  destruct (Z_lt_le_dec q (2 ^ 53)) as [Hq53|Hq54].
  - (* 53 bits: no shift *)
    rewrite shr_fexp_53 by lia.
    rewrite shr_record_of_loc_m, loc_of_shr_record_of_loc.
    set (m1 := round_nearest_even q (new_location 100 r)).
    assert (Hm1 : 2 ^ 52 <= m1 <= 2 ^ 53 /\ -50 <= 100 * m1 - M <= 50).
    { unfold m1. rewrite Hloc. clear m1 Hloc.
      destruct (r =? 0) eqn:Hr0.
      - apply Z.eqb_eq in Hr0. unfold round_nearest_even. repeat split; lia.
      - apply Z.eqb_neq in Hr0.
        destruct (2 * r ?= 100) eqn:Hc; unfold round_nearest_even.
        + apply Z.compare_eq in Hc. destruct (Z.even q); repeat split; lia.
        + change (2 * r < 100) in Hc. repeat split; lia.
        + apply Z.compare_gt_iff in Hc. repeat split; lia. }
    destruct Hm1 as [Hm1 Herr].
    rewrite (binary_round_renormalise s m1 e) by lia.
    destruct (m1 <? 2 ^ 53) eqn:Hlt.
    + exists (Z.to_pos m1), 0. rewrite Z.add_0_r.
      split; [reflexivity|]. split; [lia|].
      rewrite Z2Pos.id by lia. simpl. lia.
    + apply Z.ltb_ge in Hlt.
      exists (Z.to_pos (2 ^ 52)), 1.
      split; [reflexivity|]. split; [lia|].
      rewrite Z2Pos.id by (simpl; lia).
      assert (m1 = 2 ^ 53) by lia.
      change (2 ^ 1) with 2. change (2 ^ 53) with (2 * 2 ^ 52) in *. lia.
  - (* 54 bits: one shift *)
    rewrite shr_fexp_54 by lia.
    set (mrs := shr_1 (shr_record_of_loc q (new_location 100 r))).
    set (m1 := round_nearest_even (shr_m mrs) (loc_of_shr_record mrs)).
    assert (Hm1 : 2 ^ 52 <= m1 <= 2 ^ 53
                  /\ -100 <= 200 * m1 - M <= 100).
    { unfold m1, mrs. rewrite Hloc. clear m1 mrs Hloc.
      assert (Hhalf : exists p b, q = 2 * p + (if b : bool then 1 else 0)
                        /\ shr_1 (Build_shr_record q false false)
                           = Build_shr_record p b false
                        /\ (forall x, shr_1 (Build_shr_record q x true)
                                      = Build_shr_record p b true)
                        /\ shr_1 (Build_shr_record q true false)
                           = Build_shr_record p b true).
      { destruct q as [|[p|p|]|p]; try (simpl in Hq54; lia).
        - exists (Z.pos p), true. rewrite Pos2Z.inj_xI.
          repeat split; try reflexivity. intros []; reflexivity.
        - exists (Z.pos p), false. rewrite Pos2Z.inj_xO.
          repeat split; try reflexivity. intros []; reflexivity. }
      destruct Hhalf as (p & b & Hqp & Hexact & Hsticky & Hround).
      destruct (r =? 0) eqn:Hr0.
      - apply Z.eqb_eq in Hr0. cbn [shr_record_of_loc]. rewrite Hexact.
        cbn [shr_m loc_of_shr_record].
        destruct b; cbn [round_nearest_even].
        + destruct (Z.even p); repeat split; lia.
        + repeat split; lia.
      - apply Z.eqb_neq in Hr0.
        destruct (2 * r ?= 100) eqn:Hc;
          [apply Z.compare_eq in Hc|change (2 * r < 100) in Hc
           |apply Z.compare_gt_iff in Hc];
          cbn [shr_record_of_loc]; rewrite ?Hsticky, ?Hround;
          cbn [shr_m loc_of_shr_record];
          destruct b; cbn [round_nearest_even]; repeat split; lia. }
    destruct Hm1 as [Hm1 Herr].
    rewrite (binary_round_renormalise s m1 (e + 1)) by lia.
    destruct (m1 <? 2 ^ 53) eqn:Hlt.
    + exists (Z.to_pos m1), 1.
      split; [reflexivity|]. split; [lia|].
      rewrite Z2Pos.id by lia. change (2 ^ 1) with 2. lia.
    + apply Z.ltb_ge in Hlt.
      exists (Z.to_pos (2 ^ 52)), 2.
      split; [f_equal; lia|]. split; [lia|].
      rewrite Z2Pos.id by (simpl; lia).
      assert (m1 = 2 ^ 53) by lia.
      change (2 ^ 2) with 4. change (2 ^ 53) with (2 * 2 ^ 52) in *. lia.
Qed.

(** The double of [n / 100] for an amount of at most 10^15 cents: its
    mantissa at exponent [-k] is within half a unit of [n * 2^k / 100]. *)
Lemma of_ratio_cents (s : bool) (n : positive) :
  Z.pos n <= 10 ^ 15 ->
  exists (m : positive) (k : Z),
    of_ratio s n 100 = S754_finite s m (- k)
    /\ 8 <= k <= 60
    /\ -50 <= 100 * Z.pos m - Z.pos n * 2 ^ k <= 50.
Proof.
  intros Hn.
  pose proof (digits2_pos_bounds n) as [Dlo Dhi].
  set (d := Z.pos (digits2_pos n)) in *.
  assert (Hd : 1 <= d <= 50).
  { split; [unfold d; lia|].
    destruct (Z_lt_le_dec 50 d) as [Hgt|]; [|assumption].
    assert (2 ^ 50 <= 2 ^ (d - 1)) by (apply Z.pow_le_mono_r; lia).
    change (10 ^ 15) with 1000000000000000 in Hn.
    change (2 ^ 50) with 1125899906842624 in *. lia. }
  unfold of_ratio, SFdiv_core_binary.
  change (Zdigits2 (Z.pos n)) with d. change (Zdigits2 100) with 7.
  unfold fexp, emin, prec, emax.
  replace (Z.min (Z.max (d + 0 - (7 + 0) - 53) (3 - 1024 - 53)) (0 - 0))
    with (d - 60) by lia.
  replace (0 - 0 - (d - 60)) with (60 - d) by lia.
  destruct (60 - d) as [|sh|sh] eqn:Hsh; try lia.
  rewrite Z.shiftl_mul_pow2 by lia.
  set (M := Z.pos n * 2 ^ Z.pos sh).
  pose proof (Z_div_mod_eq_full M 100) as Hdm.
  pose proof (Z.mod_pos_bound M 100 ltac:(lia)) as Hmod.
  assert (Hdiv : Z.div_eucl M 100 = (M / 100, M mod 100)).
  { unfold Z.div, Z.modulo. destruct (Z.div_eucl M 100). reflexivity. }
  rewrite Hdiv.
  assert (Hpow : 2 ^ (d - 1) * 2 ^ Z.pos sh = 2 ^ 59
                 /\ 2 ^ d * 2 ^ Z.pos sh = 2 ^ 60).
  { rewrite <- !Z.pow_add_r by lia. split; f_equal; lia. }
  destruct Hpow as [Hp59 Hp60].
  assert (Hpos : 0 < 2 ^ Z.pos sh) by (apply Z.pow_pos_nonneg; lia).
  assert (HM : 2 ^ 59 <= M < 2 ^ 60).
  { unfold M. rewrite <- Hp59, <- Hp60. split.
    - apply Z.mul_le_mono_nonneg_r; lia.
    - apply Z.mul_lt_mono_pos_r; lia. }
  assert (Hq : 2 ^ 52 <= M / 100 < 2 ^ 54).
  { change (2 ^ 59) with 576460752303423488 in HM.
    change (2 ^ 60) with 1152921504606846976 in HM.
    change (2 ^ 52) with 4503599627370496.
    change (2 ^ 54) with 18014398509481984. lia. }
  destruct (binary_round_aux_quotient s M (M / 100) (M mod 100) (d - 60)
              Hdm Hmod Hq ltac:(lia))
    as (m & j & Hres & Hj & Herr).
  unfold prec, emax in Hres.
  exists m, (60 - d - j).
  split; [rewrite Hres; f_equal; lia|]. split; [lia|].
  assert (Hsplit : 2 ^ Z.pos sh = 2 ^ (60 - d - j) * 2 ^ j).
  { rewrite <- Z.pow_add_r by lia. f_equal. lia. }
  assert (Hj2 : 0 < 2 ^ j) by (apply Z.pow_pos_nonneg; lia).
  unfold M in Herr. rewrite Hsplit in Herr.
  set (K := 2 ^ (60 - d - j)) in *. set (J := 2 ^ j) in *.
  split; nia.
Qed.

(** [toFixed(2)] of the double of [n / 100] writes [n] cents back. *)
Lemma toFixed2_cents (s : bool) (n : positive) :
  Z.pos n <= 10 ^ 15 ->
  toFixed2 (of_ratio s n 100) = TextCents s (Z.pos n).
Proof.
  intros Hn.
  destruct (of_ratio_cents s n Hn) as (m & k & -> & Hk & Herr).
  assert (Hpow : 2 ^ 8 <= 2 ^ k) by (apply Z.pow_le_mono_r; lia).
  change (2 ^ 8) with 256 in Hpow.
  change (10 ^ 15) with 1000000000000000 in Hn.
  unfold toFixed2, at_least_1e21, nearest_cents.
  rewrite Z.opp_involutive.
  rewrite (Z.max_r (- k) 0), (Z.max_l k 0) by lia.
  change (2 ^ 0) with 1. change (10 ^ 21) with 1000000000000000000000.
  set (P := 2 ^ k) in *.
  replace (1000000000000000000000 * P <=? Z.pos m * 1) with false
    by (symmetry; apply Z.leb_gt; nia).
  f_equal.
  symmetry.
  apply (Z.div_unique_pos _ _ _ (2 * (100 * Z.pos m * 1) + P - 2 * P * Z.pos n));
    lia.
Qed.

(** An amount of at most 10^15 cents survives [parseFloat(x.toFixed(2))]. *)
Lemma round2_two_decimal_amount (c : Z) :
  - 10 ^ 15 <= c <= 10 ^ 15 ->
  round2 (to_number (Decimal c 2)) = to_number (Decimal c 2).
Proof.
  intros Hc. unfold round2, to_number. simpl units. simpl scale.
  change (Z.to_pos (10 ^ Z.of_nat 2)) with 100%positive.
  destruct c as [|a|a].
  - reflexivity.
  - rewrite toFixed2_cents by lia. reflexivity.
  - rewrite toFixed2_cents by lia. reflexivity.
Qed.

(** ** The loan calculator *)

Section Calculator.

Variable db : gmap string product.

(** What a successful call returns, field by field. *)
Lemma calculate_returns (id : string) (p : product)
    (principalAmount : number) (termDays : term_argument) :
  getProductById db id = Some p ->
  is_active p = Some true ->
  gt principalAmount (to_number (max_amount p)) = false ->
  exists r,
    calculateLoanDetails db id principalAmount termDays = Returns r
    /\ principal_amount r = parseFloat_number principalAmount
    /\ term_days r = loanTermDays termDays p
    /\ interest_amount r
       = round2 (interestAmount p principalAmount (loanTermDays termDays p))
    /\ total_due_amount r
       = round2 (add principalAmount
                   (interestAmount p principalAmount
                      (loanTermDays termDays p))).
Proof.
  intros Hp Hact Hmax. unfold calculateLoanDetails, not_active.
  rewrite Hp, Hact, Hmax. eexists. split; [reflexivity|].
  simpl. repeat split; reflexivity.
Qed.

(** A call that returns found an active product whose limit the
    principal does not exceed. *)
Lemma calculate_inversion (id : string) (principalAmount : number)
    (termDays : term_argument) (r : loan_details) :
  calculateLoanDetails db id principalAmount termDays = Returns r ->
  exists p,
    getProductById db id = Some p
    /\ is_active p = Some true
    /\ gt principalAmount (to_number (max_amount p)) = false.
Proof.
  unfold calculateLoanDetails, not_active.
  destruct (getProductById db id) as [p|]; [|discriminate].
  destruct (is_active p) as [[|]|] eqn:Hact; try discriminate.
  destruct (gt principalAmount (to_number (max_amount p))) eqn:Hgt;
    [discriminate|].
  intros _. exists p. repeat split; assumption || reflexivity.
Qed.

End Calculator.

Lemma interest_type_is_eq (p : product) (tag : string) :
  interest_type p = Some tag -> interest_type_is p tag = true.
Proof.
  intros H. unfold interest_type_is. rewrite H. apply String.eqb_refl.
Qed.

Lemma interest_type_is_neq (p : product) (tag : string) :
  interest_type p <> Some tag -> interest_type_is p tag = false.
Proof.
  intros H. unfold interest_type_is.
  destruct (interest_type p) as [t|]; [|reflexivity].
  apply String.eqb_neq. congruence.
Qed.

(** The flat-monthly branch. *)
Lemma interestAmount_flat_monthly (p : product) (principalAmount term : number) :
  interest_type p = Some "flat_monthly" ->
  interestAmount p principalAmount term
  = mul (mul principalAmount (to_number (interest_rate p)))
        (div term (of_Z 30)).
Proof.
  intros H. unfold interestAmount.
  rewrite (interest_type_is_eq p "flat_monthly" H). reflexivity.
Qed.

(** The reducing-balance branch. *)
Lemma interestAmount_reducing_balance (p : product)
    (principalAmount term : number) :
  interest_type p = Some "reducing_balance" ->
  interestAmount p principalAmount term
  = mul (mul principalAmount (div (to_number (interest_rate p)) (of_Z 365)))
        term.
Proof.
  intros H. unfold interestAmount, interest_type_is. rewrite H. reflexivity.
Qed.

(** Neither branch: the initial [0] stays. *)
Lemma interestAmount_other (p : product) (principalAmount term : number) :
  interest_type p <> Some "flat_monthly" ->
  interest_type p <> Some "reducing_balance" ->
  interestAmount p principalAmount term = of_Z 0.
Proof.
  intros H1 H2. unfold interestAmount.
  rewrite (interest_type_is_neq p _ H1), (interest_type_is_neq p _ H2).
  reflexivity.
Qed.

(** C1, as stated, fails, also when the amount of the formula is read
    as rounded to cents. For the seeded Trader Business Loan (flat
    monthly, rate 0.35, default term 90 days) and a principal of 1.50 the
    formula gives 1.5 x 0.35 x 3 = 1.575, which is 1.58 when half a cent
    is rounded up; the call returns 1.57, because the double nearest to
    0.35 lies below it and so does the product the code computes. *)
Lemma flat_monthly_interest_drifts :
  exists r v,
    calculateLoanDetails seeded_products "trader"
      (to_number (Decimal 150 2)) TermNull = Returns r
    /\ term_days r = of_Z 90
    /\ interest_amount r = to_number (Decimal 157 2)
    /\ value (interest_amount r) = Some v
    /\ ~ (v == (150 # 100) * (3500 # 10000) * (90 # 30))%Q
    /\ spec_round_half_up_cents ((150 # 100) * (3500 # 10000) * (90 # 30))
       = 158
    /\ interest_amount r <> to_number (Decimal 158 2).
Proof.
  eexists. eexists.
  split; [vm_compute; reflexivity|].
  split; [vm_compute; reflexivity|].
  split; [vm_compute; reflexivity|].
  split; [vm_compute; reflexivity|].
  split; [unfold Qeq; vm_compute; discriminate|].
  split; [vm_compute; reflexivity|].
  vm_compute. discriminate.
Qed.

(** C1 (amended): for every active flat-monthly product and every
    principal not exceeding its [max_amount], [calculateLoanDetails] returns
    as [interest_amount] the double product
    principal x rate x (termDays / 30) written with two decimals by
    [toFixed(2)] and read back, [termDays] being the caller's term when it
    is truthy and the product's [default_term_days] otherwise. For rate
    0.25, default term 60 and principal 1000 without a term, the interest
    is 500.00 and the total due 1500.00. *)
Theorem flat_monthly_interest :
  (forall (db : gmap string product) (id : string) (p : product)
          (principalAmount : number) (termDays : term_argument),
      getProductById db id = Some p ->
      is_active p = Some true ->
      interest_type p = Some "flat_monthly" ->
      le principalAmount (to_number (max_amount p)) = true ->
      exists r,
        calculateLoanDetails db id principalAmount termDays = Returns r
        /\ term_days r = loanTermDays termDays p
        /\ interest_amount r
           = round2 (mul (mul principalAmount (to_number (interest_rate p)))
                         (div (term_days r) (of_Z 30))))
  /\ (forall (db : gmap string product) (id : string) (p : product)
             (termDays : term_argument),
         getProductById db id = Some p ->
         is_active p = Some true ->
         interest_type p = Some "flat_monthly" ->
         to_number (interest_rate p) = to_number (Decimal 25 2) ->
         default_term_days p = 60 ->
         le (of_Z 1000) (to_number (max_amount p)) = true ->
         termDays = TermNull \/ termDays = TermUndefined ->
         exists r,
           calculateLoanDetails db id (of_Z 1000) termDays = Returns r
           /\ interest_amount r = to_number (Decimal 50000 2)
           /\ total_due_amount r = to_number (Decimal 150000 2)).
Proof.
  split.
  - intros db id p principalAmount termDays Hp Hact Hflat Hle.
    destruct (calculate_returns db id p principalAmount termDays Hp Hact
                (le_not_gt _ _ Hle)) as (r & Hr & _ & Hterm & Hint & _).
    exists r. split; [exact Hr|]. split; [exact Hterm|].
    rewrite Hint, Hterm. f_equal.
    apply interestAmount_flat_monthly, Hflat.
  - intros db id p termDays Hp Hact Hflat Hrate Hdefault Hle Hterm.
    destruct (calculate_returns db id p (of_Z 1000) termDays Hp Hact
                (le_not_gt _ _ Hle)) as (r & Hr & _ & _ & Hint & Htot).
    exists r. split; [exact Hr|].
    assert (Hdays : loanTermDays termDays p = of_Z 60).
    { unfold loanTermDays. rewrite Hdefault.
      destruct Hterm as [-> | ->]; reflexivity. }
    rewrite Hint, Htot, Hdays, (interestAmount_flat_monthly p _ _ Hflat), Hrate.
    split; vm_compute; reflexivity.
Qed.

Lemma flat_monthly_interest_witness :
  exists r,
    calculateLoanDetails seeded_products "employee" (of_Z 1000) TermNull
    = Returns r
    /\ interest_amount r = to_number (Decimal 50000 2)
    /\ total_due_amount r = to_number (Decimal 150000 2).
Proof.
  apply (proj2 flat_monthly_interest seeded_products "employee"
           employee_standard TermNull);
    try reflexivity.
  left; reflexivity.
Defined.



(** C9: a [termDays] argument that is null, undefined or 0 makes the
    computation use the product's [default_term_days]. The call behaves as
    the call with the default term passed explicitly; on an active product
    and a principal that does not exceed its [max_amount] it is not
    rejected but returns, what it returns carries the default term, and
    the interest is the one the formula of the product gives over the
    default term, not over zero days: 500.00 on the seeded Employee
    Standard product for a principal of 1000. On the route a term given
    as the number 0 passes the validation and reaches the service as a
    null term. *)
Theorem zero_term_falls_back_to_default :
  (forall (db : gmap string product) (id : string) (p : product)
          (principalAmount : number) (termDays : term_argument),
      getProductById db id = Some p ->
      termDays = TermNull \/ termDays = TermUndefined
      \/ termDays = TermNumber (of_Z 0) ->
      loanTermDays termDays p = of_Z (default_term_days p)
      /\ calculateLoanDetails db id principalAmount termDays
         = calculateLoanDetails db id principalAmount
             (TermNumber (of_Z (default_term_days p))))
  /\ (forall (db : gmap string product) (id : string) (p : product)
             (principalAmount : number) (termDays : term_argument),
         getProductById db id = Some p ->
         is_active p = Some true ->
         gt principalAmount (to_number (max_amount p)) = false ->
         termDays = TermNull \/ termDays = TermUndefined
         \/ termDays = TermNumber (of_Z 0) ->
         exists r,
           calculateLoanDetails db id principalAmount termDays = Returns r
           /\ term_days r = of_Z (default_term_days p)
           /\ (interest_type p = Some "flat_monthly" ->
               interest_amount r
               = round2 (mul (mul principalAmount
                                  (to_number (interest_rate p)))
                             (div (of_Z (default_term_days p)) (of_Z 30))))
           /\ (interest_type p = Some "reducing_balance" ->
               interest_amount r
               = round2 (mul (mul principalAmount
                                  (div (to_number (interest_rate p))
                                       (of_Z 365)))
                             (of_Z (default_term_days p)))))
  /\ (forall (db : gmap string product) (id : string) (p : product)
             (body : calculation_body),
         getProductById db id = Some p ->
         is_active p = Some true ->
         gt (controller_principal (body_principal_amount body))
            (to_number (max_amount p)) = false ->
         valid_principal_amount (body_principal_amount body) = true ->
         body_term_days body = JsonNumber "0" ->
         exists r,
           calculate_route db id body = Success r
           /\ term_days r = of_Z (default_term_days p))
  /\ (exists r,
         calculateLoanDetails seeded_products "employee" (of_Z 1000)
           (TermNumber (of_Z 0)) = Returns r
         /\ term_days r = of_Z 60
         /\ interest_amount r = to_number (Decimal 50000 2)
         /\ interest_amount r <> of_Z 0).
Proof.
  assert (Hdays : forall (p : product) (termDays : term_argument),
             termDays = TermNull \/ termDays = TermUndefined
             \/ termDays = TermNumber (of_Z 0) ->
             loanTermDays termDays p = of_Z (default_term_days p)).
  { intros p termDays [-> | [-> | ->]]; reflexivity. }
  split; [|split; [|split]].
  - intros db id p principalAmount termDays Hp Hterm.
    split; [exact (Hdays p termDays Hterm)|].
    assert (Hexplicit :
              loanTermDays (TermNumber (of_Z (default_term_days p))) p
              = of_Z (default_term_days p)).
    { unfold loanTermDays.
      destruct (truthy (of_Z (default_term_days p))); reflexivity. }
    unfold calculateLoanDetails. rewrite Hp.
    rewrite (Hdays p termDays Hterm), Hexplicit. reflexivity.
  - intros db id p principalAmount termDays Hp Hact Hmax Hterm.
    destruct (calculate_returns db id p principalAmount termDays Hp Hact Hmax)
      as (r & Hr & _ & Ht & Hi & _).
    exists r. split; [exact Hr|].
    rewrite Ht, Hi, (Hdays p termDays Hterm).
    split; [reflexivity|]. split; intros Htype.
    + rewrite (interestAmount_flat_monthly p _ _ Htype). reflexivity.
    + rewrite (interestAmount_reducing_balance p _ _ Htype). reflexivity.
  - intros db id p body Hp Hact Hmax Hvalid Hzero.
    unfold calculate_route, validateLoanCalculation,
      controller_calculateLoanDetails.
    rewrite Hvalid, Hzero.
    change (valid_term_days (JsonNumber "0")) with true.
    change (controller_term (JsonNumber "0")) with TermNull.
    cbn [andb].
    destruct (calculate_returns db id p
                (controller_principal (body_principal_amount body))
                TermNull Hp Hact Hmax)
      as (r & -> & _ & Ht & _).
    exists r. split; [reflexivity|].
    rewrite Ht. reflexivity.
  - eexists. split; [vm_compute; reflexivity|].
    split; [vm_compute; reflexivity|].
    split; [vm_compute; reflexivity|].
    vm_compute. discriminate.
Qed.

Lemma zero_term_falls_back_to_default_witness :
  exists r,
    calculateLoanDetails seeded_products "employee" (of_Z 1000)
      (TermNumber (of_Z 0)) = Returns r
    /\ term_days r = of_Z 60
    /\ (interest_type employee_standard = Some "flat_monthly" ->
        interest_amount r
        = round2 (mul (mul (of_Z 1000) (to_number (Decimal 2500 4)))
                      (div (of_Z 60) (of_Z 30))))
    /\ (interest_type employee_standard = Some "reducing_balance" ->
        interest_amount r
        = round2 (mul (mul (of_Z 1000)
                           (div (to_number (Decimal 2500 4)) (of_Z 365)))
                      (of_Z 60))).
Proof.
  apply (proj1 (proj2 zero_term_falls_back_to_default) seeded_products
           "employee" employee_standard (of_Z 1000) (TermNumber (of_Z 0))).
  - reflexivity.
  - reflexivity.
  - reflexivity.
  - right; right; reflexivity.
Defined.

Lemma add_zero_toFixed2 (x : number) :
  toFixed2 (add x (of_Z 0)) = toFixed2 x.
Proof. destruct x as [[|]|[|]| |s m e]; reflexivity. Qed.

(** C10, as stated, fails: the total due is not the principal itself. On
    a product whose [interest_type] is NULL, a principal of 1.234 gives a
    total due of 1.23. *)
Lemma untyped_total_due_is_rounded :
  exists r,
    calculateLoanDetails other_products "untyped"
      (to_number (Decimal 1234 3)) TermNull = Returns r
    /\ interest_type untyped_product = None
    /\ principal_amount r = to_number (Decimal 1234 3)
    /\ interest_amount r = of_Z 0
    /\ total_due_amount r = to_number (Decimal 123 2)
    /\ total_due_amount r <> to_number (Decimal 1234 3).
Proof.
  eexists. repeat split; try (vm_compute; reflexivity).
  vm_compute. discriminate.
Qed.

(** C10 (amended): for every active product whose [interest_type] is
    neither flat_monthly nor reducing_balance, and every principal that does
    not exceed its [max_amount], [calculateLoanDetails] returns, with an
    [interest_amount] of 0 and a total due equal to the principal written
    with two decimals by [toFixed(2)]; the total due is the principal
    itself when the principal is an amount of two decimals (of at most
    10^15 cents). *)
Theorem other_interest_type_zero_interest :
  forall (db : gmap string product) (id : string) (p : product)
         (principalAmount : number) (termDays : term_argument),
    getProductById db id = Some p ->
    interest_type p <> Some "flat_monthly" ->
    interest_type p <> Some "reducing_balance" ->
    is_active p = Some true ->
    gt principalAmount (to_number (max_amount p)) = false ->
    exists r,
      calculateLoanDetails db id principalAmount termDays = Returns r
      /\ interest_amount r = of_Z 0
      /\ total_due_amount r = round2 principalAmount
      /\ (forall c, - 10 ^ 15 <= c <= 10 ^ 15 ->
                    principalAmount = to_number (Decimal c 2) ->
                    total_due_amount r = principalAmount).
Proof.
  intros db id p principalAmount termDays Hp Hflat Hred Hact Hmax.
  destruct (calculate_returns db id p principalAmount termDays Hp Hact Hmax)
    as (r & Hr & _ & _ & Hint & Htot).
  exists r. split; [exact Hr|].
  rewrite (interestAmount_other p _ _ Hflat Hred) in Hint, Htot.
  split; [rewrite Hint; reflexivity|].
  assert (Hround : total_due_amount r = round2 principalAmount).
  { rewrite Htot. unfold round2. rewrite add_zero_toFixed2. reflexivity. }
  split; [exact Hround|].
  intros c Hc ->. rewrite Hround. apply round2_two_decimal_amount, Hc.
Qed.

Lemma other_interest_type_zero_interest_witness :
  exists r,
    calculateLoanDetails other_products "untyped"
      (to_number (Decimal 12050 2)) TermNull = Returns r
    /\ interest_amount r = of_Z 0
    /\ total_due_amount r = round2 (to_number (Decimal 12050 2))
    /\ (forall c, - 10 ^ 15 <= c <= 10 ^ 15 ->
                  to_number (Decimal 12050 2) = to_number (Decimal c 2) ->
                  total_due_amount r = to_number (Decimal 12050 2)).
Proof.
  apply (other_interest_type_zero_interest other_products "untyped"
           untyped_product (to_number (Decimal 12050 2)) TermNull);
    try reflexivity; discriminate.
Defined.

(** A principal of 120.50 on the untyped product: no interest, and a total
    due of 120.50. *)
Example untyped_total_due :
  exists r,
    calculateLoanDetails other_products "untyped"
      (to_number (Decimal 12050 2)) TermNull = Returns r
    /\ interest_amount r = of_Z 0
    /\ total_due_amount r = to_number (Decimal 12050 2).
Proof. eexists. repeat split; vm_compute; reflexivity. Qed.

(** What a returning call computed, in terms of the product it found. *)
Lemma calculate_amounts (db : gmap string product) (id : string)
    (principalAmount : number) (termDays : term_argument) (r : loan_details) :
  calculateLoanDetails db id principalAmount termDays = Returns r ->
  exists p,
    getProductById db id = Some p
    /\ interest_amount r
       = round2 (interestAmount p principalAmount (loanTermDays termDays p))
    /\ total_due_amount r
       = round2 (add principalAmount
                   (interestAmount p principalAmount
                      (loanTermDays termDays p)))
    /\ principal_amount r = parseFloat_number principalAmount.
Proof.
  intros Hr.
  destruct (calculate_inversion db id principalAmount termDays r Hr)
    as (p & Hp & Hact & Hmax).
  destruct (calculate_returns db id p principalAmount termDays Hp Hact Hmax)
    as (r' & Hr' & Hprin & _ & Hint & Htot).
  rewrite Hr in Hr'. injection Hr' as <-.
  exists p. auto.
Qed.

(** C2, as stated, fails: the returned interest is not the exact result
    rounded half up. For the seeded Student Quick Loan (flat monthly, rate
    0.30, default term 30 days) and a principal of 2.25 the exact interest
    is 0.675, which rounds half up to 0.68; the call returns 0.67. *)
Lemma interest_not_exact_half_up :
  exists r,
    calculateLoanDetails seeded_products "student"
      (to_number (Decimal 225 2)) TermNull = Returns r
    /\ spec_round_half_up_cents ((225 # 100) * (3000 # 10000) * (30 # 30)) = 68
    /\ interest_amount r = to_number (Decimal 67 2)
    /\ interest_amount r <> to_number (Decimal 68 2).
Proof.
  eexists. repeat split; try (vm_compute; reflexivity).
  vm_compute. discriminate.
Qed.

(** C2 (amended): for every call that returns, [interest_amount] and
    [total_due_amount] are the doubles the code computed (the interest and
    the sum principal + interest), each written by [toFixed(2)] and read
    back; for a computed double that is finite and below 10^21 in
    magnitude, [toFixed(2)] writes the cents nearest to its exact value,
    half a cent going away from zero. *)
Theorem amounts_round_computed_doubles :
  forall (db : gmap string product) (id : string)
         (principalAmount : number) (termDays : term_argument)
         (r : loan_details),
    calculateLoanDetails db id principalAmount termDays = Returns r ->
    exists p interest,
      getProductById db id = Some p
      /\ interest = interestAmount p principalAmount (loanTermDays termDays p)
      /\ interest_amount r = parseFloat (toFixed2 interest)
      /\ total_due_amount r
         = parseFloat (toFixed2 (add principalAmount interest))
      /\ forall x v,
           x = interest \/ x = add principalAmount interest ->
           value x = Some v ->
           (Qabs v < inject_Z (10 ^ 21))%Q ->
           exists s n,
             toFixed2 x = TextCents s n
             /\ is_half_up_cents v n
             /\ (s = true <-> (v < 0)%Q).
Proof.
  intros db id principalAmount termDays r Hr.
  destruct (calculate_amounts db id principalAmount termDays r Hr)
    as (p & Hp & Hint & Htot & _).
  exists p, (interestAmount p principalAmount (loanTermDays termDays p)).
  split; [exact Hp|]. split; [reflexivity|].
  split; [exact Hint|]. split; [exact Htot|].
  intros x v _ Hv Hlt. exact (toFixed2_half_up x v Hv Hlt).
Qed.

Lemma amounts_round_computed_doubles_witness :
  exists p interest,
    getProductById seeded_products "student" = Some p
    /\ interest = interestAmount p (to_number (Decimal 225 2))
                    (loanTermDays TermNull p)
    /\ to_number (Decimal 67 2) = parseFloat (toFixed2 interest)
    /\ to_number (Decimal 292 2)
       = parseFloat (toFixed2 (add (to_number (Decimal 225 2)) interest))
    /\ forall x v,
         x = interest \/ x = add (to_number (Decimal 225 2)) interest ->
         value x = Some v ->
         (Qabs v < inject_Z (10 ^ 21))%Q ->
         exists s n,
           toFixed2 x = TextCents s n
           /\ is_half_up_cents v n
           /\ (s = true <-> (v < 0)%Q).
Proof.
  apply (amounts_round_computed_doubles seeded_products "student"
           (to_number (Decimal 225 2)) TermNull
           {| product_id := "student";
              product_name := "Student Quick Loan";
              principal_amount := to_number (Decimal 225 2);
              details_interest_rate := Decimal 3000 4;
              details_interest_type := Some "flat_monthly";
              term_days := of_Z 30;
              interest_amount := to_number (Decimal 67 2);
              total_due_amount := to_number (Decimal 292 2);
              details_grace_days := Some 3;
              details_penalty_type := Some "fixed";
              details_penalty_value := Decimal 5000 2 |}).
  vm_compute. reflexivity.
Defined.

Lemma nearest_cents_nonneg (m : positive) (e : Z) : 0 <= nearest_cents m e.
Proof.
  unfold nearest_cents.
  assert (0 < 2 ^ Z.max (- e) 0) by (apply Z.pow_pos_nonneg; lia).
  assert (0 < 2 ^ Z.max e 0) by (apply Z.pow_pos_nonneg; lia).
  apply Z.div_pos; nia.
Qed.

(** Below [10^21], what [toFixed(2)] writes has two decimals. *)
Lemma round2_two_decimals (x : number) (v : Q) :
  value x = Some v -> (Qabs v < inject_Z (10 ^ 21))%Q ->
  two_decimals (round2 x).
Proof.
  intros Hv Hlt. unfold round2, two_decimals.
  destruct (toFixed2_half_up x v Hv Hlt) as (s & n & Htext & _ & _).
  rewrite Htext. exists s, n. split; [|reflexivity].
  destruct x as [s'|s'| |s' m e]; simpl in Htext; try discriminate.
  - injection Htext as <- <-. lia.
  - destruct (at_least_1e21 m e); [discriminate|].
    injection Htext as <- <-. apply nearest_cents_nonneg.
Qed.

(** C5: the code breaks the claim. It adds the principal and the interest
    ([totalDueAmount = principalAmount + interestAmount]) but rounds the
    interest and the sum separately, each from its unrounded double, so
    the returned total due is not always the sum of the returned principal
    and interest. For the seeded Student Quick Loan and a principal of
    2.75 the call returns an interest of 0.82 and a total due of 3.58,
    while 2.75 + 0.82 is 3.57. *)
Theorem total_due_not_sum_of_returned :
  exists r,
    calculateLoanDetails seeded_products "student"
      (to_number (Decimal 275 2)) TermNull = Returns r
    /\ principal_amount r = to_number (Decimal 275 2)
    /\ interest_amount r = to_number (Decimal 82 2)
    /\ total_due_amount r = to_number (Decimal 358 2)
    /\ add (principal_amount r) (interest_amount r)
       = to_number (Decimal 357 2)
    /\ total_due_amount r <> add (principal_amount r) (interest_amount r).
Proof.
  eexists. repeat split; try (vm_compute; reflexivity).
  vm_compute. discriminate.
Qed.

(** Where the two amounts come from: for every call that returns,
    [total_due_amount] is the double sum of the principal and the
    unrounded interest, written by [toFixed(2)] and read back, and
    [interest_amount] is the unrounded interest treated the same way; each
    carries two decimals when the double it comes from is finite and below
    10^21 in magnitude. *)
Lemma total_due_rounds_unrounded_sum :
  forall (db : gmap string product) (id : string)
         (principalAmount : number) (termDays : term_argument)
         (r : loan_details),
    calculateLoanDetails db id principalAmount termDays = Returns r ->
    exists p interest,
      getProductById db id = Some p
      /\ interest = interestAmount p principalAmount (loanTermDays termDays p)
      /\ interest_amount r = round2 interest
      /\ total_due_amount r = round2 (add principalAmount interest)
      /\ (forall v, value interest = Some v ->
                    (Qabs v < inject_Z (10 ^ 21))%Q ->
                    two_decimals (interest_amount r))
      /\ (forall v, value (add principalAmount interest) = Some v ->
                    (Qabs v < inject_Z (10 ^ 21))%Q ->
                    two_decimals (total_due_amount r)).
Proof.
  intros db id principalAmount termDays r Hr.
  destruct (calculate_amounts db id principalAmount termDays r Hr)
    as (p & Hp & Hint & Htot & _).
  exists p, (interestAmount p principalAmount (loanTermDays termDays p)).
  split; [exact Hp|]. split; [reflexivity|].
  split; [exact Hint|]. split; [exact Htot|]. split.
  - intros v Hv Hlt. rewrite Hint. exact (round2_two_decimals _ v Hv Hlt).
  - intros v Hv Hlt. rewrite Htot. exact (round2_two_decimals _ v Hv Hlt).
Qed.

(** ** Integers as numbers *)

Lemma shr_1_even (n : Z) :
  0 <= n ->
  shr_1 {| shr_m := 2 * n; shr_r := false; shr_s := false |}
  = {| shr_m := n; shr_r := false; shr_s := false |}.
Proof. destruct n as [| p | p]; try lia; reflexivity. Qed.

Lemma pow2_double (k : positive) : 2 ^ Z.pos k~0 = 2 ^ Z.pos k * 2 ^ Z.pos k.
Proof. rewrite Pos2Z.inj_xO, <- Z.pow_add_r by lia. f_equal. lia. Qed.

(** Shifting out [k] zero bits is exact. *)
Lemma iter_shr_1_exact (k : positive) (m : Z) :
  0 <= m ->
  SpecFloat.iter_pos shr_1 k
    {| shr_m := m * 2 ^ Z.pos k; shr_r := false; shr_s := false |}
  = {| shr_m := m; shr_r := false; shr_s := false |}.
Proof.
  revert m. induction k as [k IH | k IH |]; intros m Hm.
  - cbn [SpecFloat.iter_pos].
    replace (m * 2 ^ Z.pos k~1) with (2 * (m * 2 ^ Z.pos k * 2 ^ Z.pos k)).
    2:{ rewrite Pos2Z.inj_xI, Z.pow_add_r by lia.
        rewrite <- Pos2Z.inj_xO, pow2_double. change (2 ^ 1) with 2. ring. }
    rewrite shr_1_even
      by (apply Z.mul_nonneg_nonneg; [apply Z.mul_nonneg_nonneg |]; lia).
    rewrite IH by (apply Z.mul_nonneg_nonneg; lia). apply IH, Hm.
  - cbn [SpecFloat.iter_pos].
    replace (m * 2 ^ Z.pos k~0) with (m * 2 ^ Z.pos k * 2 ^ Z.pos k)
      by (rewrite pow2_double; ring).
    rewrite IH by (apply Z.mul_nonneg_nonneg; lia). apply IH, Hm.
  - cbn [SpecFloat.iter_pos]. change (2 ^ 1) with 2. rewrite Z.mul_comm.
    apply shr_1_even, Hm.
Qed.

Lemma shr_fexp_exact (m e k : Z) :
  2 ^ 52 <= m < 2 ^ 53 -> 0 <= k -> -1074 <= e + k ->
  shr_fexp prec emax (m * 2 ^ k) e loc_Exact
  = ({| shr_m := m; shr_r := false; shr_s := false |}, e + k).
Proof.
  intros Hm Hk He. unfold shr_fexp.
  assert (0 < 2 ^ k) as Hpow by (apply Z.pow_pos_nonneg; lia).
  assert (2 ^ (53 + k - 1) <= m * 2 ^ k < 2 ^ (53 + k)) as Hbounds.
  { replace (53 + k - 1) with (52 + k) by lia.
    rewrite !Z.pow_add_r by lia. nia. }
  destruct (m * 2 ^ k) as [| p | p] eqn:Hp; try lia.
  simpl Zdigits2. rewrite (digits2_pos_unique p (53 + k) Hbounds).
  unfold fexp, emin, prec, emax.
  replace (Z.max (53 + k + e - 53) (3 - 1024 - 53) - e) with k by lia.
  destruct k as [| k | k]; try lia.
  - simpl shr. rewrite Z.add_0_r. f_equal. simpl.
    change (2 ^ 0) with 1 in Hp. f_equal. lia.
  - cbn [shr shr_record_of_loc]. rewrite <- Hp.
    rewrite iter_shr_1_exact by lia. reflexivity.
Qed.

(** Rounding a mantissa of 53 bits followed by [k] zero bits. *)
Lemma binary_round_aux_exact (s : bool) (m e k : Z) :
  2 ^ 52 <= m < 2 ^ 53 -> 0 <= k -> -1074 <= e + k <= 970 ->
  binary_round_aux prec emax s (m * 2 ^ k) e loc_Exact
  = S754_finite s (Z.to_pos m) (e + k).
Proof.
  intros Hm Hk He. unfold binary_round_aux.
  rewrite shr_fexp_exact by lia.
  cbn [shr_m loc_of_shr_record round_nearest_even].
  rewrite (binary_round_renormalise s m (e + k)) by lia.
  destruct (m <? 2 ^ 53) eqn:Hlt; [reflexivity |].
  apply Z.ltb_ge in Hlt. lia.
Qed.

Lemma iter_xO (d : positive) (p : positive) :
  Z.pos (Pos.iter xO p d) = Z.pos p * 2 ^ Z.pos d.
Proof.
  induction d as [| d IH] using Pos.peano_ind.
  - simpl. lia.
  - rewrite Pos.iter_succ, Pos2Z.inj_succ, Z.pow_succ_r by lia.
    rewrite Pos2Z.inj_xO, IH. ring.
Qed.

(** [binary_round] of a mantissa and exponent that stand for
    [m * 2^e], [m] of 53 bits. *)
Lemma binary_round_exact (s : bool) (mx : positive) (ex m e : Z) :
  2 ^ 52 <= m < 2 ^ 53 -> -1074 <= e <= 970 ->
  (ex <= e /\ Z.pos mx = m * 2 ^ (e - ex))
  \/ (e <= ex /\ m = Z.pos mx * 2 ^ (ex - e)) ->
  binary_round prec emax s mx ex = S754_finite s (Z.to_pos m) e.
Proof.
  intros Hm He Hvalue. unfold binary_round.
  assert (Z.pos (digits2_pos mx) + ex = 53 + e) as Hdigits.
  { destruct Hvalue as [[Hle Hmx] | [Hle Hmx]].
    - rewrite (digits2_pos_unique mx (53 + (e - ex))); [lia |].
      rewrite Hmx.
      replace (53 + (e - ex) - 1) with (52 + (e - ex)) by lia.
      rewrite !Z.pow_add_r by lia.
      assert (0 < 2 ^ (e - ex)) by (apply Z.pow_pos_nonneg; lia). nia.
    - rewrite (digits2_pos_unique mx (53 - (ex - e))); [lia |].
      assert (0 < 2 ^ (ex - e)) as Hpow by (apply Z.pow_pos_nonneg; lia).
      assert (ex - e <= 52) as Hsmall.
      { destruct (Z_le_gt_dec (ex - e) 52) as [H | H]; [exact H |].
        assert (2 ^ 53 <= 2 ^ (ex - e)) by (apply Z.pow_le_mono_r; lia).
        nia. }
      assert (2 ^ 52 = 2 ^ (53 - (ex - e) - 1) * 2 ^ (ex - e)) as H52
        by (rewrite <- Z.pow_add_r by lia; f_equal; lia).
      assert (2 ^ 53 = 2 ^ (53 - (ex - e)) * 2 ^ (ex - e)) as H53
        by (rewrite <- Z.pow_add_r by lia; f_equal; lia).
      split; nia. }
  rewrite Hdigits. unfold fexp, emin, prec, emax.
  replace (Z.max (53 + e - 53) (3 - 1024 - 53)) with e by lia.
  unfold shl_align.
  destruct Hvalue as [[Hle Hmx] | [Hle Hmx]].
  - destruct (e - ex) as [| k | k] eqn:Hk; try lia.
    + rewrite Hmx. change (2 ^ 0) with 1. rewrite Z.mul_1_r.
      replace m with (m * 2 ^ 0) at 1 by (change (2 ^ 0) with 1; lia).
      rewrite binary_round_aux_exact by lia. f_equal. lia.
    + rewrite Hmx. rewrite binary_round_aux_exact by lia. f_equal. lia.
  - destruct (e - ex) as [| k | k] eqn:Hk; try lia.
    + replace (ex - e) with 0 in Hmx by lia.
      change (2 ^ 0) with 1 in Hmx. rewrite Z.mul_1_r in Hmx. rewrite <- Hmx.
      replace m with (m * 2 ^ 0) at 1 by (change (2 ^ 0) with 1; lia).
      rewrite binary_round_aux_exact by lia. f_equal. lia.
    + rewrite iter_xO. replace (Z.pos k) with (ex - e) by lia.
      rewrite <- Hmx.
      replace m with (m * 2 ^ 0) at 1 by (change (2 ^ 0) with 1; lia).
      rewrite binary_round_aux_exact by lia. f_equal. lia.
Qed.

(** The mantissa of 53 bits and the exponent of a positive integer
    below [2^53]. *)
Lemma integer_shape (n : Z) :
  0 < n < 2 ^ 53 ->
  exists m e, 2 ^ 52 <= m < 2 ^ 53 /\ -52 <= e <= 0 /\ m = n * 2 ^ (- e).
Proof.
  intros Hn.
  destruct (Z.log2_spec n) as [Hlo Hhi]; [lia |].
  assert (0 <= Z.log2 n) as Hnonneg by apply Z.log2_nonneg.
  assert (Z.log2 n < 53) as Hlog by (apply Z.log2_lt_pow2; lia).
  exists (n * 2 ^ (52 - Z.log2 n)), (Z.log2 n - 52).
  assert (0 < 2 ^ (52 - Z.log2 n)) as Hpow by (apply Z.pow_pos_nonneg; lia).
  assert (2 ^ 52 = 2 ^ Z.log2 n * 2 ^ (52 - Z.log2 n)) as H52
    by (rewrite <- Z.pow_add_r by lia; f_equal; lia).
  assert (2 ^ 53 = 2 ^ Z.succ (Z.log2 n) * 2 ^ (52 - Z.log2 n)) as H53
    by (rewrite <- Z.pow_add_r by lia; f_equal; lia).
  repeat split; try lia; try nia.
  f_equal. f_equal. lia.
Qed.

Lemma of_Z_finite (n m e : Z) :
  2 ^ 52 <= m < 2 ^ 53 -> -52 <= e <= 0 -> m = n * 2 ^ (- e) ->
  of_Z n = S754_finite false (Z.to_pos m) e.
Proof.
  intros Hm He Hn.
  assert (0 < 2 ^ (- e)) as Hpow by (apply Z.pow_pos_nonneg; lia).
  unfold of_Z, binary_normalize.
  destruct n as [| p | p]; try nia.
  apply binary_round_exact; [lia | lia |].
  right. split; [lia |]. rewrite Z.sub_0_l. exact Hn.
Qed.

Lemma pow2_lt_exponent (a b : Z) :
  0 <= a -> 0 <= b -> 2 ^ a < 2 ^ b -> a < b.
Proof.
  intros Ha Hb H. destruct (Z_lt_ge_dec a b) as [Hlt | Hge]; [exact Hlt |].
  assert (2 ^ b <= 2 ^ a) by (apply Z.pow_le_mono_r; lia). lia.
Qed.

(** *** Integer texts and the numbers they convert to *)














(** ** The route and its preconditions *)


(** *** Texts that [isFloat] accepts hold no comma *)










(** The validation reads the text of the amount, not its value: the
    string [1234e-3] is a float literal without a point, passes, and the
    service computes on a principal of 1.234; the same amount written
    [1.234] is a validation failure. A term given as the string [0] is
    truthy and fails [isInt({ min: 1 })], unlike the number 0. *)
Example exponent_text_principal :
  (exists r,
      calculate_route seeded_products "student"
        (CalculationBody (JsonString "1234e-3") Absent) = Success r
      /\ principal_amount r = to_number (Decimal 1234 3)
      /\ total_due_amount r = to_number (Decimal 160 2))
  /\ calculate_route seeded_products "student"
       (CalculationBody (JsonNumber "1.234") Absent) = ValidationFailed
  /\ calculate_route seeded_products "student"
       (CalculationBody (JsonNumber "250") (JsonString "0"))
     = ValidationFailed.
Proof.
  split; [eexists|]; repeat split; vm_compute; reflexivity.
Qed.

(** ** Repayment allocation *)

(** C6: every allocation the allocator computes splits the payment
    exactly, in integer cents: penalty + interest + principal + overpayment
    is the amount paid; no part is negative, and the principal receives
    last what the penalty and the interest left, up to the outstanding
    principal. A strictly positive payment always has an allocation. *)
Theorem allocation_complete :
  (forall (o : outstanding) (amountPaid : Z) (a : allocation),
      allocate o amountPaid = Returns a ->
      allocation_penalty a + allocation_interest a
      + allocation_principal a + overpayment a = amountPaid
      /\ allocation_principal a
         = Z.min (amountPaid - allocation_penalty a - allocation_interest a)
                 (Z.max (outstanding_principal o) 0)
      /\ 0 <= allocation_penalty a /\ 0 <= allocation_interest a
      /\ 0 <= allocation_principal a /\ 0 <= overpayment a)
  /\ (forall (o : outstanding) (amountPaid : Z),
         0 < amountPaid -> exists a, allocate o amountPaid = Returns a).
Proof.
  split.
  - intros o amountPaid a. unfold allocate, absorb.
    destruct (amountPaid <=? 0) eqn:Hle; [discriminate|].
    apply Z.leb_gt in Hle.
    intros H. injection H as <-. simpl. repeat split; lia.
  - intros o amountPaid Hpos. unfold allocate.
    destruct (amountPaid <=? 0) eqn:Hle; [lia|]. eexists. reflexivity.
Qed.

Lemma allocation_complete_witness :
  (forall a,
      allocate (Outstanding 5000 20000 80000) 120000 = Returns a ->
      allocation_penalty a + allocation_interest a
      + allocation_principal a + overpayment a = 120000
      /\ allocation_principal a
         = Z.min (120000 - allocation_penalty a - allocation_interest a)
                 (Z.max 80000 0)
      /\ 0 <= allocation_penalty a /\ 0 <= allocation_interest a
      /\ 0 <= allocation_principal a /\ 0 <= overpayment a)
  /\ exists a, allocate (Outstanding 5000 20000 80000) 120000 = Returns a.
Proof.
  split.
  - apply (proj1 allocation_complete (Outstanding 5000 20000 80000) 120000).
  - apply (proj2 allocation_complete (Outstanding 5000 20000 80000) 120000).
    lia.
Defined.

(** The scenarios of the specification: 300 and 1200 paid against
    outstanding penalty 50, interest 200 and principal 800. *)
Example allocate_partial :
  allocate (Outstanding 5000 20000 80000) 30000
  = Returns (Allocation 5000 20000 5000 0).
Proof. reflexivity. Qed.

Example allocate_overpaid :
  allocate (Outstanding 5000 20000 80000) 120000
  = Returns (Allocation 5000 20000 80000 15000).
Proof. reflexivity. Qed.

(** ** The vault ledger *)

Section Totals.

Lemma foldr_add_app (l1 l2 : list Z) :
  foldr Z.add 0 (l1 ++ l2) = foldr Z.add 0 l1 + foldr Z.add 0 l2.
Proof. induction l1 as [|x l1 IH]; simpl; lia. Qed.

Lemma entries_total_app (t : entry_type) (tx : nat)
    (l1 l2 : list vault_transaction_entry) :
  entries_total t tx (l1 ++ l2)
  = entries_total t tx l1 + entries_total t tx l2.
Proof.
  unfold entries_total. rewrite filter_app, map_app. apply foldr_add_app.
Qed.

Lemma entries_total_cons (t : entry_type) (tx : nat)
    (e : vault_transaction_entry) (l : list vault_transaction_entry) :
  entries_total t tx (e :: l)
  = (if decide (transaction_id e = tx /\ entry_kind e = t)
     then amount e else 0)
    + entries_total t tx l.
Proof.
  unfold entries_total. rewrite filter_cons.
  destruct (decide (transaction_id e = tx /\ entry_kind e = t));
    simpl; lia.
Qed.

(** Entries of other transactions do not count. *)
Lemma entries_total_other (t : entry_type) (tx : nat)
    (l : list vault_transaction_entry) :
  Forall (fun e => transaction_id e <> tx) l -> entries_total t tx l = 0.
Proof.
  induction 1 as [|e l He _ IH]; [reflexivity|].
  rewrite entries_total_cons, IH.
  destruct (decide (transaction_id e = tx /\ entry_kind e = t)) as [[? _]|];
    [contradiction|reflexivity].
Qed.

Lemma posting_total_cons (t : entry_type) (p : posting)
    (l : list posting) :
  posting_total t (p :: l)
  = (if decide (posting_type p = t) then posting_amount p else 0)
    + posting_total t l.
Proof.
  unfold posting_total. rewrite filter_cons.
  destruct (decide (posting_type p = t)); simpl; lia.
Qed.

Lemma replay_snoc (account : string) (l : list vault_transaction_entry)
    (e : vault_transaction_entry) :
  replay account (l ++ [e])
  = if decide (vault_account_id e = account)
    then replay account l + signed (entry_kind e) (amount e)
    else replay account l.
Proof.
  unfold replay. rewrite fold_left_app. simpl.
  destruct (decide (vault_account_id e = account)) as [Heq|Hne].
  - rewrite bool_decide_eq_true_2 by exact Heq. reflexivity.
  - rewrite bool_decide_eq_false_2 by exact Hne. reflexivity.
Qed.

Lemma replay_app (account : string)
    (l rows : list vault_transaction_entry) :
  Forall (fun e => vault_account_id e <> account) rows ->
  replay account (l ++ rows) = replay account l.
Proof.
  induction rows as [|e rows IH] using rev_ind; intros Hrows.
  - rewrite app_nil_r. reflexivity.
  - apply Forall_app in Hrows as [Hrows He].
    rewrite app_assoc, replay_snoc.
    apply Forall_inv in He.
    destruct (decide (vault_account_id e = account)); [contradiction|].
    apply IH, Hrows.
Qed.

(** An account no entry refers to replays to zero. *)
Lemma replay_unreferenced (account : string)
    (l : list vault_transaction_entry) :
  Forall (fun e => vault_account_id e <> account) l ->
  replay account l = 0.
Proof. intros H. apply (replay_app account [] l H). Qed.

End Totals.

Section Ledger.

Lemma posted_refl (tx : nat) (db : database) : posted tx db db [].
Proof.
  split; try reflexivity; auto.
  rewrite app_nil_r. reflexivity.
Qed.

Lemma posted_trans (tx : nat) (db db1 db2 : database)
    (rows1 rows2 : list vault_transaction_entry) :
  posted tx db db1 rows1 -> posted tx db1 db2 rows2 ->
  posted tx db db2 (rows1 ++ rows2).
Proof.
  intros [Ht1 He1 Hr1 Ha1 Hf1 Hb1] [Ht2 He2 Hr2 Ha2 Hf2 Hb2]. split.
  - congruence.
  - rewrite He2, He1, app_assoc. reflexivity.
  - apply Forall_app. split; [exact Hr1|].
    eapply Forall_impl; [exact Hr2|].
    intros r [Hid Hacc]. split; [exact Hid|]. apply Ha1, Hacc.
  - intros account. rewrite Ha2. apply Ha1.
  - intros account Hrows. apply Forall_app in Hrows as [H1 H2].
    rewrite (Hf2 account H2). apply Hf1, H1.
  - auto.
Qed.

(** The trigger after an insert: the balance of the account of the new
    row becomes its [balance_after], the other accounts keep theirs. *)
Lemma insert_entry_balance (row : vault_transaction_entry)
    (db db' : database) :
  insert_entry row db = (Returns tt, db') ->
  getBalance db' (vault_account_id row) = Some (balance_after row)
  /\ forall account,
       account <> vault_account_id row ->
       getBalance db' account = getBalance db account.
Proof.
  unfold insert_entry, getBalance.
  destruct (vault_accounts db !! vault_account_id row) as [a|] eqn:Ha;
    [|discriminate].
  destruct (vault_transactions db !! transaction_id row); [|discriminate].
  intros H. injection H as <-. simpl. split.
  - rewrite lookup_alter_eq, Ha. reflexivity.
  - intros account Hne. rewrite lookup_alter_ne by congruence. reflexivity.
Qed.

(** One entry of a posting. *)
Lemma post_entry_posted (tx : nat) (p : posting) (db db' : database)
    (res : outcome unit ledger_error) :
  post_entry tx p db = (res, db') ->
  exists rows,
    posted tx db db' rows
    /\ (res = Returns tt ->
        forall t, entries_total t tx rows = posting_total t [p]).
Proof.
  unfold post_entry, insert_entry.
  destruct (vault_accounts db !! posting_account p) as [a|] eqn:Ha.
  2:{ intros H. injection H as <- <-. exists []. split;
        [apply posted_refl|discriminate]. }
  simpl. rewrite Ha.
  destruct (vault_transactions db !! tx) as [t0|] eqn:Htx.
  2:{ intros H. injection H as <- <-. exists []. split;
        [apply posted_refl|discriminate]. }
  intros H. injection H as <- <-.
  exists [posted_row tx p (current_balance a)]. split.
  - split; simpl.
    + reflexivity.
    + reflexivity.
    + constructor; [|constructor]. simpl. split; [reflexivity|]. eauto.
    + intros account.
      destruct (decide (posting_account p = account)) as [<-|Hne].
      * rewrite lookup_alter_eq, Ha. simpl. split; eauto.
      * rewrite lookup_alter_ne by exact Hne. reflexivity.
    + intros account Hrows. apply Forall_inv in Hrows. simpl in Hrows.
      rewrite lookup_alter_ne by exact Hrows. reflexivity.
    + intros Hbal account a' Hlook. simpl in *.
      rewrite replay_snoc. simpl.
      destruct (decide (posting_account p = account)) as [<-|Hne].
      * rewrite lookup_alter_eq, Ha in Hlook. simpl in Hlook.
        injection Hlook as <-. simpl.
        rewrite (Hbal _ _ Ha). reflexivity.
      * rewrite lookup_alter_ne in Hlook by exact Hne.
        apply Hbal, Hlook.
  - intros _ t. rewrite entries_total_cons, posting_total_cons. simpl.
    unfold entries_total, posting_total. simpl.
    destruct (decide (tx = tx /\ posting_type p = t)) as [[_ Ht]|Hn];
      destruct (decide (posting_type p = t)) as [Ht'|Ht'];
      try reflexivity; try contradiction.
    exfalso. apply Hn. split; [reflexivity|exact Ht'].
Qed.

(** All the entries of a posting. *)
Lemma post_entries_posted (tx : nat) (entries : list posting) :
  forall (db db' : database) (res : outcome unit ledger_error),
    post_entries tx entries db = (res, db') ->
    exists rows,
      posted tx db db' rows
      /\ (res = Returns tt ->
          forall t, entries_total t tx rows = posting_total t entries).
Proof.
  induction entries as [|p entries IH]; intros db db' res; simpl.
  - unfold ret. intros H. injection H as <- <-. exists []. split;
      [apply posted_refl|reflexivity].
  - unfold bind.
    destruct (post_entry tx p db) as [[[]|e] db1] eqn:Hp.
    + destruct (post_entry_posted tx p db db1 _ Hp) as (rows1 & H1 & Ht1).
      intros Hrest.
      destruct (IH db1 db' res Hrest) as (rows2 & H2 & Ht2).
      exists (rows1 ++ rows2). split; [eapply posted_trans; eauto|].
      intros Hres t.
      rewrite entries_total_app, (Ht1 eq_refl t), (Ht2 Hres t).
      rewrite !posting_total_cons.
      change (posting_total t []) with 0. lia.
    + intros H. injection H as <- <-.
      destruct (post_entry_posted tx p db db1 _ Hp) as (rows1 & H1 & _).
      exists rows1. split; [exact H1|discriminate].
Qed.

End Ledger.

Section Invariant.

Lemma empty_database_invariant : ledger_invariant empty_database.
Proof.
  split; simpl.
  - constructor.
  - constructor.
  - intros tx. reflexivity.
  - intros account a H. simpl in H. rewrite lookup_empty in H.
    discriminate.
Qed.

(** A posting that fails leaves the database as it found it. *)
Lemma post_throws_unchanged (kind : transaction_type)
    (entries : list posting) (db db' : database) (e : ledger_error) :
  post kind entries db = (Throws e, db') -> db' = db.
Proof.
  unfold post, atomically.
  destruct (balanced_postings entries).
  - destruct (bind _ _ db) as [[tx|e'] db1]; intros H; congruence.
  - unfold raise. intros H. congruence.
Qed.

Lemma balanced_postings_totals (entries : list posting) :
  balanced_postings entries = true ->
  posting_total debit entries = posting_total credit entries.
Proof.
  unfold balanced_postings. intros H.
  apply andb_prop in H as [_ H]. apply Z.eqb_eq, H.
Qed.

(** A posting that returns created the rows of one new transaction. *)
Lemma post_returns (kind : transaction_type) (entries : list posting)
    (db db' : database) (tx : nat) :
  post kind entries db = (Returns tx, db') ->
  tx = length (vault_transactions db)
  /\ balanced_postings entries = true
  /\ exists rows,
       vault_transaction_entries db'
       = vault_transaction_entries db ++ rows
       /\ length (vault_transactions db') = S tx
       /\ Forall (fun r => transaction_id r = tx
                           /\ is_Some (vault_accounts db
                                       !! vault_account_id r)) rows
       /\ (forall account,
              is_Some (vault_accounts db' !! account)
              <-> is_Some (vault_accounts db !! account))
       /\ (forall account,
              Forall (fun r => vault_account_id r <> account) rows ->
              vault_accounts db' !! account = vault_accounts db !! account)
       /\ (balance_replayed db -> balance_replayed db')
       /\ (forall t, entries_total t tx rows = posting_total t entries).
Proof.
  unfold post, atomically.
  destruct (balanced_postings entries) eqn:Hbal;
    [|unfold raise; discriminate].
  unfold bind at 1. unfold insert_transaction at 1.
  set (db1 := {| vault_accounts := vault_accounts db;
                 vault_transactions := _;
                 vault_transaction_entries := vault_transaction_entries db |}).
  unfold bind.
  destruct (post_entries (length (vault_transactions db)) entries db1)
    as [[[]|e] db2] eqn:Hpost; unfold ret; intros H; [|discriminate].
  injection H as <- <-.
  destruct (post_entries_posted _ _ _ _ _ Hpost)
    as (rows & [Ht He Hr Ha Hf Hb] & Htot).
  split; [reflexivity|]. split; [reflexivity|].
  exists rows. repeat split.
  - exact He.
  - rewrite Ht. unfold db1. simpl. rewrite length_app. simpl. lia.
  - exact Hr.
  - apply Ha.
  - apply Ha.
  - exact Hf.
  - intros Hdb. apply Hb. exact Hdb.
  - apply Htot. reflexivity.
Qed.

Lemma post_invariant (kind : transaction_type) (entries : list posting)
    (db : database) :
  ledger_invariant db -> ledger_invariant (snd (post kind entries db)).
Proof.
  intros Hinv.
  destruct (post kind entries db) as [[tx|e] db'] eqn:Hpost; simpl.
  2:{ rewrite (post_throws_unchanged _ _ _ _ _ Hpost). exact Hinv. }
  destruct (post_returns _ _ _ _ _ Hpost)
    as (-> & Hbal & rows & He & Hlen & Hr & Ha & _ & Hb & Htot).
  destruct Hinv as [Itx Iacc Ibal Irep].
  split.
  - rewrite He, Hlen. apply Forall_app. split.
    + eapply Forall_impl; [exact Itx|]. simpl. intros r Hlt. lia.
    + eapply Forall_impl; [exact Hr|]. simpl. intros r [-> _]. lia.
  - rewrite He. apply Forall_app. split.
    + eapply Forall_impl; [exact Iacc|]. simpl. intros r Hs. apply Ha, Hs.
    + eapply Forall_impl; [exact Hr|]. simpl. intros r [_ Hs]. apply Ha, Hs.
  - intros tx. unfold balanced_transaction. rewrite He.
    rewrite !entries_total_app.
    destruct (decide (tx = length (vault_transactions db))) as [->|Hne].
    + rewrite !(entries_total_other _ _ (vault_transaction_entries db)).
      * rewrite !Htot. simpl. apply balanced_postings_totals, Hbal.
      * eapply Forall_impl; [exact Itx|]. simpl. intros r Hlt. lia.
      * eapply Forall_impl; [exact Itx|]. simpl. intros r Hlt. lia.
    + rewrite !(entries_total_other _ _ rows).
      * rewrite !Z.add_0_r. apply Ibal.
      * eapply Forall_impl; [exact Hr|]. simpl. intros r [-> _]. congruence.
      * eapply Forall_impl; [exact Hr|]. simpl. intros r [-> _]. congruence.
  - apply Hb, Irep.
Qed.

Lemma insert_account_invariant (id : string) (kind : account_type)
    (db : database) :
  ledger_invariant db ->
  ledger_invariant (snd (insert_account id kind db)).
Proof.
  intros [Itx Iacc Ibal Irep]. unfold insert_account.
  destruct (vault_accounts db !! id) as [a|] eqn:Hid; simpl.
  - split; assumption.
  - split; simpl.
    + exact Itx.
    + eapply Forall_impl; [exact Iacc|]. simpl. intros r Hs.
      apply lookup_insert_is_Some'. right. exact Hs.
    + exact Ibal.
    + intros account a Hlook. simpl in *.
      destruct (decide (id = account)) as [<-|Hne].
      * rewrite lookup_insert_eq in Hlook. injection Hlook as <-. simpl.
        symmetry. apply replay_unreferenced.
        eapply Forall_impl; [exact Iacc|]. simpl.
        intros r [a' Ha'] Heq. rewrite Heq, Hid in Ha'. discriminate.
      * rewrite lookup_insert_ne in Hlook by exact Hne.
        apply Irep, Hlook.
Qed.

Lemma run_invariant (c : command) (db : database) :
  ledger_invariant db -> ledger_invariant (run c db).
Proof.
  destruct c as [id kind|kind entries]; simpl.
  - apply insert_account_invariant.
  - apply post_invariant.
Qed.

Lemma run_all_invariant (cs : list command) :
  forall db, ledger_invariant db -> ledger_invariant (run_all cs db).
Proof.
  induction cs as [|c cs IH]; intros db Hinv; simpl.
  - exact Hinv.
  - apply IH, run_invariant, Hinv.
Qed.

End Invariant.

(** The disbursement scenario: one balanced transaction, each entry with
    the balance after it. *)
Example disbursement_entries :
  vault_transaction_entries (run_all disbursement_scenario empty_database)
  = [ VaultTransactionEntry 0 "Loan Fund" debit 100000 (-100000);
      VaultTransactionEntry 0 "Main Cash Vault" credit 100000 100000 ]
  /\ getBalance (run_all disbursement_scenario empty_database) "Loan Fund"
     = Some (-100000)
  /\ getBalance (run_all disbursement_scenario empty_database)
       "Main Cash Vault" = Some 100000.
Proof. repeat split; vm_compute; reflexivity. Qed.

(** C7: in every ledger reached by opening accounts and posting, the debit
    entries of each transaction sum to exactly what its credit entries sum
    to; a posting whose debits and credits differ is rejected as a
    constraint violation and leaves the database as it was. *)
Theorem posted_transactions_balance :
  (forall (cs : list command) (tx : nat),
      entries_total debit tx
        (vault_transaction_entries (run_all cs empty_database))
      = entries_total credit tx
          (vault_transaction_entries (run_all cs empty_database)))
  /\ (forall (kind : transaction_type) (entries : list posting)
             (db : database),
         posting_total debit entries <> posting_total credit entries ->
         post kind entries db = (Throws ConstraintViolation, db)).
Proof.
  split.
  - intros cs tx.
    apply (transactions_balanced _
             (run_all_invariant cs _ empty_database_invariant) tx).
  - intros kind entries db Hne. unfold post, atomically.
    destruct (balanced_postings entries) eqn:Hbal.
    + exfalso. apply Hne, balanced_postings_totals, Hbal.
    + reflexivity.
Qed.

Lemma posted_transactions_balance_witness :
  entries_total debit 0
    (vault_transaction_entries (run_all disbursement_scenario empty_database))
  = entries_total credit 0
      (vault_transaction_entries
         (run_all disbursement_scenario empty_database))
  /\ post loan_repayment
       [ Posting "Main Cash Vault" credit 30000;
         Posting "Loan Fund" debit 25000 ]
       (run_all disbursement_scenario empty_database)
     = (Throws ConstraintViolation,
        run_all disbursement_scenario empty_database).
Proof.
  split.
  - apply (proj1 posted_transactions_balance disbursement_scenario 0%nat).
  - apply (proj2 posted_transactions_balance).
    vm_compute. discriminate.
Defined.

(** C8: in every ledger reached by opening accounts and posting, the
    [current_balance] of each account is the replay of its entries in
    creation order, summing their signed amounts; and an operation changes
    the balance of an account only by creating an entry for it. *)
Theorem balance_replays_entries :
  (forall (cs : list command) (account : string) (a : vault_account),
      vault_accounts (run_all cs empty_database) !! account = Some a ->
      current_balance a
      = replay account
          (vault_transaction_entries (run_all cs empty_database)))
  /\ (forall (c : command) (db : database),
         exists rows,
           vault_transaction_entries (run c db)
           = vault_transaction_entries db ++ rows
           /\ forall (account : string) (a : vault_account),
                vault_accounts db !! account = Some a ->
                Forall (fun r => vault_account_id r <> account) rows ->
                vault_accounts (run c db) !! account = Some a).
Proof.
  split.
  - intros cs.
    apply (balances_replayed _
             (run_all_invariant cs _ empty_database_invariant)).
  - intros [id kind|kind entries] db; simpl.
    + exists []. rewrite app_nil_r. unfold insert_account.
      destruct (vault_accounts db !! id) as [a0|] eqn:Hid; simpl.
      * split; [reflexivity|]. intros account a Ha _. exact Ha.
      * split; [reflexivity|]. intros account a Ha _.
        rewrite lookup_insert_ne; [exact Ha|]. congruence.
    + destruct (post kind entries db) as [[tx|e] db'] eqn:Hpost; simpl.
      * destruct (post_returns _ _ _ _ _ Hpost)
          as (_ & _ & rows & He & _ & _ & _ & Hf & _).
        exists rows. split; [exact He|].
        intros account a Ha Hrows. rewrite (Hf account Hrows). exact Ha.
      * rewrite (post_throws_unchanged _ _ _ _ _ Hpost).
        exists []. rewrite app_nil_r. split; [reflexivity|].
        intros account a Ha _. exact Ha.
Qed.

Lemma balance_replays_entries_witness :
  current_balance (VaultAccount loan_fund (-100000))
  = replay "Loan Fund"
      (vault_transaction_entries
         (run_all disbursement_scenario empty_database)).
Proof.
  apply (proj1 balance_replays_entries disbursement_scenario "Loan Fund"
           (VaultAccount loan_fund (-100000))).
  vm_compute. reflexivity.
Defined.

(** ** Authentication and authorization *)

Lemma includes_elem (roles : list Auth.role) (r : option Auth.role) :
  Auth.includes roles r = true <-> exists a, r = Some a /\ a ∈ roles.
Proof.
  destruct r as [r|]; simpl.
  - rewrite bool_decide_eq_true. split.
    + intros H. exists r. auto.
    + intros (a & [= ->] & H). exact H.
  - split; [discriminate | intros (a & H & _); discriminate].
Qed.

Lemma authorizeRoles_next (allowedRoles : list Auth.role)
    (u : Auth.request_user) :
  Auth.authorizeRoles allowedRoles (Some u) = Auth.Next
  <-> exists a, a ∈ allowedRoles
                /\ Auth.ROLE_HIERARCHY a <= Auth.role_level (Auth.role_of u).
Proof.
  unfold Auth.authorizeRoles.
  destruct (Auth.includes allowedRoles (Auth.role_of u)) eqn:Hin.
  - split; [intros _ | reflexivity].
    apply includes_elem in Hin as (a & Hrole & Ha).
    exists a. split; [exact Ha |]. rewrite Hrole. simpl. lia.
  - destruct (existsb _ allowedRoles) eqn:Hex.
    + split; [intros _ | reflexivity].
      apply existsb_exists in Hex as (a & Ha & Hle).
      exists a. split; [apply list_elem_of_In; exact Ha | lia].
    + split; [discriminate |].
      intros (a & Ha & Hle).
      assert (existsb
                (fun allowedRole =>
                   Auth.ROLE_HIERARCHY allowedRole
                   <=? Auth.role_level (Auth.role_of u)) allowedRoles = true)
        as Hyes.
      { apply existsb_exists. exists a.
        split; [apply list_elem_of_In; exact Ha | lia]. }
      cbv zeta in Hex. congruence.
Qed.

Lemma authorizeRoles_verdicts (allowedRoles : list Auth.role)
    (u : Auth.request_user) :
  Auth.authorizeRoles allowedRoles (Some u) = Auth.Next
  \/ Auth.authorizeRoles allowedRoles (Some u) = Auth.Forbidden.
Proof.
  unfold Auth.authorizeRoles.
  destruct (Auth.includes _ _); [auto |].
  destruct (existsb _ _); auto.
Qed.

(** X1. [authorizeRoles(allowedRoles)] lets an authenticated user through
    exactly when some allowed role stands at or below the level of the
    user's role in [ROLE_HIERARCHY]; every other authenticated user is
    answered 403. Being listed matters only through the level. *)
Theorem authorizeRoles_admits_by_level (allowedRoles : list Auth.role)
    (u : Auth.request_user) :
  (Auth.authorizeRoles allowedRoles (Some u) = Auth.Next
   <-> exists a, a ∈ allowedRoles
                 /\ Auth.ROLE_HIERARCHY a
                    <= Auth.role_level (Auth.role_of u))
  /\ (Auth.authorizeRoles allowedRoles (Some u) <> Auth.Next
      -> Auth.authorizeRoles allowedRoles (Some u) = Auth.Forbidden).
Proof.
  split; [apply authorizeRoles_next |].
  destruct (authorizeRoles_verdicts allowedRoles u) as [H | H];
    rewrite H; [intros Hne; contradiction | reflexivity].
Qed.

(** X2. Access through [authorizeRoles] is upward closed: a guard that
    lets one user through lets through every user whose role stands at
    least as high in [ROLE_HIERARCHY]. *)
Theorem authorizeRoles_upward_closed (allowedRoles : list Auth.role)
    (u u' : Auth.request_user) :
  Auth.authorizeRoles allowedRoles (Some u) = Auth.Next ->
  Auth.role_level (Auth.role_of u) <= Auth.role_level (Auth.role_of u') ->
  Auth.authorizeRoles allowedRoles (Some u') = Auth.Next.
Proof.
  intros Hu Hle.
  apply authorizeRoles_next in Hu as (a & Ha & Hlevel).
  apply authorizeRoles_next. exists a. split; [exact Ha | lia].
Qed.

Lemma authorizeRoles_upward_closed_witness :
  Auth.authorizeRoles [Auth.collection_officer]
    (Some (Auth.staff_member "amina" (Some Auth.admin))) = Auth.Next.
Proof.
  apply (authorizeRoles_upward_closed [Auth.collection_officer]
           (Auth.staff_member "brian" (Some Auth.collection_officer))).
  - reflexivity.
  - simpl. lia.
Defined.

(** X3. [authorizeRoles] with no allowed role (its default argument)
    refuses every authenticated user, the superuser included, and a user
    whose role is NULL is refused by every guard. *)
Theorem authorizeRoles_refuses (allowedRoles : list Auth.role)
    (u : Auth.request_user) :
  allowedRoles = [] \/ Auth.role_of u = None ->
  Auth.authorizeRoles allowedRoles (Some u) = Auth.Forbidden.
Proof.
  intros H.
  destruct (authorizeRoles_verdicts allowedRoles u) as [Hnext | Hno];
    [| exact Hno].
  apply authorizeRoles_next in Hnext as (a & Ha & Hle).
  destruct H as [-> | Hnull].
  - apply elem_of_nil in Ha. contradiction.
  - rewrite Hnull in Hle. simpl in Hle. destruct a; simpl in Hle; lia.
Qed.

Lemma authorizeRoles_refuses_witness :
  Auth.authorizeRoles []
    (Some (Auth.staff_member "root" (Some Auth.superuser))) = Auth.Forbidden.
Proof. apply authorizeRoles_refuses. left. reflexivity. Defined.

(** X4. The four fixed guards for loan officers and above
    ([authorizeLoanOfficerOrAbove], [authorizeBorrowerUpdate],
    [authorizeKycStatusUpdate], [authorizeBorrowerCreation]) decide every
    request as [authorizeRoles(['loan_officer', 'admin', 'superuser'])]
    does, the guard of the borrower routes: all of them let through the
    roles at level 3 or above, the auditor's among them. *)
Theorem loan_officer_guards_agree (user : option Auth.request_user) :
  let guard :=
    Auth.authorizeRoles [Auth.loan_officer; Auth.admin; Auth.superuser] in
  Auth.authorizeLoanOfficerOrAbove user = guard user
  /\ Auth.authorizeBorrowerUpdate user = guard user
  /\ Auth.authorizeKycStatusUpdate user = guard user
  /\ Auth.authorizeBorrowerCreation user = guard user
  /\ (guard user = Auth.Next
      <-> exists u, user = Some u /\ 3 <= Auth.role_level (Auth.role_of u)).
Proof.
  destruct user as [u|]; cbv zeta.
  - destruct u as [id n e [r|] v s p].
    + destruct r; repeat split; try reflexivity; try discriminate;
        try (intros _; eexists; split; [reflexivity | simpl; lia]);
        intros (u & [= <-] & Hle); simpl in Hle; lia.
    + repeat split; try reflexivity; try discriminate.
      intros (u & [= <-] & Hle); simpl in Hle; lia.
  - repeat split; try reflexivity; try discriminate.
    intros (u & H & _). discriminate.
Qed.

(** X5. The three fixed guards for administrators
    ([authorizeAdminOrSuperuser], [authorizeBorrowerBlacklist],
    [authorizeBorrowerDeletion]) decide every request as
    [authorizeRoles(['admin', 'superuser'])] does, the guard of the
    statistics, blacklist, reactivation and deletion routes: the admin and
    the superuser pass, nobody else. *)
Theorem admin_guards_agree (user : option Auth.request_user) :
  let guard := Auth.authorizeRoles [Auth.admin; Auth.superuser] in
  Auth.authorizeAdminOrSuperuser user = guard user
  /\ Auth.authorizeBorrowerBlacklist user = guard user
  /\ Auth.authorizeBorrowerDeletion user = guard user
  /\ (guard user = Auth.Next
      <-> exists u, user = Some u
                    /\ (Auth.role_of u = Some Auth.admin
                        \/ Auth.role_of u = Some Auth.superuser)).
Proof.
  destruct user as [u|]; cbv zeta.
  - destruct u as [id n e [r|] v s p].
    + destruct r; repeat split; try reflexivity; try discriminate;
        try (intros _; eexists; split; [reflexivity | simpl; auto]);
        intros (u & [= <-] & [H | H]); simpl in H; discriminate.
    + repeat split; try reflexivity; try discriminate.
      intros (u & [= <-] & [H | H]); simpl in H; discriminate.
  - repeat split; try reflexivity; try discriminate.
    intros (u & H & _). discriminate.
Qed.

(** X6. [authorizeBorrowerAccess] decides every request as
    [authorizeRoles] with the five staff roles does, the guard of the
    borrower list and detail routes (every role but customer passes), and
    [authorizeSuperuser] as [authorizeRoles(['superuser'])] does. *)
Theorem staff_and_superuser_guards_agree (user : option Auth.request_user) :
  Auth.authorizeBorrowerAccess user
  = Auth.authorizeRoles
      [Auth.loan_officer; Auth.collection_officer; Auth.auditor; Auth.admin;
       Auth.superuser] user
  /\ Auth.authorizeSuperuser user = Auth.authorizeRoles [Auth.superuser] user
  /\ (Auth.authorizeBorrowerAccess user = Auth.Next
      <-> exists u r, user = Some u /\ Auth.role_of u = Some r
                      /\ r <> Auth.customer).
Proof.
  destruct user as [u|].
  - destruct u as [id n e [r|] v s p].
    + destruct r; repeat split; try reflexivity; try discriminate;
        try (intros _; eexists; eexists;
             split; [reflexivity | split; [reflexivity | discriminate]]);
        intros (u & r & [= <-] & [= <-] & Hr); contradiction.
    + repeat split; try reflexivity; try discriminate.
      intros (u & r & [= <-] & Hr & _). discriminate.
  - repeat split; try reflexivity; try discriminate.
    intros (u & r & H & _). discriminate.
Qed.

(** X7. The two readings of "loan officer or above" differ on auditors:
    the level-based guards let an auditor create and update borrowers,
    while [authorizeOwnResourceOrElevated], which looks for the role in
    the list, refuses an auditor any resource but their own. *)
Theorem auditor_between_guards (u : Auth.request_user)
    (targetUserId : option string) :
  Auth.role_of u = Some Auth.auditor ->
  targetUserId <> Some (Auth.userId u) ->
  Auth.authorizeBorrowerCreation (Some u) = Auth.Next
  /\ Auth.authorizeBorrowerUpdate (Some u) = Auth.Next
  /\ Auth.authorizeRoles [Auth.loan_officer; Auth.admin; Auth.superuser]
       (Some u) = Auth.Next
  /\ Auth.authorizeOwnResourceOrElevated targetUserId (Some u)
     = Auth.Forbidden.
Proof.
  intros Hrole Hother.
  unfold Auth.authorizeBorrowerCreation, Auth.authorizeBorrowerUpdate,
    Auth.authorizeRoles, Auth.authorizeOwnResourceOrElevated.
  rewrite Hrole. simpl.
  rewrite bool_decide_eq_false_2 by exact Hother.
  repeat split; reflexivity.
Qed.

Lemma auditor_between_guards_witness :
  Auth.authorizeBorrowerCreation
    (Some (Auth.staff_member "chipo" (Some Auth.auditor))) = Auth.Next
  /\ Auth.authorizeOwnResourceOrElevated (Some "amina")
       (Some (Auth.staff_member "chipo" (Some Auth.auditor))) = Auth.Forbidden.
Proof.
  destruct (auditor_between_guards
              (Auth.staff_member "chipo" (Some Auth.auditor)) (Some "amina"))
    as (H1 & _ & _ & H4).
  - reflexivity.
  - discriminate.
  - split; [exact H1 | exact H4].
Defined.

Lemma substring_all (s : string) : String.substring 0 (String.length s) s = s.
Proof. induction s as [| c s IH]; simpl; [| rewrite IH]; reflexivity. Qed.

(** A string with a given prefix is the prefix followed by the rest. *)
Lemma prefix_split (p h : string) :
  String.prefix p h = true ->
  h = p +:+ String.substring (String.length p)
              (String.length h - String.length p) h.
Proof.
  revert h. induction p as [| a p IH]; intros h.
  - intros _. simpl. rewrite Nat.sub_0_r, substring_all. reflexivity.
  - destruct h as [| b h]; [discriminate |]. simpl String.prefix.
    destruct (Ascii.ascii_dec a b) as [-> | _]; [| discriminate].
    intros H. rewrite (IH h H) at 1. reflexivity.
Qed.

Section Authentication.

Variable verify : string -> Auth.jwt_verification.
Variable users : gmap string Auth.user.
Variable sessions : gmap string Auth.session.
Variable CURRENT_TIMESTAMP : Z.

Lemma validateSessionAndGetUser_active (token : string)
    (sessionData : Auth.session_data) :
  Auth.validateSessionAndGetUser users sessions CURRENT_TIMESTAMP token
  = Some sessionData ->
  Auth.is_true (Auth.data_user_active sessionData) = true.
Proof.
  unfold Auth.validateSessionAndGetUser.
  destruct (sessions !! token) as [s|]; [| discriminate].
  destruct (users !! Auth.session_user_id s) as [a|]; [| discriminate].
  destruct (Auth.is_true (Auth.session_is_active s)
            && (CURRENT_TIMESTAMP <? Auth.session_expires_at s)
            && Auth.is_true (Auth.user_is_active a)) eqn:Hok;
    [| discriminate].
  intros [= <-]. simpl.
  apply andb_true_iff in Hok as [_ Hactive]. exact Hactive.
Qed.

Lemma authenticateToken_user (authorization : option string)
    (u : Auth.request_user) (v : Auth.verdict) :
  Auth.authenticateToken verify users sessions CURRENT_TIMESTAMP
    authorization = (Some u, v) ->
  v = Auth.Next /\ Auth.permissions u = None.
Proof.
  unfold Auth.authenticateToken.
  destruct authorization as [h|]; [| discriminate].
  destruct (negb (String.prefix "Bearer " h)); [discriminate |].
  destruct (verify _); try discriminate.
  destruct (Auth.validateSessionAndGetUser _ _ _ _) as [d|];
    [| discriminate].
  destruct (negb (Auth.is_true (Auth.data_user_active d)));
    [discriminate |].
  intros [= <- <-]. split; reflexivity.
Qed.

(** X8. [authenticateToken] never answers 403: the session query joins
    active users only, so the account of a deactivated user is answered
    401 like a missing session, and the check of [user_active] can not
    fail. *)
Theorem authenticateToken_never_forbidden (authorization : option string) :
  snd (Auth.authenticateToken verify users sessions CURRENT_TIMESTAMP
         authorization) <> Auth.Forbidden.
Proof.
  unfold Auth.authenticateToken.
  destruct authorization as [h|]; [| discriminate].
  destruct (negb (String.prefix "Bearer " h)); [discriminate |].
  destruct (verify _); try discriminate.
  destruct (Auth.validateSessionAndGetUser _ _ _ _) as [d|] eqn:Hd;
    [| discriminate].
  apply validateSessionAndGetUser_active in Hd. rewrite Hd. discriminate.
Qed.

(** X9. Behind [authenticateToken], [authorizePermissions] with at least
    one required permission lets through superusers only: the user object
    that authentication attaches carries no [permissions], whatever the
    [permissions] column of the account holds. *)
Theorem authorizePermissions_superuser_only (authorization : option string)
    (requiredPermissions : list string) :
  requiredPermissions <> [] ->
  Auth.authenticated_then
    (Auth.authenticateToken verify users sessions CURRENT_TIMESTAMP
       authorization)
    (Auth.authorizePermissions requiredPermissions) = Auth.Next
  <-> exists u,
        Auth.authenticateToken verify users sessions CURRENT_TIMESTAMP
          authorization = (Some u, Auth.Next)
        /\ Auth.role_of u = Some Auth.superuser.
Proof.
  intros Hrequired.
  destruct (Auth.authenticateToken verify users sessions CURRENT_TIMESTAMP
              authorization) as [user v] eqn:Hauth.
  destruct requiredPermissions as [| permission rest]; [contradiction |].
  destruct user as [u|].
  - destruct (authenticateToken_user _ _ _ Hauth) as [-> Hnone].
    unfold Auth.authenticated_then, Auth.authorizePermissions.
    rewrite Hnone. simpl.
    destruct (bool_decide (Auth.role_of u = Some Auth.superuser)) eqn:Hsuper.
    + apply bool_decide_eq_true in Hsuper.
      split; [intros _; exists u; auto | reflexivity].
    + apply bool_decide_eq_false in Hsuper.
      rewrite bool_decide_eq_false_2 by set_solver. simpl.
      split; [discriminate |].
      intros (u' & [= <-] & Hrole). contradiction.
  - unfold Auth.authenticated_then, Auth.authorizePermissions.
    split.
    + destruct v; discriminate.
    + intros (u & [= ] & _).
Qed.

(** X10. Logging out revokes the token: after [logoutUser] with an
    Authorization header, [authenticateToken] does not let a request with
    that header through, at any time and whatever [jwt.verify] says,
    while the sessions of all other tokens are as they were. *)
Theorem logout_revokes_token (authorization : option string)
    (later : Z) :
  let sessions' := snd (Auth.logoutUser authorization sessions) in
  snd (Auth.authenticateToken verify users sessions' later authorization)
  <> Auth.Next
  /\ forall token,
       authorization <> Some ("Bearer " +:+ token) ->
       sessions' !! token = sessions !! token.
Proof.
  cbv zeta. unfold Auth.logoutUser, Auth.authenticateToken.
  destruct authorization as [h|];
    [| split; [discriminate | reflexivity]].
  destruct (String.prefix "Bearer " h) eqn:Hprefix; cbn [negb];
    [| split; [discriminate | reflexivity]].
  set (token := String.substring 7 (String.length h - 7) h).
  unfold Auth.deactivateSessionByToken. cbn [snd]. split.
  - destruct (verify token); try discriminate.
    unfold Auth.validateSessionAndGetUser. rewrite lookup_alter_eq.
    destruct (sessions !! token) as [s|]; [| discriminate]. simpl.
    destruct (users !! Auth.session_user_id s); discriminate.
  - intros other Hother. apply lookup_alter_ne.
    intros <-. apply Hother. f_equal.
    apply (prefix_split "Bearer " h Hprefix).
Qed.

(** X11. Nobody authenticates as a deactivated user: after
    [deactivateUser], [authenticateToken] attaches no user with the id of
    the deactivated account, whatever token is presented. *)
Theorem deactivated_user_locked_out (userId : string)
    (authorization : option string) (u : Auth.request_user)
    (v : Auth.verdict) :
  Auth.authenticateToken verify (snd (Auth.deactivateUser userId users))
    sessions CURRENT_TIMESTAMP authorization = (Some u, v) ->
  Auth.userId u <> userId.
Proof.
  unfold Auth.authenticateToken.
  destruct authorization as [h|]; [| discriminate].
  destruct (negb (String.prefix "Bearer " h)); [discriminate |].
  destruct (verify _); try discriminate.
  unfold Auth.validateSessionAndGetUser, Auth.deactivateUser. cbn [snd].
  destruct (sessions !! _) as [s|]; [| discriminate].
  destruct (decide (Auth.session_user_id s = userId)) as [<- | Hother].
  - rewrite lookup_alter_eq.
    destruct (users !! Auth.session_user_id s) as [a|]; [| discriminate].
    simpl. rewrite andb_false_r. discriminate.
  - rewrite lookup_alter_ne by congruence.
    destruct (users !! Auth.session_user_id s) as [a|]; [| discriminate].
    destruct (_ && _); [| discriminate].
    simpl. destruct (negb _); [discriminate |].
    intros [= <- _]. simpl. exact Hother.
Qed.

End Authentication.

Lemma authorizePermissions_superuser_only_witness :
  Auth.authenticated_then
    (Auth.authenticateToken (fun _ => Auth.Verified) Auth.sample_users
       Auth.sample_sessions 10 (Some "Bearer token-1"))
    (Auth.authorizePermissions ["can_manage_vault"]) = Auth.Next
  <-> exists u,
        Auth.authenticateToken (fun _ => Auth.Verified) Auth.sample_users
          Auth.sample_sessions 10 (Some "Bearer token-1")
        = (Some u, Auth.Next)
        /\ Auth.role_of u = Some Auth.superuser.
Proof.
  apply (authorizePermissions_superuser_only (fun _ => Auth.Verified)
           Auth.sample_users Auth.sample_sessions 10
           (Some "Bearer token-1") ["can_manage_vault"]).
  discriminate.
Defined.

Lemma deactivated_user_locked_out_witness :
  fst (Auth.deactivateUser "u-2" Auth.staffed_users) = true
  /\ (exists u,
         Auth.authenticateToken (fun _ => Auth.Verified) Auth.staffed_users
           Auth.staffed_sessions 10 (Some "Bearer token-2")
         = (Some u, Auth.Next)
         /\ Auth.userId u = "u-2")
  /\ Auth.authenticateToken (fun _ => Auth.Verified)
       (snd (Auth.deactivateUser "u-2" Auth.staffed_users))
       Auth.staffed_sessions 10 (Some "Bearer token-2")
     = (None, Auth.Unauthorized)
  /\ exists u,
       Auth.authenticateToken (fun _ => Auth.Verified)
         (snd (Auth.deactivateUser "u-2" Auth.staffed_users))
         Auth.staffed_sessions 10 (Some "Bearer token-1")
       = (Some u, Auth.Next)
       /\ Auth.userId u <> "u-2".
Proof.
  split; [vm_compute; reflexivity |].
  split; [eexists; split; vm_compute; reflexivity |].
  split; [vm_compute; reflexivity |].
  eexists. split; [vm_compute; reflexivity |].
  apply (deactivated_user_locked_out (fun _ => Auth.Verified)
           Auth.staffed_users Auth.staffed_sessions 10 "u-2"
           (Some "Bearer token-1") _ Auth.Next).
  vm_compute. reflexivity.
Defined.

(** ** The UPDATE statements *)

Lemma update_loop (allowedFields : list string)
    (assignment : string -> N -> string)
    (updateData : list (string * js_value)) (b : update_builder) :
  let kept := kept_entries allowedFields updateData in
  fold_left
    (fun b '(field, value) =>
       if bool_decide (field ∈ allowedFields) && defined value
       then push_update b (assignment field (paramIndex b)) value
       else b)
    updateData b
  = {| updates :=
         updates b
         ++ imap (fun i entry =>
                    assignment entry.1 (paramIndex b + N.of_nat i)%N) kept;
       values := values b ++ (snd <$> kept);
       paramIndex := (paramIndex b + N.of_nat (length kept))%N |}.
Proof.
  revert b. induction updateData as [| [field value] rest IH]; intros b.
  - simpl. rewrite !app_nil_r, N.add_0_r. destruct b; reflexivity.
  - cbn [fold_left]. rewrite IH. clear IH.
    unfold kept_entries. cbn [List.filter fst snd].
    destruct (bool_decide (field ∈ allowedFields) && defined value).
    + cbn [push_update updates values paramIndex imap length fmap list_fmap
           fst snd].
      rewrite <- !app_assoc. cbn [app].
      rewrite N.add_0_r. f_equal.
      * f_equal. f_equal. apply imap_ext. intros i entry _. simpl.
        f_equal. lia.
      * lia.
    + reflexivity.
Qed.

Lemma kept_entries_nil (allowedFields : list string)
    (updateData : list (string * js_value)) :
  kept_entries allowedFields updateData = []
  <-> forall field value,
        (field, value) ∈ updateData ->
        field ∉ allowedFields \/ value = Undefined.
Proof.
  unfold kept_entries. induction updateData as [| [f v] rest IH].
  - simpl. split; [| reflexivity].
    intros _ field value H. apply elem_of_nil in H. contradiction.
  - cbn [List.filter fst snd].
    destruct (bool_decide (f ∈ allowedFields)) eqn:Hin;
      [destruct (defined v) eqn:Hdef |]; cbn [andb].
    + split; [discriminate |]. intros H.
      apply bool_decide_eq_true in Hin.
      destruct (H f v) as [Hno | ->];
        [left | contradiction | discriminate].
    + rewrite IH. split.
      * intros H field value Hel. apply elem_of_cons in Hel as [[= -> ->] | Hel].
        -- right. destruct v; [reflexivity | discriminate..].
        -- apply H. exact Hel.
      * intros H field value Hel. apply H. right. exact Hel.
    + rewrite IH. apply bool_decide_eq_false in Hin. split.
      * intros H field value Hel. apply elem_of_cons in Hel as [[= -> ->] | Hel].
        -- left. exact Hin.
        -- apply H. exact Hel.
      * intros H field value Hel. apply H. right. exact Hel.
Qed.

Lemma updateProduct_unfold (productId : string)
    (updateData : list (string * js_value)) :
  let kept := kept_entries product_fields updateData in
  updateProduct productId updateData
  = if Nat.eqb (length kept) 0 then Throws NoValidFieldsToUpdate
    else Returns {|
      query :=
        updateProduct_query
          (imap (fun i entry =>
                   entry.1 +:+ " = $" +:+ pretty (N.of_nat (S i))) kept)
          (N.of_nat (S (length kept)));
      query_values := (snd <$> kept) ++ [Text productId] |}.
Proof.
  intros kept. unfold updateProduct. cbv zeta.
  rewrite (update_loop product_fields
             (fun field n => field +:+ " = $" +:+ pretty n)).
  fold kept. cbn [updates values paramIndex app].
  rewrite length_imap.
  replace (1 + N.of_nat (length kept))%N with (N.of_nat (S (length kept)))
    by lia.
  destruct (Nat.eqb (length kept) 0); [reflexivity |].
  f_equal. f_equal. f_equal. apply imap_ext. intros i entry _. simpl.
  f_equal. f_equal. f_equal. lia.
Qed.

Lemma updateBorrower_unfold (borrowerId : string)
    (updateData : list (string * js_value)) :
  let kept := kept_entries borrower_fields updateData in
  updateBorrower borrowerId updateData
  = if Nat.eqb (length kept) 0 then Throws NoValidFieldsToUpdate
    else Returns {|
      query :=
        updateBorrower_query
          (imap (fun i entry =>
                   entry.1 +:+ " = " +:+ pretty (N.of_nat (S i))) kept)
          (N.of_nat (S (length kept)));
      query_values := (snd <$> kept) ++ [Text borrowerId] |}.
Proof.
  intros kept. unfold updateBorrower. cbv zeta.
  rewrite (update_loop borrower_fields
             (fun field n => field +:+ " = " +:+ pretty n)).
  fold kept. cbn [updates values paramIndex app].
  rewrite length_imap.
  replace (1 + N.of_nat (length kept))%N with (N.of_nat (S (length kept)))
    by lia.
  destruct (Nat.eqb (length kept) 0); [reflexivity |].
  f_equal. f_equal. f_equal. apply imap_ext. intros i entry _. simpl.
  f_equal. f_equal. f_equal. lia.
Qed.

(** X12. The statement [updateProduct] sends names its parameters in step
    with [values]: the entries of [updateData] with an allowed field and a
    value other than [undefined] are assigned in their order, the i-th of
    them as [field = $i] with its value at position i of [values], and the
    WHERE clause names the parameter after the last, where the product id
    stands. No other column is assigned. *)
Theorem updateProduct_parameters_aligned (productId : string)
    (updateData : list (string * js_value)) (q : query_call) :
  updateProduct productId updateData = Returns q ->
  let kept := kept_entries product_fields updateData in
  query q
  = updateProduct_query
      (imap (fun i entry => entry.1 +:+ " = $" +:+ pretty (N.of_nat (S i)))
            kept)
      (N.of_nat (S (length kept)))
  /\ query_values q = (snd <$> kept) ++ [Text productId]
  /\ Forall (fun entry => entry.1 ∈ product_fields) kept.
Proof.
  intros H kept. rewrite updateProduct_unfold in H. fold kept in H.
  destruct (Nat.eqb (length kept) 0); [discriminate |].
  injection H as <-. repeat split.
  apply Forall_forall. intros entry Hin.
  apply list_elem_of_In, filter_In in Hin as [_ Hin].
  apply andb_true_iff in Hin as [Hin _].
  apply bool_decide_eq_true in Hin. exact Hin.
Qed.

Lemma updateProduct_parameters_aligned_witness :
  exists q,
    updateProduct "student"
      [("max_amount", Text "750.00"); ("created_by", Text "nobody");
       ("is_active", Boolean false); ("grace_days", Undefined)]
    = Returns q
    /\ query q = updateProduct_query ["max_amount = $1"; "is_active = $2"] 3
    /\ query_values q = [Text "750.00"; Boolean false; Text "student"].
Proof.
  eexists. split; [vm_compute; reflexivity |].
  destruct (updateProduct_parameters_aligned "student"
              [("max_amount", Text "750.00"); ("created_by", Text "nobody");
               ("is_active", Boolean false); ("grace_days", Undefined)]
              _ eq_refl) as (Hquery & Hvalues & _).
  split; [exact Hquery | exact Hvalues].
Defined.

(** X13. [updateProduct] throws 'No valid fields to update' exactly when
    every entry of [updateData] names a field outside [allowedFields] or
    holds [undefined]; otherwise it reaches the database. *)
Theorem updateProduct_throws_iff (productId : string)
    (updateData : list (string * js_value)) :
  (updateProduct productId updateData = Throws NoValidFieldsToUpdate
   <-> forall field value,
         (field, value) ∈ updateData ->
         field ∉ product_fields \/ value = Undefined)
  /\ (updateProduct productId updateData <> Throws NoValidFieldsToUpdate
      -> exists q, updateProduct productId updateData = Returns q).
Proof.
  rewrite updateProduct_unfold, <- kept_entries_nil.
  destruct (kept_entries product_fields updateData) as [| entry kept];
    cbn [length Nat.eqb].
  - split; [split; reflexivity | intros H; contradiction].
  - split; [split; discriminate | intros _; eexists; reflexivity].
Qed.

(** *** The characters of the statement texts *)

Lemma chars_app (s1 s2 : string) :
  list_ascii_of_string (s1 +:+ s2)
  = list_ascii_of_string s1 ++ list_ascii_of_string s2.
Proof. induction s1 as [| c s1 IH]; simpl; [| rewrite IH]; reflexivity. Qed.

Lemma chars_concat (c : ascii) (sep : string) (l : list string) :
  In c (list_ascii_of_string (String.concat sep l)) ->
  In c (list_ascii_of_string sep)
  \/ exists s, In s l /\ In c (list_ascii_of_string s).
Proof.
  induction l as [| s [| s' l] IH].
  - simpl. contradiction.
  - simpl. intros H. right. exists s. auto.
  - change (String.concat sep (s :: s' :: l))
      with (s +:+ sep +:+ String.concat sep (s' :: l)).
    rewrite !chars_app, !in_app_iff. intros [H | [H | H]].
    + right. exists s. split; [left; reflexivity | exact H].
    + left. exact H.
    + destruct (IH H) as [Hsep | (t & Ht & Hc)]; [left; exact Hsep |].
      right. exists t. split; [right; exact Ht | exact Hc].
Qed.

Lemma chars_pretty_N_go (c : ascii) (x : N) (s : string) :
  In c (list_ascii_of_string (pretty_N_go x s)) ->
  In c (list_ascii_of_string s) \/ In c (list_ascii_of_string "0123456789").
Proof.
  revert s. induction (N.lt_wf_0 x) as [x _ IH]. intros s.
  destruct (decide (x = 0)%N) as [-> | Hx].
  - rewrite pretty_N_go_0. auto.
  - rewrite pretty_N_go_step by lia. intros H.
    apply IH in H; [| apply N.div_lt; lia].
    destruct H as [H | H]; [| right; exact H].
    simpl in H. destruct H as [<- | H]; [| left; exact H].
    right. unfold pretty_N_char.
    repeat case_match; simpl; tauto.
Qed.

Lemma chars_pretty_N (c : ascii) (x : N) :
  In c (list_ascii_of_string (pretty x)) ->
  In c (list_ascii_of_string "0123456789").
Proof.
  unfold pretty, pretty_N. destruct (decide (x = 0)%N) as [_ | _].
  - simpl. intros [<- | []]. simpl. auto.
  - intros H. apply chars_pretty_N_go in H as [[] | H]. exact H.
Qed.

Lemma updateBorrower_query_no_dollar (assignments : list string) (n : N) :
  Forall (fun s => ~ In "$"%char (list_ascii_of_string s)) assignments ->
  ~ In "$"%char (list_ascii_of_string (updateBorrower_query assignments n)).
Proof.
  intros Hall. unfold updateBorrower_query.
  rewrite !chars_app, !in_app_iff.
  intros H.
  repeat match type of H with
         | _ \/ _ => destruct H as [H | H]
         end;
    try (vm_compute in H; intuition discriminate).
  - apply chars_concat in H as [H | (s & Hs & Hc)].
    + vm_compute in H. intuition discriminate.
    + rewrite Forall_forall in Hall.
      apply (Hall s); [apply list_elem_of_In; exact Hs | exact Hc].
  - apply chars_pretty_N in H. vm_compute in H. intuition discriminate.
Qed.

(** X14. The statement [updateBorrower] sends holds no parameter
    placeholder: its template writes the bare counter, so that the i-th
    kept field is assigned the integer i and the WHERE clause compares
    [id] with an integer, while the values, the borrower id last, are
    passed without any [$n] to refer to them. *)
Theorem updateBorrower_without_placeholders (borrowerId : string)
    (updateData : list (string * js_value)) (q : query_call) :
  updateBorrower borrowerId updateData = Returns q ->
  let kept := kept_entries borrower_fields updateData in
  query q
  = updateBorrower_query
      (imap (fun i entry => entry.1 +:+ " = " +:+ pretty (N.of_nat (S i)))
            kept)
      (N.of_nat (S (length kept)))
  /\ query_values q = (snd <$> kept) ++ [Text borrowerId]
  /\ ~ In "$"%char (list_ascii_of_string (query q)).
Proof.
  intros H kept. rewrite updateBorrower_unfold in H. fold kept in H.
  destruct (Nat.eqb (length kept) 0); [discriminate |].
  injection H as <-. cbn [query query_values].
  split; [reflexivity | split; [reflexivity |]].
  apply updateBorrower_query_no_dollar.
  apply Forall_forall. intros s Hs.
  apply list_elem_of_lookup in Hs as [i Hs].
  apply list_lookup_imap_Some in Hs as ([field value] & Hentry & ->).
  cbn [fst].
  assert (In field borrower_fields) as Hfield.
  { apply list_elem_of_lookup_2, list_elem_of_In, filter_In in Hentry
      as [_ Hin].
    apply andb_true_iff in Hin as [Hin _].
    apply bool_decide_eq_true, list_elem_of_In in Hin. exact Hin. }
  rewrite !chars_app, !in_app_iff. intros [Hc | [Hc | Hc]].
  - revert Hc. clear -Hfield.
    unfold borrower_fields in Hfield. simpl in Hfield.
    repeat (destruct Hfield as [<- | Hfield];
            [vm_compute; intuition discriminate |]).
    contradiction.
  - vm_compute in Hc. intuition discriminate.
  - apply chars_pretty_N in Hc. vm_compute in Hc. intuition discriminate.
Qed.

Lemma updateBorrower_without_placeholders_witness :
  exists q,
    updateBorrower "b-17"
      [("status", Text "inactive"); ("notes", Text "moved")] = Returns q
    /\ query q = updateBorrower_query ["status = 1"; "notes = 2"] 3
    /\ query_values q = [Text "inactive"; Text "moved"; Text "b-17"]
    /\ ~ In "$"%char (list_ascii_of_string (query q)).
Proof.
  eexists. split; [vm_compute; reflexivity |].
  exact (updateBorrower_without_placeholders "b-17"
           [("status", Text "inactive"); ("notes", Text "moved")]
           _ eq_refl).
Defined.

(** X15. [updateKycStatus] never records who approved and when: the
    fields [kyc_approved_at] and [kyc_approved_by] it adds for an
    approval are not among the allowed fields of [updateBorrower], so the
    call is the update of [kyc_status], and of [notes] when given,
    whatever the approver and the time. *)
Theorem updateKycStatus_drops_approval (now borrowerId : string)
    (kycStatus approvedBy notes : js_value) :
  updateKycStatus now borrowerId kycStatus approvedBy notes
  = updateBorrower borrowerId
      (("kyc_status", kycStatus)
       :: if js_truthy notes then [("notes", notes)] else []).
Proof.
  unfold updateKycStatus. cbv zeta.
  assert (js_truthy match notes with Undefined => Null | _ => notes end
          = js_truthy notes) as Htruthy by (destruct notes; reflexivity).
  rewrite Htruthy.
  assert (js_truthy notes = true ->
          match notes with Undefined => Null | _ => notes end = notes)
    as Hnotes by (destruct notes; simpl; intros; congruence).
  destruct (js_truthy notes); [rewrite Hnotes by reflexivity |];
    destruct (is_text kycStatus "approved");
    rewrite !updateBorrower_unfold;
    unfold kept_entries; cbn [List.filter app fst snd];
    destruct (defined kycStatus); destruct (defined approvedBy);
    destruct (defined notes); reflexivity.
Qed.

(** ** Borrower codes *)

Lemma pretty_N_go_head (x : N) (s : string) :
  (0 < x)%N ->
  exists c rest, pretty_N_go x s = String c rest /\ c <> "0"%char.
Proof.
  revert s. induction (N.lt_wf_0 x) as [x _ IH]. intros s Hx.
  rewrite pretty_N_go_step by exact Hx.
  destruct (decide (x < 10)%N) as [Hsmall | Hbig].
  - rewrite N.div_small by exact Hsmall. rewrite pretty_N_go_0.
    rewrite N.mod_small by exact Hsmall.
    exists (pretty_N_char x), s. split; [reflexivity |].
    assert (x = 1 \/ x = 2 \/ x = 3 \/ x = 4 \/ x = 5 \/ x = 6 \/ x = 7
            \/ x = 8 \/ x = 9)%N as Hcases by lia.
    repeat (destruct Hcases as [-> | Hcases]; [discriminate |]).
    subst x. discriminate.
  - apply IH.
    + apply N.div_lt; lia.
    + apply N.div_str_pos. lia.
Qed.

Lemma pretty_N_head (x : N) :
  (0 < x)%N -> exists c rest, pretty x = String c rest /\ c <> "0"%char.
Proof.
  intros Hx. unfold pretty, pretty_N.
  destruct (decide (x = 0)%N) as [-> | _]; [lia |].
  apply pretty_N_go_head, Hx.
Qed.

Lemma zeros_succ (m : nat) :
  String.concat "" (replicate (S m) "0")
  = String "0" (String.concat "" (replicate m "0")).
Proof. destruct m; reflexivity. Qed.

Lemma zeros_app_inj (m1 m2 : nat) (s1 s2 : string) :
  (exists c rest, s1 = String c rest /\ c <> "0"%char) ->
  (exists c rest, s2 = String c rest /\ c <> "0"%char) ->
  String.concat "" (replicate m1 "0") +:+ s1
  = String.concat "" (replicate m2 "0") +:+ s2 ->
  s1 = s2.
Proof.
  intros (c1 & r1 & -> & H1) (c2 & r2 & -> & H2).
  revert m2. induction m1 as [| m1 IH]; intros [| m2];
    rewrite ?zeros_succ; simpl.
  - auto.
  - intros [= -> _]. contradiction.
  - intros [= <- _]. contradiction.
  - intros [= H]. apply (IH m2 H).
Qed.

Lemma generateBorrowerCode_injective (db1 db2 : Borrowers.tables) :
  Borrowers.generateBorrowerCode db1 = Borrowers.generateBorrowerCode db2 ->
  length (Borrowers.borrowers db1) = length (Borrowers.borrowers db2).
Proof.
  unfold Borrowers.generateBorrowerCode. intros H.
  apply (inj (String.app "NZM-BOR-")) in H.
  unfold Borrowers.padStart3 in H.
  apply zeros_app_inj in H; try (apply pretty_N_head; lia).
  apply (inj pretty) in H. lia.
Qed.

Lemma generateBorrowerCode_borrowers (db1 db2 : Borrowers.tables) :
  length (Borrowers.borrowers db1) = length (Borrowers.borrowers db2) ->
  Borrowers.generateBorrowerCode db1 = Borrowers.generateBorrowerCode db2.
Proof. unfold Borrowers.generateBorrowerCode. intros ->. reflexivity. Qed.

(** X16. The borrower code is a function of the number of rows of
    [borrowers] alone, and an injective one: two tables get the same code
    from [generateBorrowerCode] exactly when they hold equally many
    borrowers. *)
Theorem generateBorrowerCode_counts_rows (db1 db2 : Borrowers.tables) :
  Borrowers.generateBorrowerCode db1 = Borrowers.generateBorrowerCode db2
  <-> length (Borrowers.borrowers db1) = length (Borrowers.borrowers db2).
Proof.
  split.
  - apply generateBorrowerCode_injective.
  - apply generateBorrowerCode_borrowers.
Qed.

Section BorrowerService.

Variable trim : string -> string.
Variable admissible : Borrowers.borrower_data -> bool.

Lemma createBorrower_outcome (uuid : string)
    (borrowerData : Borrowers.borrower_data) (createdBy : string)
    (db : Borrowers.tables) :
  (exists e,
     Borrowers.createBorrower admissible uuid borrowerData createdBy db
     = (Throws e, db))
  \/ (Borrowers.createBorrower admissible uuid borrowerData createdBy db
      = (Returns (Borrowers.Borrower uuid (Borrowers.inserted borrowerData)
                    createdBy),
         {| Borrowers.borrowers :=
              Borrowers.borrowers db
              ++ [Borrowers.Borrower uuid (Borrowers.inserted borrowerData)
                    createdBy];
            Borrowers.categories := Borrowers.categories db;
            Borrowers.referenced := Borrowers.referenced db |})
      /\ existsb
           (fun b => String.eqb (Borrowers.borrower_code (Borrowers.columns b))
                       (Borrowers.borrower_code borrowerData))
           (Borrowers.borrowers db) = false).
Proof.
  unfold Borrowers.createBorrower. cbv zeta.
  destruct (negb (admissible _)); [left; eexists; reflexivity |].
  destruct (existsb (fun b => String.eqb (Borrowers.id b) uuid) _);
    [left; eexists; reflexivity |].
  destruct (existsb
              (fun b =>
                 String.eqb (Borrowers.borrower_code (Borrowers.columns b))
                   (Borrowers.borrower_code (Borrowers.inserted borrowerData)))
              _) eqn:Hcode;
    [left; eexists; reflexivity |].
  destruct (existsb
              (fun b =>
                 String.eqb (Borrowers.id_number (Borrowers.columns b)) _) _);
    [left; eexists; reflexivity |].
  destruct (negb _); [left; eexists; reflexivity |].
  right. split; [reflexivity | exact Hcode].
Qed.

(** What a creation request leaves behind: the table as it was and no
    new borrower, or the table with one more row, which carries the
    generated code, a code no earlier row has. *)
Lemma controller_createBorrower_outcome (uuid : string)
    (user : option Auth.request_user) (body : Borrowers.create_body)
    (db : Borrowers.tables) :
  let result :=
    Borrowers.controller_createBorrower trim admissible uuid user body db in
  (snd result = db /\ forall b, fst result <> Borrowers.Created b)
  \/ (exists b,
        fst result = Borrowers.Created b
        /\ Borrowers.borrowers (snd result) = Borrowers.borrowers db ++ [b]
        /\ Borrowers.categories (snd result) = Borrowers.categories db
        /\ Borrowers.referenced (snd result) = Borrowers.referenced db
        /\ Borrowers.borrower_code (Borrowers.columns b)
           = Borrowers.generateBorrowerCode db
        /\ Borrowers.credit_score (Borrowers.columns b)
           = js_or (Borrowers.body_credit_score body) (Number (of_Z 50))
        /\ existsb
             (fun r =>
                String.eqb (Borrowers.borrower_code (Borrowers.columns r))
                  (Borrowers.generateBorrowerCode db))
             (Borrowers.borrowers db) = false).
Proof.
  cbv zeta. unfold Borrowers.controller_createBorrower.
  destruct user as [u |]; [| left; split; [reflexivity | discriminate]].
  cbv zeta.
  destruct (String.eqb (Auth.userId u) "");
    [left; split; [reflexivity | discriminate] |].
  destruct (Borrowers.borrowerIdNumberExists db _);
    [left; split; [reflexivity | discriminate] |].
  destruct (Borrowers.borrowerPhoneExists db _);
    [left; split; [reflexivity | discriminate] |].
  destruct (optional_trim trim (Borrowers.body_phone_whatsapp body));
    [| left; split; [reflexivity | discriminate]].
  destruct (optional_trim trim (Borrowers.body_email body));
    [| left; split; [reflexivity | discriminate]].
  destruct (optional_trim trim
              (Borrowers.body_employer_or_school body));
    [| left; split; [reflexivity | discriminate]].
  destruct (optional_trim trim (Borrowers.body_referrer body));
    [| left; split; [reflexivity | discriminate]].
  destruct (optional_trim trim (Borrowers.body_notes body));
    [| left; split; [reflexivity | discriminate]].
  match goal with
  | |- context [Borrowers.createBorrower admissible uuid ?d ?c db] =>
      destruct (createBorrower_outcome uuid d c db) as [[e He] | [Hok Hcode]];
      [rewrite He | rewrite Hok]
  end.
  - left. destruct (Borrowers.already_exists e);
      [split; [reflexivity | discriminate] |].
    destruct e; split; try reflexivity; discriminate.
  - right. eexists. split; [reflexivity |].
    cbn [snd Borrowers.borrowers Borrowers.categories Borrowers.referenced
         Borrowers.columns Borrowers.inserted Borrowers.borrower_code
         Borrowers.credit_score].
    repeat split; try reflexivity; [| exact Hcode].
    destruct (Borrowers.body_credit_score body) as [| | [] | [] |];
      reflexivity.
Qed.

Lemma append_only_fresh (db : Borrowers.tables) :
  Borrowers.append_only db ->
  Forall (fun b => Borrowers.borrower_code (Borrowers.columns b)
                   <> Borrowers.generateBorrowerCode db)
         (Borrowers.borrowers db).
Proof.
  intros Hseq. apply Forall_lookup. intros i b Hb.
  rewrite (Hseq i b Hb). intros Heq.
  apply generateBorrowerCode_injective in Heq. simpl in Heq.
  apply lookup_lt_Some in Hb. rewrite length_take in Heq. lia.
Qed.

(** X17. In a table of borrowers that has only grown, the generated code
    is fresh: no row carries the code [generateBorrowerCode] returns, and
    whatever a creation request does, the table it leaves has only grown
    again. *)
Theorem generated_code_fresh (db : Borrowers.tables) :
  Borrowers.append_only db ->
  Forall (fun b => Borrowers.borrower_code (Borrowers.columns b)
                   <> Borrowers.generateBorrowerCode db)
         (Borrowers.borrowers db)
  /\ forall uuid user body,
       Borrowers.append_only
         (snd (Borrowers.controller_createBorrower trim admissible uuid
                 user body db)).
Proof.
  intros Hseq. split; [apply append_only_fresh, Hseq |].
  intros uuid user body.
  destruct (controller_createBorrower_outcome uuid user body db)
    as [[-> _] | (b & _ & Hrows & _ & _ & Hcode & _)]; [exact Hseq |].
  intros i r Hr. rewrite Hrows in Hr |- *.
  destruct (decide (i < length (Borrowers.borrowers db))%nat) as [Hi | Hi].
  - rewrite lookup_app_l in Hr by exact Hi.
    rewrite (Hseq i r Hr). apply generateBorrowerCode_borrowers. simpl.
    rewrite !length_take, length_app. simpl. lia.
  - rewrite lookup_app_r in Hr by lia.
    apply list_lookup_singleton_Some in Hr as [Hzero <-].
    rewrite Hcode. apply generateBorrowerCode_borrowers. simpl.
    rewrite length_take, length_app. simpl. lia.
Qed.

Lemma filter_id_other (k : string) (l : list Borrowers.borrower) :
  k ∉ Borrowers.id <$> l ->
  List.filter (fun b => String.eqb (Borrowers.id b) k) l = []
  /\ List.filter (fun b => negb (String.eqb (Borrowers.id b) k)) l = l.
Proof.
  induction l as [| b l IH]; [split; reflexivity |].
  rewrite fmap_cons, not_elem_of_cons. intros [Hb Hl].
  destruct (IH Hl) as [IH1 IH2]. simpl.
  assert (String.eqb (Borrowers.id b) k = false) as ->
    by (apply String.eqb_neq; congruence).
  simpl. rewrite IH1, IH2. split; reflexivity.
Qed.

Lemma filter_id_middle (before after : list Borrowers.borrower)
    (victim : Borrowers.borrower) :
  NoDup (Borrowers.id <$> before ++ victim :: after) ->
  List.filter (fun b => String.eqb (Borrowers.id b) (Borrowers.id victim))
    (before ++ victim :: after)
  = [victim]
  /\ List.filter
       (fun b => negb (String.eqb (Borrowers.id b) (Borrowers.id victim)))
       (before ++ victim :: after)
     = before ++ after.
Proof.
  intros Hnodup.
  rewrite fmap_app, fmap_cons in Hnodup.
  apply NoDup_app in Hnodup as (_ & Hbefore & Hafter).
  apply NoDup_cons in Hafter as [Hafter _].
  assert (Borrowers.id victim ∉ Borrowers.id <$> before) as Hnot.
  { intros Hin. apply (Hbefore _ Hin). left. }
  destruct (filter_id_other _ _ Hnot) as [H1 H2].
  destruct (filter_id_other _ _ Hafter) as [H3 H4].
  rewrite !List.filter_app. simpl.
  rewrite String.eqb_refl. simpl.
  rewrite H1, H2, H3, H4. split; reflexivity.
Qed.

(** X18. After the deletion of any borrower but the one created last,
    the count-based code collides with the code of the last row: from
    then on no creation request creates a borrower, whatever it holds,
    and the table stays as the deletion left it. *)
Theorem creation_blocked_after_deletion (db : Borrowers.tables)
    (i : nat) (victim : Borrowers.borrower) :
  Borrowers.append_only db ->
  NoDup (Borrowers.id <$> Borrowers.borrowers db) ->
  Borrowers.borrowers db !! i = Some victim ->
  (S i < length (Borrowers.borrowers db))%nat ->
  Borrowers.id victim ∉ Borrowers.referenced db ->
  let deletion :=
    Borrowers.controller_deleteBorrower (Borrowers.id victim) db in
  fst deletion = Borrowers.Deleted victim
  /\ forall uuid user body,
       let creation :=
         Borrowers.controller_createBorrower trim admissible uuid user body
           (snd deletion) in
       snd creation = snd deletion
       /\ forall b, fst creation <> Borrowers.Created b.
Proof.
  intros Hseq Hnodup Hvictim Hlast Hfree.
  pose proof (take_drop_middle _ _ _ Hvictim) as Hsplit.
  rewrite <- Hsplit in Hnodup.
  destruct (filter_id_middle _ _ _ Hnodup) as [Hfound Hrest].
  rewrite Hsplit in Hfound, Hrest.
  unfold Borrowers.controller_deleteBorrower, Borrowers.hardDeleteBorrower,
    Borrowers.getBorrowerById.
  rewrite Hfound. cbn [head].
  rewrite bool_decide_eq_false_2 by exact Hfree.
  cbv zeta. cbn [fst snd]. split; [reflexivity |].
  rewrite Hrest.
  set (db' := {| Borrowers.borrowers :=
                   take i (Borrowers.borrowers db)
                   ++ drop (S i) (Borrowers.borrowers db);
                 Borrowers.categories := Borrowers.categories db;
                 Borrowers.referenced := Borrowers.referenced db |}).
  intros uuid user body.
  destruct (controller_createBorrower_outcome uuid user body db')
    as [H | (b & _ & _ & _ & _ & _ & _ & Hnone)]; [exact H |].
  exfalso.
  set (n := length (Borrowers.borrowers db)) in *.
  destruct (lookup_lt_is_Some_2 (Borrowers.borrowers db) (n - 1))
    as [final Hfinal]; [lia |].
  assert (existsb
            (fun r =>
               String.eqb (Borrowers.borrower_code (Borrowers.columns r))
                 (Borrowers.generateBorrowerCode db'))
            (Borrowers.borrowers db') = true) as Hsome; [| congruence].
  apply existsb_exists. exists final. split.
  - apply list_elem_of_In. unfold db'. cbn [Borrowers.borrowers].
    apply elem_of_app. right.
    apply list_elem_of_lookup. exists (n - 1 - S i)%nat.
    rewrite lookup_drop. rewrite <- Hfinal. f_equal. lia.
  - apply String.eqb_eq. rewrite (Hseq _ _ Hfinal).
    apply generateBorrowerCode_borrowers. unfold db'.
    cbn [Borrowers.borrowers].
    rewrite length_app, !length_take, length_drop. fold n. lia.
Qed.

(** X19. The credit score among the parameters of the INSERT of a created
    borrower is the [credit_score] of the request when that is truthy and
    the number 50 otherwise: the controller keeps every value but
    [undefined], the service then replaces every falsy one. The parameter
    is never falsy; the number 0 is sent as 50, whereas the text [0],
    which is truthy, is sent as it is. *)
Theorem created_credit_score (uuid : string)
    (user : option Auth.request_user) (body : Borrowers.create_body)
    (db db' : Borrowers.tables) (b : Borrowers.borrower) :
  Borrowers.controller_createBorrower trim admissible uuid user body db
  = (Borrowers.Created b, db') ->
  Borrowers.credit_score (Borrowers.columns b)
  = js_or (Borrowers.body_credit_score body) (Number (of_Z 50))
  /\ js_truthy (Borrowers.credit_score (Borrowers.columns b)) = true
  /\ (js_truthy (Borrowers.body_credit_score body) = false ->
      Borrowers.credit_score (Borrowers.columns b) = Number (of_Z 50))
  /\ (js_truthy (Borrowers.body_credit_score body) = true ->
      Borrowers.credit_score (Borrowers.columns b)
      = Borrowers.body_credit_score body).
Proof.
  intros H.
  destruct (controller_createBorrower_outcome uuid user body db)
    as [[_ Hnot] | (b' & Hb & _ & _ & _ & _ & Hscore & _)];
    rewrite H in *; cbn [fst snd] in *.
  - destruct (Hnot b). reflexivity.
  - injection Hb as <-. rewrite Hscore. unfold js_or.
    destruct (js_truthy (Borrowers.body_credit_score body)) eqn:Htruthy.
    + split; [reflexivity |]. split; [exact Htruthy |].
      split; [discriminate | reflexivity].
    + split; [reflexivity |]. split; [reflexivity |].
      split; [reflexivity | discriminate].
Qed.

End BorrowerService.

Lemma sample_tables_append_only : Borrowers.append_only Borrowers.sample_tables.
Proof.
  intros [| [| i]] b; simpl; intros H; try discriminate;
    injection H as <-; reflexivity.
Qed.

Lemma generated_code_fresh_witness :
  Forall (fun b => Borrowers.borrower_code (Borrowers.columns b)
                   <> "NZM-BOR-003")
         (Borrowers.borrowers Borrowers.sample_tables).
Proof.
  exact (proj1 (generated_code_fresh (fun s => s) (fun _ => true)
                  Borrowers.sample_tables sample_tables_append_only)).
Defined.

Lemma creation_blocked_after_deletion_witness :
  let deletion :=
    Borrowers.controller_deleteBorrower "b-1" Borrowers.sample_tables in
  fst deletion
  = Borrowers.Deleted
      (Borrowers.Borrower "b-1"
         (Borrowers.sample_columns "NZM-BOR-001" "63-100001" "0771000001")
         "amina")
  /\ fst (Borrowers.controller_createBorrower (fun s => s) (fun _ => true)
            "b-3" (Some (Auth.staff_member "amina" (Some Auth.loan_officer)))
            (Borrowers.sample_body Undefined) (snd deletion))
     <> Borrowers.Created
          (Borrowers.Borrower "b-3"
             (Borrowers.sample_columns "NZM-BOR-002" "63-100003" "0771000003")
             "amina").
Proof.
  destruct (creation_blocked_after_deletion (fun s => s) (fun _ => true)
              Borrowers.sample_tables 0
              (Borrowers.Borrower "b-1"
                 (Borrowers.sample_columns "NZM-BOR-001" "63-100001"
                    "0771000001") "amina"))
    as [Hdeleted Hblocked].
  - exact sample_tables_append_only.
  - simpl. apply NoDup_cons. split.
    + rewrite not_elem_of_cons. split; [discriminate | apply not_elem_of_nil].
    + apply NoDup_singleton.
  - reflexivity.
  - simpl. lia.
  - simpl. apply not_elem_of_empty.
  - split; [exact Hdeleted |].
    apply (Hblocked "b-3"
             (Some (Auth.staff_member "amina" (Some Auth.loan_officer)))
             (Borrowers.sample_body Undefined)).
Defined.

Lemma created_credit_score_witness :
  (exists b db',
      Borrowers.controller_createBorrower (fun s => s) (fun _ => true) "b-3"
        (Some (Auth.staff_member "amina" (Some Auth.loan_officer)))
        (Borrowers.sample_body (Number (of_Z 0))) Borrowers.sample_tables
      = (Borrowers.Created b, db')
      /\ Borrowers.credit_score (Borrowers.columns b) = Number (of_Z 50))
  /\ (exists b db',
         Borrowers.controller_createBorrower (fun s => s) (fun _ => true)
           "b-3"
           (Some (Auth.staff_member "amina" (Some Auth.loan_officer)))
           (Borrowers.sample_body (Text "0")) Borrowers.sample_tables
         = (Borrowers.Created b, db')
         /\ Borrowers.credit_score (Borrowers.columns b) = Text "0").
Proof.
  split.
  - eexists. eexists. split; [vm_compute; reflexivity |].
    apply (created_credit_score (fun s => s) (fun _ => true) "b-3"
             (Some (Auth.staff_member "amina" (Some Auth.loan_officer)))
             (Borrowers.sample_body (Number (of_Z 0)))
             Borrowers.sample_tables _ _ eq_refl).
    reflexivity.
  - eexists. eexists. split; [vm_compute; reflexivity |].
    apply (created_credit_score (fun s => s) (fun _ => true) "b-3"
             (Some (Auth.staff_member "amina" (Some Auth.loan_officer)))
             (Borrowers.sample_body (Text "0"))
             Borrowers.sample_tables _ _ eq_refl).
    reflexivity.
Defined.

(** ** The balance trigger *)

(** X20. The trigger makes the latest entry of an account decide its
    balance: if every account with entries shows the [balance_after] of
    its latest entry, this is so again after any INSERT into
    [vault_transaction_entries], whatever amount, entry type and
    [balance_after] the new row carries. *)
Theorem insert_entry_latest_balance (row : vault_transaction_entry)
    (db db' : database) (res : outcome unit ledger_error) :
  balance_follows_entries db ->
  insert_entry row db = (res, db') ->
  balance_follows_entries db'.
Proof.
  intros Hdb. unfold insert_entry.
  destruct (vault_accounts db !! vault_account_id row) as [a0 |] eqn:Ha0;
    [| intros [= <- <-]; exact Hdb].
  destruct (vault_transactions db !! transaction_id row);
    [| intros [= <- <-]; exact Hdb].
  intros [= <- <-]. intros account a latest. simpl.
  unfold entries_of. rewrite filter_app, filter_cons, filter_nil.
  destruct (decide (vault_account_id row = account)) as [<- | Hne].
  - rewrite lookup_alter_eq, Ha0. simpl. intros [= <-]. simpl.
    rewrite last_snoc. intros [= <-]. reflexivity.
  - rewrite lookup_alter_ne by exact Hne. rewrite app_nil_r.
    apply Hdb.
Qed.

Lemma insert_entry_latest_balance_witness :
  balance_follows_entries
    (snd (insert_entry
            (VaultTransactionEntry 0 "Main Cash Vault" debit 2500 99)
            (Database (<["Main Cash Vault" := VaultAccount cash 0]> ∅)
               [VaultTransaction 1 cash_deposit 2500 completed] []))).
Proof.
  apply (insert_entry_latest_balance
           (VaultTransactionEntry 0 "Main Cash Vault" debit 2500 99)
           (Database (<["Main Cash Vault" := VaultAccount cash 0]> ∅)
              [VaultTransaction 1 cash_deposit 2500 completed] [])
           _ (Returns tt)).
  - intros account a latest _ H. simpl in H. discriminate.
  - reflexivity.
Defined.

(** X21. The trigger trusts the writer of an entry: when the balances
    replay the entries, they do so again after a successful INSERT
    exactly if the [balance_after] of the new row is the prior balance of
    its account adjusted by the entry, a debit taking the amount away and
    a credit adding it. *)
Theorem insert_entry_replay_iff (row : vault_transaction_entry)
    (db db' : database) (a : vault_account) :
  balance_replayed db ->
  vault_accounts db !! vault_account_id row = Some a ->
  insert_entry row db = (Returns tt, db') ->
  (balance_replayed db'
   <-> balance_after row
       = current_balance a + signed (entry_kind row) (amount row)).
Proof.
  intros Hdb Ha. unfold insert_entry. rewrite Ha.
  destruct (vault_transactions db !! transaction_id row); [| discriminate].
  intros [= <-]. unfold balance_replayed. simpl. split.
  - intros H.
    specialize (H (vault_account_id row)
                  {| account_kind := account_kind a;
                     current_balance := balance_after row |}).
    rewrite lookup_alter_eq, Ha in H. specialize (H eq_refl).
    simpl in H. rewrite replay_snoc in H.
    destruct (decide (vault_account_id row = vault_account_id row));
      [| contradiction].
    rewrite H, (Hdb _ _ Ha). reflexivity.
  - intros Hrow account a' Hlook. rewrite replay_snoc.
    destruct (decide (vault_account_id row = account)) as [<- | Hne].
    + rewrite lookup_alter_eq, Ha in Hlook. injection Hlook as <-. simpl.
      rewrite Hrow, (Hdb _ _ Ha). reflexivity.
    + rewrite lookup_alter_ne in Hlook by exact Hne. apply Hdb, Hlook.
Qed.

Lemma insert_entry_replay_iff_witness :
  balance_replayed
    (snd (insert_entry
            (VaultTransactionEntry 0 "Main Cash Vault" credit 2500 2500)
            (Database (<["Main Cash Vault" := VaultAccount cash 0]> ∅)
               [VaultTransaction 1 cash_deposit 2500 completed] [])))
  <-> 2500 = 0 + signed credit 2500.
Proof.
  apply (insert_entry_replay_iff
           (VaultTransactionEntry 0 "Main Cash Vault" credit 2500 2500)
           (Database (<["Main Cash Vault" := VaultAccount cash 0]> ∅)
              [VaultTransaction 1 cash_deposit 2500 completed] [])
           _ (VaultAccount cash 0)).
  - intros account a H. simpl in H.
    apply lookup_insert_Some in H as [[_ <-] | [_ H]]; [reflexivity |].
    rewrite lookup_empty in H. discriminate.
  - reflexivity.
  - reflexivity.
Defined.

(** ** Paginated listings *)

(** X22. The pagination block of a listing response never tells how many
    items or pages there are: [ResponseHelper.paginated] reads
    [totalItems], [totalPages], [hasNext] and [hasPrevious], while the
    services write [total_items], [total_pages], [has_next] and
    [has_previous], so the response always shows 0 items, 0 pages and
    neither a next nor a previous page. *)
Theorem paginated_loses_totals (count : N) (limit offset : number) :
  let block :=
    ResponseHelper.paginated (listing_pagination count limit offset) in
  ResponseHelper.total_items block = Number (of_Z 0)
  /\ ResponseHelper.total_pages block = Number (of_Z 0)
  /\ ResponseHelper.has_next block = Boolean false
  /\ ResponseHelper.has_previous block = Boolean false.
Proof. repeat split. Qed.

(** *** Products, quotients and floors of integers *)

(** The product of two positive integers, exact below [2^53]. *)
Lemma mul_integers (a b : Z) :
  0 < a -> 0 < b -> a * b < 2 ^ 53 ->
  mul (of_Z a) (of_Z b) = of_Z (a * b).
Proof.
  intros Ha Hb Hab.
  destruct (integer_shape a) as (ma & ea & Hma & Hea & Ema); [nia |].
  destruct (integer_shape b) as (mb & eb & Hmb & Heb & Emb); [nia |].
  destruct (integer_shape (a * b)) as (mn & en & Hmn & Hen & Emn); [nia |].
  rewrite (of_Z_finite a ma ea), (of_Z_finite b mb eb),
    (of_Z_finite (a * b) mn en) by assumption.
  unfold mul, SFmul. cbn [xorb].
  rewrite Pos2Z.inj_mul, !Z2Pos.id by lia.
  assert (0 < 2 ^ (- ea)) as Pa by (apply Z.pow_pos_nonneg; lia).
  assert (0 < 2 ^ (- eb)) as Pb by (apply Z.pow_pos_nonneg; lia).
  assert (0 < 2 ^ (- en)) as Pn by (apply Z.pow_pos_nonneg; lia).
  assert (ma * mb = a * b * 2 ^ (- ea - eb)) as Hprod.
  { rewrite Ema, Emb.
    replace (- ea - eb) with (- ea + - eb) by lia.
    rewrite Z.pow_add_r by lia. ring. }
  assert (0 <= en - (ea + eb)) as Hk.
  { destruct (Z_le_gt_dec 0 (en - (ea + eb))) as [H | H]; [exact H |].
    exfalso.
    assert (2 ^ (- ea - eb) <= 2 ^ (- en)) by (apply Z.pow_le_mono_r; lia).
    assert (2 ^ 104 <= ma * mb) by (change (2 ^ 104) with (2 ^ 52 * 2 ^ 52); nia).
    assert (a * b * 2 ^ (- ea - eb) <= a * b * 2 ^ (- en)) by nia.
    assert (2 ^ 53 < 2 ^ 104) by reflexivity. lia. }
  replace (ma * mb) with (mn * 2 ^ (en - (ea + eb))).
  2:{ rewrite Hprod, Emn, <- Z.mul_assoc, <- Z.pow_add_r by lia.
      f_equal. f_equal. lia. }
  rewrite binary_round_aux_exact by lia. f_equal. lia.
Qed.

(** The quotient of a product by one of its factors, exact. *)
Lemma div_integers (a b : Z) :
  0 < a -> 0 < b -> a * b < 2 ^ 53 ->
  div (of_Z (a * b)) (of_Z b) = of_Z a.
Proof.
  intros Ha Hb Hab.
  destruct (integer_shape a) as (ma & ea & Hma & Hea & Ema); [nia |].
  destruct (integer_shape b) as (mb & eb & Hmb & Heb & Emb); [nia |].
  destruct (integer_shape (a * b)) as (mn & en & Hmn & Hen & Emn); [nia |].
  rewrite (of_Z_finite a ma ea), (of_Z_finite b mb eb),
    (of_Z_finite (a * b) mn en) by assumption.
  unfold div, SFdiv, SFdiv_core_binary. cbn [xorb Zdigits2].
  rewrite !Z2Pos.id by lia.
  rewrite (digits2_pos_unique (Z.to_pos mn) 53),
    (digits2_pos_unique (Z.to_pos mb) 53)
    by (rewrite Z2Pos.id by lia; simpl; lia).
  unfold fexp, emin, prec, emax.
  replace (Z.min (Z.max (53 + en - (53 + eb) - 53) (3 - 1024 - 53)) (en - eb))
    with (en - eb - 53) by lia.
  replace (en - eb - (en - eb - 53)) with 53 by lia.
  rewrite Z.shiftl_mul_pow2 by lia.
  assert (0 < 2 ^ (- ea)) as Pa by (apply Z.pow_pos_nonneg; lia).
  assert (0 < 2 ^ (- eb)) as Pb by (apply Z.pow_pos_nonneg; lia).
  assert (0 < 2 ^ (- en)) as Pn by (apply Z.pow_pos_nonneg; lia).
  set (q := a * 2 ^ (53 - en + eb)).
  assert (0 < 2 ^ (53 - en + eb)) as Pq by (apply Z.pow_pos_nonneg; lia).
  assert (mn * 2 ^ 53 = q * mb) as Hexact.
  { unfold q. rewrite Emn, Emb.
    replace (a * b * 2 ^ (- en) * 2 ^ 53) with (a * b * 2 ^ (- en + 53))
      by (rewrite Z.pow_add_r by lia; ring).
    replace (a * 2 ^ (53 - en + eb) * (b * 2 ^ (- eb)))
      with (a * b * 2 ^ (53 - en + eb + - eb))
      by (rewrite (Z.pow_add_r 2 (53 - en + eb)) by lia; ring).
    f_equal. f_equal. lia. }
  destruct (Z.div_eucl (mn * 2 ^ 53) mb) as [q' r] eqn:Hdiv.
  assert (q' = q) as ->.
  { change q' with (fst (q', r)). rewrite <- Hdiv.
    change (fst (Z.div_eucl (mn * 2 ^ 53) mb)) with (mn * 2 ^ 53 / mb).
    rewrite Hexact. apply Z.div_mul. lia. }
  assert (r = 0) as ->.
  { change r with (snd (q, r)). rewrite <- Hdiv.
    change (snd (Z.div_eucl (mn * 2 ^ 53) mb)) with ((mn * 2 ^ 53) mod mb).
    rewrite Hexact. apply Z.mod_mul. lia. }
  assert (new_location mb 0 = loc_Exact) as ->
    by (unfold new_location, new_location_even, new_location_odd;
        destruct (Z.even mb); reflexivity).
  assert (0 <= ea - (en - eb - 53)) as Hk.
  { destruct (Z_le_gt_dec 0 (ea - (en - eb - 53))) as [H | H]; [exact H |].
    exfalso.
    assert (2 * 2 ^ (53 - en + eb) <= 2 ^ (- ea)).
    { change (2 * 2 ^ (53 - en + eb)) with (2 ^ 1 * 2 ^ (53 - en + eb)).
      rewrite <- Z.pow_add_r by lia. apply Z.pow_le_mono_r; lia. }
    assert (2 * q <= ma) by (unfold q; nia).
    assert (2 ^ 105 <= q * mb)
      by (rewrite <- Hexact; change (2 ^ 105) with (2 ^ 52 * 2 ^ 53); nia).
    assert (q * mb < 2 ^ 52 * 2 ^ 53) by nia.
    change (2 ^ 52 * 2 ^ 53) with (2 ^ 105) in *. lia. }
  replace q with (ma * 2 ^ (ea - (en - eb - 53))).
  2:{ unfold q. rewrite Ema, <- Z.mul_assoc, <- Z.pow_add_r by lia.
      f_equal. f_equal. lia. }
  rewrite binary_round_aux_exact by lia. f_equal. lia.
Qed.

(** The mantissa of an integer, aligned at the exponent of 1. *)
Lemma shl_align_integer (n m e : Z) :
  2 ^ 52 <= m < 2 ^ 53 -> -52 <= e <= 0 -> m = n * 2 ^ (- e) ->
  Z.pos (fst (shl_align (Z.to_pos m) e (-52))) = n * 2 ^ 52.
Proof.
  intros Hm He Hn. unfold shl_align.
  assert (0 < 2 ^ (- e)) as Hpow by (apply Z.pow_pos_nonneg; lia).
  destruct (-52 - e) as [| d | d] eqn:Hd; try lia; cbn [fst].
  - rewrite Z2Pos.id by lia. rewrite Hn. f_equal. f_equal. lia.
  - rewrite iter_xO, Z2Pos.id by lia. rewrite Hn.
    rewrite <- Z.mul_assoc, <- Z.pow_add_r by lia. f_equal. f_equal. lia.
Qed.

Lemma binary_normalize_integer (n : Z) :
  0 <= n < 2 ^ 53 ->
  binary_normalize prec emax (n * 2 ^ 52) (-52) false = of_Z n.
Proof.
  intros Hn. destruct (Z.eq_dec n 0) as [-> | Hpos]; [reflexivity |].
  destruct (integer_shape n) as (m & e & Hm & He & Em); [lia |].
  rewrite (of_Z_finite n m e) by assumption.
  unfold binary_normalize.
  destruct (n * 2 ^ 52) as [| p | p] eqn:Hp; try lia.
  apply binary_round_exact; [lia | lia |].
  left. split; [lia |]. rewrite <- Hp, Em.
  rewrite <- Z.mul_assoc, <- Z.pow_add_r by lia.
  f_equal. f_equal. lia.
Qed.

Lemma of_Z_1 : of_Z 1 = S754_finite false (Z.to_pos (2 ^ 52)) (-52).
Proof. reflexivity. Qed.

(** [n - 1] and [n + 1], exact. *)
Lemma sub_one (n : Z) :
  1 <= n < 2 ^ 53 -> sub (of_Z n) (of_Z 1) = of_Z (n - 1).
Proof.
  intros Hn.
  destruct (integer_shape n) as (m & e & Hm & He & Em); [lia |].
  rewrite (of_Z_finite n m e) by assumption. rewrite of_Z_1.
  unfold sub, SFsub. cbn [cond_Zopp].
  replace (Z.min e (-52)) with (-52) by lia.
  rewrite (shl_align_integer n m e) by assumption.
  rewrite (shl_align_integer 1 (2 ^ 52) (-52)) by (simpl; lia).
  replace (n * 2 ^ 52 - 1 * 2 ^ 52) with ((n - 1) * 2 ^ 52) by ring.
  apply binary_normalize_integer. lia.
Qed.

Lemma add_one (n : Z) :
  0 <= n -> n + 1 < 2 ^ 53 -> add (of_Z n) (of_Z 1) = of_Z (n + 1).
Proof.
  intros Hn Hsmall.
  destruct (Z.eq_dec n 0) as [-> | Hpos]; [reflexivity |].
  destruct (integer_shape n) as (m & e & Hm & He & Em); [lia |].
  rewrite (of_Z_finite n m e) by assumption. rewrite of_Z_1.
  unfold add, SFadd. cbn [cond_Zopp].
  replace (Z.min e (-52)) with (-52) by lia.
  rewrite (shl_align_integer n m e) by assumption.
  rewrite (shl_align_integer 1 (2 ^ 52) (-52)) by (simpl; lia).
  replace (n * 2 ^ 52 + 1 * 2 ^ 52) with ((n + 1) * 2 ^ 52) by ring.
  apply binary_normalize_integer. lia.
Qed.

(** [Math.floor] of an integer. *)
Lemma floor_integer (n : Z) :
  0 <= n < 2 ^ 53 -> Math.floor (of_Z n) = of_Z n.
Proof.
  intros Hn. destruct (Z.eq_dec n 0) as [-> | Hpos]; [reflexivity |].
  destruct (integer_shape n) as (m & e & Hm & He & Em); [lia |].
  pose proof (of_Z_finite n m e Hm He Em) as Hshape.
  rewrite Hshape at 1.
  unfold Math.floor, Math.round_to_integer.
  destruct (0 <=? e) eqn:Hsign.
  - symmetry. exact Hshape.
  - unfold Math.integer_part. rewrite Z2Pos.id by lia.
    assert (0 < 2 ^ (- e)) as Hpow by (apply Z.pow_pos_nonneg; lia).
    rewrite Em, Z.div_mul by lia.
    destruct n as [| p | p]; try lia. reflexivity.
Qed.

Lemma truthy_of_Z (n : Z) : 0 < n < 2 ^ 53 -> truthy (of_Z n) = true.
Proof.
  intros Hn.
  destruct (integer_shape n) as (m & e & Hm & He & Em); [lia |].
  rewrite (of_Z_finite n m e) by assumption. reflexivity.
Qed.

(** The page the service computes from the controller's offset. *)
Lemma currentPage_requested (p l : Z) :
  1 <= p -> 1 <= l -> p * l < 2 ^ 53 ->
  add (Math.floor (div (requested_offset (of_Z p) (of_Z l)) (of_Z l)))
      (of_Z 1)
  = of_Z p.
Proof.
  intros Hp Hl Hpl. unfold requested_offset.
  rewrite sub_one by nia.
  destruct (Z.eq_dec p 1) as [-> | Hmore].
  - assert (0 < l < 2 ^ 53) as Hrange by lia.
    destruct (integer_shape l) as (m & e & Hm & He & Em); [lia |].
    rewrite (of_Z_finite l m e) by assumption. reflexivity.
  - rewrite mul_integers, div_integers by nia.
    rewrite floor_integer by nia.
    rewrite add_one by nia. f_equal. lia.
Qed.

(** X23. A listing answers with the page and the limit that were asked
    for: for a page [p >= 1] and a limit [l >= 1] (the defaults 1 and 20
    included) with [p * l] below [2^53], the service recovers [p] from
    the offset [(p - 1) * l] the controller computes, all in double
    arithmetic, and the response shows page [p] and limit [l]. *)
Theorem listing_response_page (count : N) (parsedPage parsedLimit : number)
    (p l : Z) :
  requested_page parsedPage = of_Z p ->
  requested_limit parsedLimit = of_Z l ->
  1 <= p -> 1 <= l -> p * l < 2 ^ 53 ->
  ResponseHelper.page (listing_response count parsedPage parsedLimit)
  = Number (of_Z p)
  /\ ResponseHelper.limit (listing_response count parsedPage parsedLimit)
     = Number (of_Z l).
Proof.
  intros Hpage Hlimit Hp Hl Hpl.
  unfold listing_response. cbv zeta. rewrite Hpage, Hlimit.
  unfold ResponseHelper.paginated, listing_pagination.
  cbn [ResponseHelper.page ResponseHelper.limit].
  rewrite currentPage_requested by assumption.
  unfold property, js_or. split.
  - assert (js_truthy (Number (of_Z p)) = true) as Htruthy
      by (apply truthy_of_Z; nia).
    match goal with
    | |- (if js_truthy ?v then _ else _) = _ =>
        replace v with (Number (of_Z p)) by reflexivity
    end.
    rewrite Htruthy. reflexivity.
  - assert (js_truthy (Number (of_Z l)) = true) as Htruthy
      by (apply truthy_of_Z; nia).
    match goal with
    | |- (if js_truthy ?v then _ else _) = _ =>
        replace v with (Number (of_Z l)) by reflexivity
    end.
    rewrite Htruthy. reflexivity.
Qed.

Lemma listing_response_page_witness :
  ResponseHelper.page (listing_response 45 (of_Z 3) NaN) = Number (of_Z 3)
  /\ ResponseHelper.limit (listing_response 45 (of_Z 3) NaN)
     = Number (of_Z 20).
Proof.
  apply (listing_response_page 45 (of_Z 3) NaN 3 20).
  - reflexivity.
  - reflexivity.
  - lia.
  - lia.
  - reflexivity.
Defined.

(** ** The creation of loan products *)

Lemma js_or_truthy (a b : js_value) :
  js_truthy b = true -> js_truthy (js_or a b) = true.
Proof.
  intros Hb. unfold js_or.
  destruct (js_truthy a) eqn:Ha; [exact Ha | exact Hb].
Qed.

(** X24. A loan product is never created with 0 days of grace, although
    it can be created inactive: the controller keeps a [grace_days] of 0
    and an [is_active] of [false] alike, but the service then replaces
    every falsy [grace_days] by 3 and only an [undefined] [is_active] by
    [true]. *)
Theorem created_product_defaults (trim : string -> string)
    (parseFloat_value parseInt_value : js_value -> number)
    (productNameExists : js_value -> bool)
    (user : option Auth.request_user) (body : Products.create_body)
    (values : list js_value) :
  Products.controller_createProduct trim parseFloat_value parseInt_value
    productNameExists user body = Products.Inserts values ->
  (exists graceDays,
     values !! 6%nat = Some graceDays
     /\ js_truthy graceDays = true
     /\ graceDays
        = js_or (if defined (Products.body_grace_days body)
                 then Number (parseInt_value (Products.body_grace_days body))
                 else Number (of_Z 3))
                (Number (of_Z 3)))
  /\ values !! 10%nat
     = Some (if defined (Products.body_is_active body)
             then Products.body_is_active body
             else Boolean true).
Proof.
  unfold Products.controller_createProduct.
  destruct user as [u |]; [| discriminate]. cbv zeta.
  destruct (String.eqb (Auth.userId u) ""); [discriminate |].
  destruct (productNameExists _); [discriminate |].
  destruct (Products.body_name body); try discriminate.
  destruct (optional_trim trim _); [| discriminate].
  intros [= <-]. unfold Products.createProduct.
  cbn [Products.grace_days Products.is_active lookup list_lookup]. split.
  - eexists. split; [reflexivity |]. split; [| reflexivity].
    apply js_or_truthy. reflexivity.
  - destruct (defined (Products.body_is_active body)) eqn:Hdefined;
      [rewrite Hdefined |]; reflexivity.
Qed.

Lemma created_product_defaults_witness :
  exists values,
    Products.controller_createProduct (fun s => s) Products.number_of
      Products.number_of (fun _ => false)
      (Some (Auth.staff_member "amina" (Some Auth.admin)))
      (Products.sample_body (Number (of_Z 0)) (Boolean false))
    = Products.Inserts values
    /\ values !! 6%nat = Some (Number (of_Z 3))
    /\ values !! 10%nat = Some (Boolean false).
Proof.
  eexists. split; [reflexivity |].
  destruct (created_product_defaults (fun s => s) Products.number_of
              Products.number_of (fun _ => false)
              (Some (Auth.staff_member "amina" (Some Auth.admin)))
              (Products.sample_body (Number (of_Z 0)) (Boolean false))
              _ eq_refl) as [(graceDays & Hsix & _ & ->) Hten].
  split; [exact Hsix | exact Hten].
Defined.
